(** * LBR state management of the libiht kernel module

    A shallow embedding of [lkm/src/libiht_lkm.c]: the circular
    doubly-linked store of per-process [lbr_state] records, the model
    specific register access used to save and restore the branch
    records, the context-switch hooks, the ioctl dispatcher and the
    module teardown.

    Kernel memory is a finite map from block addresses to [lbr_state]
    values together with the set of blocks handed back through [kfree];
    the model specific registers of the executing processor are a finite
    map from register numbers to 64-bit values.  Every function of the C
    file that touches memory is written in an error monad, so that a
    dereference of a null or released pointer is visible in the result. *)

From stdpp Require Import gmap list.
From Stdlib Require Import ZArith Lia.

Local Open Scope Z_scope.

(** ** Results of running kernel code *)

(** Addresses of kernel blocks; [NULL] is never the address of one. *)
Abbreviation ptr := Z (only parsing).
Definition NULL : ptr := 0.

Inductive fault :=
  | UseAfterFree (p : ptr)
  | InvalidPointer (p : ptr)
  | InvalidFree (p : ptr)
  | OutOfBounds (p : ptr) (i : Z).

Inductive result (A : Type) :=
  | Ok (a : A)
  | Fault (f : fault)
  | OutOfFuel.
Arguments Ok {A} a.
Arguments Fault {A} f.
Arguments OutOfFuel {A}.

Definition bind {A B} (c : result A) (k : A -> result B) : result B :=
  match c with
  | Ok a => k a
  | Fault f => Fault f
  | OutOfFuel => OutOfFuel
  end.

Notation "'do' x <- c ; k" := (bind c (fun x => k))
  (at level 10, x name, c at level 100, k at level 200).

(** What a read of a released block does.  [Trap] is the C semantics
    (the access is an error); [Stale] is an unpoisoned allocator, where
    the block still holds what was last written to it. *)
Inductive uaf_mode := Trap | Stale.

(** ** Data model *)

(** Modelled from the spec: [struct lbr_stack_entry] is declared in
    [include/libiht_lkm.h], which is not among the sources; a register
    pair is a from address and a to address, read and written by the C
    file as [entries[i].from] and [entries[i].to]. *)
Record lbr_stack_entry := { from : Z; to : Z }.

(** Modelled from the spec: [struct lbr_state] of the same header; the
    fields are those of the data model (selection mask, top-of-stack,
    process id, links, parent, register pairs) under the names the C
    file uses. *)

Record lbr_state := {
  lbr_select : Z;
  lbr_tos : Z;
  pid : Z;
  prev : ptr;
  next : ptr;
  parent : ptr;
  entries : list lbr_stack_entry
}.

(** Modelled from the spec: [struct ioctl_request] of the same header,
    the selection mask and the process id of a request ([request.lbr_select]
    and [request.pid] in the C file). *)
Record ioctl_request := { req_lbr_select : Z; req_pid : Z }.

Definition with_lbr_select (v : Z) (st : lbr_state) : lbr_state :=
  {| lbr_select := v; lbr_tos := lbr_tos st; pid := pid st; prev := prev st;
     next := next st; parent := parent st; entries := entries st |}.
Definition with_lbr_tos (v : Z) (st : lbr_state) : lbr_state :=
  {| lbr_select := lbr_select st; lbr_tos := v; pid := pid st; prev := prev st;
     next := next st; parent := parent st; entries := entries st |}.
Definition with_pid (v : Z) (st : lbr_state) : lbr_state :=
  {| lbr_select := lbr_select st; lbr_tos := lbr_tos st; pid := v; prev := prev st;
     next := next st; parent := parent st; entries := entries st |}.
Definition with_prev (v : ptr) (st : lbr_state) : lbr_state :=
  {| lbr_select := lbr_select st; lbr_tos := lbr_tos st; pid := pid st; prev := v;
     next := next st; parent := parent st; entries := entries st |}.
Definition with_next (v : ptr) (st : lbr_state) : lbr_state :=
  {| lbr_select := lbr_select st; lbr_tos := lbr_tos st; pid := pid st; prev := prev st;
     next := v; parent := parent st; entries := entries st |}.
Definition with_parent (v : ptr) (st : lbr_state) : lbr_state :=
  {| lbr_select := lbr_select st; lbr_tos := lbr_tos st; pid := pid st; prev := prev st;
     next := next st; parent := v; entries := entries st |}.
Definition with_entries (v : list lbr_stack_entry) (st : lbr_state) : lbr_state :=
  {| lbr_select := lbr_select st; lbr_tos := lbr_tos st; pid := pid st; prev := prev st;
     next := next st; parent := parent st; entries := v |}.

(** The globals of the module and the part of the machine they act on. *)
Record machine := {
  heap : gmap Z lbr_state;      (* contents of the blocks kmalloc returned *)
  released : gset Z;            (* blocks given to kfree and not reallocated *)
  lbr_state_list : ptr;         (* the global list anchor *)
  lbr_capacity : Z;             (* set once by identify_cpu *)
  msr : gmap Z Z;               (* registers of the executing processor *)
  preempt_count : Z             (* get_cpu / put_cpu nesting *)
}.

Definition with_heap (h : gmap Z lbr_state) (m : machine) : machine :=
  {| heap := h; released := released m; lbr_state_list := lbr_state_list m;
     lbr_capacity := lbr_capacity m; msr := msr m; preempt_count := preempt_count m |}.
Definition with_released (r : gset Z) (m : machine) : machine :=
  {| heap := heap m; released := r; lbr_state_list := lbr_state_list m;
     lbr_capacity := lbr_capacity m; msr := msr m; preempt_count := preempt_count m |}.
Definition with_list (p : ptr) (m : machine) : machine :=
  {| heap := heap m; released := released m; lbr_state_list := p;
     lbr_capacity := lbr_capacity m; msr := msr m; preempt_count := preempt_count m |}.
Definition with_msr (r : gmap Z Z) (m : machine) : machine :=
  {| heap := heap m; released := released m; lbr_state_list := lbr_state_list m;
     lbr_capacity := lbr_capacity m; msr := r; preempt_count := preempt_count m |}.
Definition with_preempt (c : Z) (m : machine) : machine :=
  {| heap := heap m; released := released m; lbr_state_list := lbr_state_list m;
     lbr_capacity := lbr_capacity m; msr := msr m; preempt_count := c |}.

(** ** Constants of the kernel headers *)

Definition MSR_LBR_SELECT : Z := 0x1c8.
Definition MSR_LBR_TOS : Z := 0x1c9.
Definition MSR_LBR_NHM_FROM : Z := 0x680.
Definition MSR_LBR_NHM_TO : Z := 0x6c0.
Definition MSR_IA32_DEBUGCTLMSR : Z := 0x1d9.
Definition DEBUGCTLMSR_LBR : Z := 1.
Definition EINVAL : Z := 22.

(** ** Processor primitives *)

Definition rdmsrl (r : Z) (m : machine) : Z := default 0 (msr m !! r).
Definition wrmsrl (r v : Z) (m : machine) : machine := with_msr (<[r := v]> (msr m)) m.
Definition get_cpu (m : machine) : machine := with_preempt (preempt_count m + 1) m.
Definition put_cpu (m : machine) : machine := with_preempt (preempt_count m - 1) m.

Section Memory.
Context (mode : uaf_mode).

(** ** Memory primitives *)

Definition load (p : ptr) (m : machine) : result lbr_state :=
  match heap m !! p with
  | None => Fault (InvalidPointer p)
  | Some st =>
      match mode with
      | Trap => if decide (p ∈ released m) then Fault (UseAfterFree p) else Ok st
      | Stale => Ok st
      end
  end.

(** [p->field = v], as an update [f] of the block at [p]. *)
Definition store (p : ptr) (f : lbr_state -> lbr_state) (m : machine) : result machine :=
  do st <- load p m;
  Ok (with_heap (<[p := f st]> (heap m)) m).

(** [kfree(p)]; releasing a block twice corrupts the allocator. *)
Definition kfree (p : ptr) (m : machine) : result machine :=
  if decide (p = NULL) then Ok m
  else match heap m !! p with
       | None => Fault (InvalidFree p)
       | Some _ =>
           if decide (p ∈ released m) then Fault (InvalidFree p)
           else Ok (with_released ({[p]} ∪ released m) m)
       end.

(** [state->entries[i].from = v] and [state->entries[i].to = v]; the
    flexible array has the length it was allocated with. *)
Definition store_from (p : ptr) (i v : Z) (m : machine) : result machine :=
  do st <- load p m;
  match entries st !! Z.to_nat i with
  | None => Fault (OutOfBounds p i)
  | Some e =>
      Ok (with_heap (<[p := with_entries (<[Z.to_nat i := {| from := v; to := to e |}]> (entries st)) st]>
                       (heap m)) m)
  end.

Definition store_to (p : ptr) (i v : Z) (m : machine) : result machine :=
  do st <- load p m;
  match entries st !! Z.to_nat i with
  | None => Fault (OutOfBounds p i)
  | Some e =>
      Ok (with_heap (<[p := with_entries (<[Z.to_nat i := {| from := from e; to := v |}]> (entries st)) st]>
                       (heap m)) m)
  end.

Definition load_entry (p : ptr) (i : Z) (m : machine) : result lbr_stack_entry :=
  do st <- load p m;
  match entries st !! Z.to_nat i with
  | None => Fault (OutOfBounds p i)
  | Some e => Ok e
  end.

(** ** LBR state helper functions *)

(** [create_lbr_state]: [a] is what [kmalloc] returns, [NULL] on
    exhaustion; the block is zeroed and holds [lbr_capacity] pairs. *)
Definition zero_state (cap : Z) : lbr_state :=
  {| lbr_select := 0; lbr_tos := 0; pid := 0; prev := NULL; next := NULL;
     parent := NULL; entries := replicate (Z.to_nat cap) {| from := 0; to := 0 |} |}.

Definition create_lbr_state (a : ptr) (m : machine) : ptr * machine :=
  if decide (a = NULL) then (NULL, m)
  else (a, with_released (released m ∖ {[a]})
             (with_heap (<[a := zero_state (lbr_capacity m)]> (heap m)) m)).

Definition insert_lbr_state (new_state : ptr) (m : machine) : result machine :=
  if decide (new_state = NULL) then Ok m
  else
    let head := lbr_state_list m in
    if decide (head = NULL) then
      do m1 <- store new_state (with_prev new_state) m;
      do m2 <- store new_state (with_next new_state) m1;
      Ok (with_list new_state m2)
    else
      do h <- load head m;
      do m1 <- store (prev h) (with_next new_state) m;
      do h1 <- load head m1;
      do m2 <- store new_state (with_prev (prev h1)) m1;
      do m3 <- store head (with_prev new_state) m2;
      store new_state (with_next head) m3.

(** [remove_lbr_state] calls itself from inside its do-while loop; the
    loop is [remove_children], and [fuel] bounds calls and iterations
    together. *)
Fixpoint remove_lbr_state (fuel : nat) (old_state : ptr) (m : machine) : result machine :=
  match fuel with
  | O => OutOfFuel
  | S fuel =>
      if decide (old_state = NULL) then Ok m
      else
        let head := lbr_state_list m in
        if decide (head = NULL) then Ok m
        else
          do m1 <- (if decide (head = old_state) then
                      do h <- load head m;
                      Ok (with_list (if decide (next h = head) then NULL else next h) m)
                    else Ok m);
          (* old_state->prev->next = old_state->next *)
          do o <- load old_state m1;
          do m2 <- store (prev o) (with_next (next o)) m1;
          (* old_state->next->prev = old_state->prev *)
          do o' <- load old_state m2;
          do m3 <- store (next o') (with_prev (prev o')) m2;
          do m4 <- (if decide (lbr_state_list m3 = NULL) then Ok m3
                    else remove_children fuel old_state (lbr_state_list m3) m3);
          kfree old_state m4
  end
with remove_children (fuel : nat) (old_state tmp : ptr) (m : machine) : result machine :=
  match fuel with
  | O => OutOfFuel
  | S fuel =>
      do t <- load tmp m;
      do m1 <- (if decide (parent t = old_state) then remove_lbr_state fuel tmp m else Ok m);
      (* tmp = tmp->prev *)
      do t' <- load tmp m1;
      if decide (prev t' = lbr_state_list m1) then Ok m1
      else remove_children fuel old_state (prev t') m1
  end.

Fixpoint find_loop (fuel : nat) (p : Z) (tmp : ptr) (m : machine) : result ptr :=
  match fuel with
  | O => OutOfFuel
  | S fuel =>
      do t <- load tmp m;
      if decide (pid t = p) then Ok tmp
      else if decide (prev t = lbr_state_list m) then Ok NULL
      else find_loop fuel p (prev t) m
  end.

Definition find_lbr_state (fuel : nat) (p : Z) (m : machine) : result ptr :=
  if decide (lbr_state_list m = NULL) then Ok NULL
  else find_loop fuel p (lbr_state_list m) m.

(** ** LBR helper functions *)

Fixpoint flush_loop (n : nat) (i : Z) (m : machine) : machine :=
  match n with
  | O => m
  | S n =>
      flush_loop n (i + 1)
        (wrmsrl (MSR_LBR_NHM_TO + i) 0 (wrmsrl (MSR_LBR_NHM_FROM + i) 0 m))
  end.

Definition flush_lbr (enable : bool) (m : machine) : machine :=
  let m1 := wrmsrl MSR_LBR_TOS 0 (wrmsrl MSR_LBR_SELECT 0 m) in
  let m2 := flush_loop (Z.to_nat (lbr_capacity m1)) 0 m1 in
  if enable then wrmsrl MSR_IA32_DEBUGCTLMSR DEBUGCTLMSR_LBR m2
  else wrmsrl MSR_IA32_DEBUGCTLMSR 0 m2.

(** The body of the [for] loop of [get_lbr], [n] iterations from [i]. *)
Fixpoint get_lbr_loop (n : nat) (i : Z) (state : ptr) (m : machine) : result machine :=
  match n with
  | O => Ok m
  | S n =>
      do m1 <- store_from state i (rdmsrl (MSR_LBR_NHM_FROM + i) m) m;
      do m2 <- store_to state i (rdmsrl (MSR_LBR_NHM_TO + i) m1) m1;
      get_lbr_loop n (i + 1) state m2
  end.

Definition get_lbr (fuel : nat) (p : Z) (m : machine) : result machine :=
  do state <- find_lbr_state fuel p m;
  if decide (state = NULL) then Ok m
  else
    do m1 <- store state (with_lbr_select (rdmsrl MSR_LBR_SELECT m)) m;
    do m2 <- store state (with_lbr_tos (rdmsrl MSR_LBR_TOS m1)) m1;
    get_lbr_loop (Z.to_nat (lbr_capacity m2)) 0 state m2.

Fixpoint put_lbr_loop (n : nat) (i : Z) (state : ptr) (m : machine) : result machine :=
  match n with
  | O => Ok m
  | S n =>
      do e <- load_entry state i m;
      let m1 := wrmsrl (MSR_LBR_NHM_FROM + i) (from e) m in
      do e' <- load_entry state i m1;
      let m2 := wrmsrl (MSR_LBR_NHM_TO + i) (to e') m1 in
      put_lbr_loop n (i + 1) state m2
  end.

Definition put_lbr (fuel : nat) (p : Z) (m : machine) : result machine :=
  do state <- find_lbr_state fuel p m;
  if decide (state = NULL) then Ok m
  else
    do st <- load state m;
    let m1 := wrmsrl MSR_LBR_SELECT (lbr_select st) m in
    do st' <- load state m1;
    let m2 := wrmsrl MSR_LBR_TOS (lbr_tos st') m1 in
    put_lbr_loop (Z.to_nat (lbr_capacity m2)) 0 state m2.

(** [dump_lbr] only prints after [get_lbr]; the early return is taken
    with the processor still pinned. *)
Definition dump_lbr (fuel : nat) (p : Z) (m : machine) : result machine :=
  let m0 := get_cpu m in
  do state <- find_lbr_state fuel p m0;
  if decide (state = NULL) then Ok m0
  else
    do m1 <- get_lbr fuel p m0;
    Ok (put_cpu m1).

Definition enable_lbr (m : machine) : machine := put_cpu (flush_lbr true (get_cpu m)).

Definition disable_lbr (m : machine) : machine :=
  put_cpu (flush_lbr false (wrmsrl MSR_LBR_SELECT 0 (get_cpu m))).

(** ** Context switch hooks

    [current_pid] is [current->pid]; the spinlock is not modelled, one
    processor runs the code. *)

Definition save_lbr (fuel : nat) (current_pid : Z) (m : machine) : result machine :=
  do state <- find_lbr_state fuel current_pid m;
  if decide (state = NULL) then Ok m
  else get_lbr fuel current_pid m.

Definition restore_lbr (fuel : nat) (current_pid : Z) (m : machine) : result machine :=
  do state <- find_lbr_state fuel current_pid m;
  if decide (state = NULL) then Ok m
  else put_lbr fuel current_pid m.

Definition sched_in := restore_lbr.
Definition sched_out := save_lbr.

(** ** Device hooks *)

Definition device_read (fuel : nat) (m : machine) : result (Z * machine) :=
  if decide (lbr_state_list m = NULL) then Ok (0, m)
  else
    do h <- load (lbr_state_list m) m;
    do m1 <- dump_lbr fuel (pid h) m;
    Ok (0, m1).

Section Dispatcher.
(** The request codes and the default filter are macros of
    [include/libiht_lkm.h] and are parameters here; the [switch] is the
    chain of comparisons in the order of its cases. *)
Context (LIBIHT_LKM_IOC_ENABLE_TRACE LIBIHT_LKM_IOC_DISABLE_TRACE
         LIBIHT_LKM_IOC_DUMP_LBR LIBIHT_LKM_IOC_SELECT_LBR : Z).
Context (LBR_SELECT : Z).

(** [copy_ret] and [request] are what [copy_from_user] returned and
    left in the local request; [kmalloc_ret] is what the allocator
    returns if asked; [current_pid] is [current->pid]. *)
Definition device_ioctl (fuel : nat) (ioctl_cmd ioctl_param : Z)
    (copy_ret : Z) (request : ioctl_request) (current_pid : Z) (kmalloc_ret : ptr)
    (m : machine) : result (Z * machine) :=
  if decide (copy_ret ≠ 0) then Ok (-1, m)
  else if decide (ioctl_cmd = LIBIHT_LKM_IOC_ENABLE_TRACE) then
    let '(state, m0) := create_lbr_state kmalloc_ret m in
    if decide (state = NULL) then Ok (- EINVAL, m0)
    else
      do m1 <- store state (with_lbr_select
                 (if decide (req_lbr_select request ≠ 0) then req_lbr_select request
                  else LBR_SELECT)) m0;
      do m2 <- store state (with_pid
                 (if decide (req_pid request ≠ 0) then req_pid request else current_pid)) m1;
      do m3 <- store state (with_parent NULL) m2;
      do m4 <- insert_lbr_state state m3;
      do m5 <- put_lbr fuel (req_pid request) (get_cpu m4);
      Ok (0, put_cpu m5)
  else if decide (ioctl_cmd = LIBIHT_LKM_IOC_DISABLE_TRACE) then
    do state <- find_lbr_state fuel (req_pid request) m;
    if decide (state = NULL) then Ok (- EINVAL, m)
    else
      do m1 <- remove_lbr_state fuel state m;
      Ok (0, m1)
  else if decide (ioctl_cmd = LIBIHT_LKM_IOC_DUMP_LBR) then
    do m1 <- dump_lbr fuel (req_pid request) m;
    Ok (0, m1)
  else if decide (ioctl_cmd = LIBIHT_LKM_IOC_SELECT_LBR) then
    do state <- find_lbr_state fuel (req_pid request) m;
    if decide (state = NULL) then Ok (- EINVAL, m)
    else
      do m1 <- store state (with_lbr_select ioctl_param) m;
      do m2 <- put_lbr fuel (req_pid request) (get_cpu m1);
      Ok (0, put_cpu m2)
  else Ok (- EINVAL, m).

End Dispatcher.

(** ** Module teardown *)

(** The do-while loop of [libiht_lkm_exit]: release, then step. *)
Fixpoint exit_loop (fuel : nat) (tmp : ptr) (m : machine) : result machine :=
  match fuel with
  | O => OutOfFuel
  | S fuel =>
      do m1 <- kfree tmp m;
      do t <- load tmp m1;
      if decide (prev t = lbr_state_list m1) then Ok m1
      else exit_loop fuel (prev t) m1
  end.

Definition libiht_lkm_exit (fuel : nat) (m : machine) : result machine :=
  do m1 <- (if decide (lbr_state_list m = NULL) then Ok m
            else exit_loop fuel (lbr_state_list m) m);
  Ok (disable_lbr m1).

End Memory.

(** The state [libiht_lkm_init] leaves behind on a processor with
    [cap] register pairs: tracing enabled, registers flushed, no entry. *)
Definition booted (cap : Z) : machine :=
  with_list NULL
    (enable_lbr {| heap := ∅; released := ∅; lbr_state_list := NULL;
                   lbr_capacity := cap; msr := ∅; preempt_count := 0 |}).

(** ** Vocabulary of the properties *)

(** Field views of the heap. *)
Definition nxt (m : machine) (p : ptr) : option ptr := next <$> (heap m !! p).
Definition prv (m : machine) (p : ptr) : option ptr := prev <$> (heap m !! p).
Definition par (m : machine) (p : ptr) : option ptr := parent <$> (heap m !! p).
Definition pid_of (m : machine) (p : ptr) : option Z := pid <$> (heap m !! p).

(** A block without its two link fields. *)
Definition strip (st : lbr_state) : lbr_state := with_next NULL (with_prev NULL st).
Definition payload (m : machine) (p : ptr) : option lbr_state := strip <$> (heap m !! p).

(** [m'] differs from [m] in link fields, the anchor and the set of
    released blocks only. *)
Definition same_data (m m' : machine) : Prop :=
  msr m' = msr m ∧ lbr_capacity m' = lbr_capacity m ∧
  preempt_count m' = preempt_count m ∧ ∀ q, payload m' q = payload m q.

(** [m'] differs from [m] in link fields and the anchor only. *)
Definition links_only (m m' : machine) : Prop :=
  released m' = released m ∧ same_data m m'.

(** [seg g l e]: following the link [g] from the first element of [l]
    walks through [l] in order and leaves it to [e]. *)
Fixpoint seg (g : ptr -> option ptr) (l : list ptr) (e : ptr) : Prop :=
  match l with
  | [] => True
  | x :: l' => g x = Some (hd e l') ∧ seg g l' e
  end.

(** [cseg g l]: the link [g] closes [l] into a cycle. *)
Definition cseg (g : ptr -> option ptr) (l : list ptr) : Prop := seg g l (hd NULL l).

(** [cyc m l]: the members [l] are distinct live blocks, linked into
    one cycle by [next] in the order of [l] and by [prev] in the
    opposite order. *)
Definition cyc (m : machine) (l : list ptr) : Prop :=
  NoDup l ∧ (NULL ∉ l) ∧ (∀ p, p ∈ l → p ∉ released m) ∧
  cseg (nxt m) l ∧ cseg (prv m) (reverse l).

(** [ring m l]: the store of [m] is the circular list whose members, in
    [next] order from the anchor, are [l]. *)
Definition ring (m : machine) (l : list ptr) : Prop :=
  NoDup l ∧ (NULL ∉ l) ∧ (∀ p, p ∈ l → p ∉ released m) ∧
  cseg (nxt m) l ∧ cseg (prv m) (reverse l) ∧
  lbr_state_list m = hd NULL l.

(** The statements of [remove_lbr_state] that come before its loop:
    the anchor update and the two link assignments. *)
Definition unlink (mode : uaf_mode) (old_state : ptr) (m : machine) : result machine :=
  do m1 <- (if decide (lbr_state_list m = old_state) then
              do h <- load mode (lbr_state_list m) m;
              Ok (with_list (if decide (next h = lbr_state_list m) then NULL else next h) m)
            else Ok m);
  do o <- load mode old_state m1;
  do m2 <- store mode (prev o) (with_next (next o)) m1;
  do o' <- load mode old_state m2;
  store mode (next o') (with_prev (prev o')) m2.

(** Every member holds as many register pairs as the processor has. *)
Definition snapshots_sized (m : machine) (l : list ptr) : Prop :=
  ∀ p st, p ∈ l → heap m !! p = Some st →
    length (entries st) = Z.to_nat (lbr_capacity m).

(** The order in which the backward loops visit the members. *)
Definition backward (l : list ptr) : list ptr :=
  match l with
  | [] => []
  | h :: t => h :: reverse t
  end.

Fixpoint first_match (m : machine) (p : Z) (ps : list ptr) : ptr :=
  match ps with
  | [] => NULL
  | x :: ps' => if decide (pid_of m x = Some p) then x else first_match m p ps'
  end.

(** A traversal as a test of the store would do it: follow the link
    [f] from [tmp] until it leads back to [start]. *)
Fixpoint walk (mode : uaf_mode) (f : lbr_state -> ptr) (fuel : nat) (start tmp : ptr)
    (m : machine) : result (list ptr) :=
  match fuel with
  | O => OutOfFuel
  | S fuel =>
      do t <- load mode tmp m;
      if decide (f t = start) then Ok [tmp]
      else do r <- walk mode f fuel start (f t) m; Ok (tmp :: r)
  end.

(** Store operations as a caller issues them.  [Insert a p q] is what
    the dispatcher and the fork hook do with a new entry: allocate (the
    allocator returns [a]), set [pid] and [parent], insert. *)
Inductive store_op :=
  | Insert (a : ptr) (p : Z) (q : ptr)
  | Remove (e : ptr).

Definition run_op (mode : uaf_mode) (fuel : nat) (o : store_op) (m : machine) : result machine :=
  match o with
  | Insert a p q =>
      let '(s, m0) := create_lbr_state a m in
      do m1 <- store mode s (with_pid p) m0;
      do m2 <- store mode s (with_parent q) m1;
      insert_lbr_state mode s m2
  | Remove e => remove_lbr_state mode fuel e m
  end.

Fixpoint run_ops (mode : uaf_mode) (fuel : nat) (os : list store_op) (m : machine) : result machine :=
  match os with
  | [] => Ok m
  | o :: os' => do m1 <- run_op mode fuel o m; run_ops mode fuel os' m1
  end.

(** The entries a sequence of operations leaves in the store, with
    their parents, provided no removal meets an entry with a child. *)
Definition remove_entry (e : ptr) (l : list (ptr * ptr)) : list (ptr * ptr) :=
  filter (λ x, x.1 ≠ e) l.

Fixpoint valid_ops (l : list (ptr * ptr)) (os : list store_op) : Prop :=
  match os with
  | [] => True
  | Insert a p q :: os' => a ≠ NULL ∧ (a ∉ l.*1) ∧ valid_ops (l ++ [(a, q)]) os'
  | Remove e :: os' => e ∈ l.*1 ∧ (e ∉ l.*2) ∧ valid_ops (remove_entry e l) os'
  end.

Fixpoint entries_after (l : list (ptr * ptr)) (os : list store_op) : list (ptr * ptr) :=
  match os with
  | [] => l
  | Insert a p q :: os' => entries_after (l ++ [(a, q)]) os'
  | Remove e :: os' => entries_after (remove_entry e l) os'
  end.

(** The store of [m] holds the entries [l], each with its parent. *)
Definition tracks (m : machine) (l : list (Z * Z)) : Prop :=
  ring m (l.*1) ∧ Forall (λ x, par m x.1 = Some x.2) l ∧ snapshots_sized m (l.*1).

(** [m'] differs from [m] in the heap only. *)
Definition heap_only (m m' : machine) : Prop :=
  released m' = released m ∧ lbr_state_list m' = lbr_state_list m ∧
  lbr_capacity m' = lbr_capacity m ∧ msr m' = msr m ∧ preempt_count m' = preempt_count m.

(** [m'] differs from [m] in the registers only. *)
Definition msr_only (m m' : machine) : Prop :=
  heap m' = heap m ∧ released m' = released m ∧ lbr_state_list m' = lbr_state_list m ∧
  lbr_capacity m' = lbr_capacity m ∧ preempt_count m' = preempt_count m.

(** The registers [get_lbr] reads and [put_lbr] writes. *)
Definition lbr_pair_msr (i n r : Z) : Prop :=
  MSR_LBR_NHM_FROM + i ≤ r < MSR_LBR_NHM_FROM + i + n ∨
  MSR_LBR_NHM_TO + i ≤ r < MSR_LBR_NHM_TO + i + n.

Definition lbr_msr (cap r : Z) : Prop :=
  r = MSR_LBR_SELECT ∨ r = MSR_LBR_TOS ∨ lbr_pair_msr 0 cap r.

(** The pairs of [st] below index [k] hold the registers of [m0]. *)
Definition pairs_of (m0 : machine) (st : lbr_state) (k : nat) : Prop :=
  ∀ j e, (j < k)%nat → entries st !! j = Some e →
    from e = rdmsrl (MSR_LBR_NHM_FROM + Z.of_nat j) m0 ∧
    to e = rdmsrl (MSR_LBR_NHM_TO + Z.of_nat j) m0.

(** [st] is a snapshot of the registers of [m0]. *)
Definition snapshot_of (m0 : machine) (st : lbr_state) : Prop :=
  lbr_select st = rdmsrl MSR_LBR_SELECT m0 ∧ lbr_tos st = rdmsrl MSR_LBR_TOS m0 ∧
  pairs_of m0 st (length (entries st)).

(** What [ENABLE_TRACE] stores in the new entry; [dflt] is the
    [LBR_SELECT] macro. *)
Definition enabled_state (dflt : Z) (req : ioctl_request) (cur cap : Z) : lbr_state :=
  with_parent NULL
    (with_pid (if decide (req_pid req ≠ 0) then req_pid req else cur)
       (with_lbr_select (if decide (req_lbr_select req ≠ 0) then req_lbr_select req
                         else dflt)
          (zero_state cap))).

(** The store as the module keeps it: a ring of entries of the right
    size, none with a parent (no live path sets one). *)
Definition store_ok (m : machine) (l : list ptr) : Prop :=
  ring m l ∧ snapshots_sized m l ∧ ∀ q, q ∈ l → par m q = Some NULL.

(** Whether a run came back with a value. *)
Definition returns {A} (r : result A) : bool :=
  match r with
  | Ok _ => true
  | _ => false
  end.

(** A dispatcher reply that rejects the request. *)
Definition rejected (r : result (Z * machine)) : Prop :=
  ∃ s m, r = Ok (s, m) ∧ s < 0.

(** No two members carry the same process id. *)
Definition pids_unique (m : machine) (l : list ptr) : Prop :=
  ∀ i j p q, l !! i = Some p → l !! j = Some q → pid_of m p = pid_of m q → i = j.

(** ** Executable checks and sample data *)

(** [ring] and [snapshots_sized] as boolean checks, for concrete
    machines. *)
Fixpoint segb (g : Z → option Z) (l : list Z) (e : Z) : bool :=
  match l with
  | [] => true
  | x :: l' => bool_decide (g x = Some (hd e l')) && segb g l' e
  end.

Definition ringb (m : machine) (l : list Z) : bool :=
  bool_decide (NoDup l) && bool_decide (NULL ∉ l) &&
  forallb (λ p, bool_decide (p ∉ released m)) l &&
  segb (nxt m) l (hd NULL l) && segb (prv m) (reverse l) (hd NULL (reverse l)) &&
  bool_decide (lbr_state_list m = hd NULL l).

Definition sizedb (m : machine) (l : list Z) : bool :=
  forallb (λ p, match heap m !! p with
                | Some st => bool_decide (length (entries st) = Z.to_nat (lbr_capacity m))
                | None => true
                end) l.

(** Modelled from the spec: sample values for the macros of
    [include/libiht_lkm.h] (four distinct request codes and a default
    filter), for the lemmas about one concrete request; the general
    properties are proved for any values. *)
Definition ENABLE_TRACE : Z := 1.
Definition DISABLE_TRACE : Z := 2.
Definition DUMP_LBR : Z := 3.
Definition SELECT_LBR : Z := 4.
Definition DEFAULT_SELECT : Z := 0x1.

Definition sample_ioctl (mode : uaf_mode) :=
  device_ioctl mode ENABLE_TRACE DISABLE_TRACE DUMP_LBR SELECT_LBR DEFAULT_SELECT.

(** The machine a run leaves behind ([booted 4] if it does not return). *)
Definition machine_of (r : result machine) : machine :=
  match r with
  | Ok m => m
  | _ => booted 4
  end.

Definition reply_machine (r : result (Z * machine)) : machine :=
  match r with
  | Ok (_, m) => m
  | _ => booted 4
  end.

(** A parent (block 10, process 100) and its child (block 20, process
    200), as the fork hook would link them. *)
Definition family_ops : list store_op := [Insert 10 100 NULL; Insert 20 200 10].
Definition family : machine :=
  Eval vm_compute in machine_of (run_ops Trap 4 family_ops (booted 4)).

(** The store after [ENABLE_TRACE] for process 100 (block 10). *)
Definition request_100 : ioctl_request := {| req_lbr_select := 0; req_pid := 100 |}.
Definition traced_100 : machine :=
  Eval vm_compute in
    reply_machine (sample_ioctl Trap 4 ENABLE_TRACE 0x7ffe1000 0 request_100 1 10 (booted 4)).

(** The same with branch records in the registers. *)
Definition traced_busy : machine :=
  Eval vm_compute in
    wrmsrl MSR_LBR_TOS 1
      (wrmsrl (MSR_LBR_NHM_TO + 1) 0x401f00 (wrmsrl (MSR_LBR_NHM_FROM + 1) 0x401000
         (wrmsrl MSR_LBR_NHM_TO 0x402000 (wrmsrl MSR_LBR_NHM_FROM 0x401f10 traced_100)))).

(** A block from the allocator with its process id set, not inserted. *)
Definition allocated (a p : Z) (m : machine) : machine :=
  let '(s, m0) := create_lbr_state a m in
  machine_of (store Trap s (with_pid p) m0).

(** A store whose anchor (block 10) carries process id 5, with a new
    block 20 for process 5, respectively 6, ready to be inserted. *)
Definition anchor_5 : machine :=
  Eval vm_compute in machine_of (run_ops Trap 4 [Insert 10 5 NULL] (booted 4)).
Definition anchor_5_new_5 : machine := Eval vm_compute in allocated 20 5 anchor_5.
Definition anchor_5_new_6 : machine := Eval vm_compute in allocated 20 6 anchor_5.

(** ** The rest of the module *)

Definition with_capacity (c : Z) (m : machine) : machine :=
  {| heap := heap m; released := released m; lbr_state_list := lbr_state_list m;
     lbr_capacity := c; msr := msr m; preempt_count := preempt_count m |}.

(** The fields [identify_cpu] cuts out of the [cpuid] leaf 1 value. *)
Definition cpu_family (info : Z) : Z := Z.land (Z.shiftr info 8) 0xf.
Definition cpu_model (info : Z) : Z :=
  Z.shiftl (Z.land (Z.shiftr info 16) 0xf) 4 + Z.land (Z.shiftr info 4) 0xf.

(** The [for] loop of [identify_cpu] over [cpu_lbr_maps], pairs of a
    model and a capacity; the first pair for the model ends the loop. *)
Fixpoint scan_lbr_maps (maps : list (Z * Z)) (model : Z) (m : machine) : machine :=
  match maps with
  | [] => m
  | (md, cap) :: rest =>
      if decide (model = md) then with_capacity (cap mod 2 ^ 64) m
      else scan_lbr_maps rest model m
  end.

(** [identify_cpu]: [eax] is what [cpuid] leaves in the register;
    [cpu_lbr_maps] is the table of [include/libiht_lkm.h], a parameter
    here.  [lbr_capacity] is a [u64], so [lbr_capacity = -1] stores
    [2 ^ 64 - 1] and the comparison with [-1] is one with that value. *)
Definition identify_cpu (cpu_lbr_maps : list (Z * Z)) (eax : Z) (m : machine) : Z * machine :=
  let info := eax in
  let family := cpu_family info in
  if decide (family ≠ 6) then (-1, m)
  else
    let model := cpu_model info in
    let m1 := with_capacity (2 ^ 64 - 1) m in
    let m2 := scan_lbr_maps cpu_lbr_maps model m1 in
    if decide (lbr_capacity m2 = 2 ^ 64 - 1) then (-1, m2) else (0, m2).

(** What the module registers with the kernel, beside the machine: the
    [proc_entry] global and the proc files that exist, the kprobe on
    [kernel_clone], the preempt notifier and the count
    [preempt_notifier_inc] raises. *)
Record kernel := {
  mach : machine;
  proc_entry : ptr;
  proc_files : gset Z;
  kprobe_registered : bool;
  notifier_registered : bool;
  notifier_users : Z
}.

(** [proc_remove(proc_entry)]. *)
Definition proc_remove (k : kernel) : kernel :=
  {| mach := mach k; proc_entry := proc_entry k;
     proc_files := proc_files k ∖ {[proc_entry k]};
     kprobe_registered := kprobe_registered k;
     notifier_registered := notifier_registered k; notifier_users := notifier_users k |}.

(** [libiht_lkm_init]: [proc_create_ret] and [register_kprobe_ret] are
    what the two kernel calls return; [on_each_cpu] runs [enable_lbr]
    on the modelled processor. *)
Definition libiht_lkm_init (cpu_lbr_maps : list (Z * Z)) (eax : Z)
    (proc_create_ret : ptr) (register_kprobe_ret : Z) (k : kernel) : Z * kernel :=
  let '(r, m1) := identify_cpu cpu_lbr_maps eax (mach k) in
  if decide (r < 0) then
    (-1, {| mach := m1; proc_entry := proc_entry k; proc_files := proc_files k;
            kprobe_registered := kprobe_registered k;
            notifier_registered := notifier_registered k;
            notifier_users := notifier_users k |})
  else
    let k1 := {| mach := m1; proc_entry := proc_create_ret;
                 proc_files := if decide (proc_create_ret = NULL) then proc_files k
                               else {[proc_create_ret]} ∪ proc_files k;
                 kprobe_registered := kprobe_registered k;
                 notifier_registered := notifier_registered k;
                 notifier_users := notifier_users k |} in
    if decide (proc_create_ret = NULL) then (-1, k1)
    else if decide (register_kprobe_ret < 0) then (-1, proc_remove k1)
    else
      (0, {| mach := with_list NULL (enable_lbr m1); proc_entry := proc_entry k1;
             proc_files := proc_files k1; kprobe_registered := true;
             notifier_registered := true; notifier_users := notifier_users k + 1 |}).

(** [libiht_lkm_exit] with the registrations it takes back: the list
    and the registers as [libiht_lkm_exit] above, then the notifier,
    the kprobe and the proc file. *)
Definition libiht_lkm_exit_module (mode : uaf_mode) (fuel : nat) (k : kernel) : result kernel :=
  do m1 <- libiht_lkm_exit mode fuel (mach k);
  Ok (proc_remove
        {| mach := m1; proc_entry := proc_entry k; proc_files := proc_files k;
           kprobe_registered := false; notifier_registered := false;
           notifier_users := notifier_users k |}).

(** The fork hooks as they stand: the body of [post_fork_handler] after
    the lookup is commented out in the source. *)
Definition pre_fork_handler (m : machine) : Z * machine := (0, m).

Definition post_fork_handler (mode : uaf_mode) (fuel : nat) (current_pid : Z)
    (m : machine) : result machine :=
  do parent_state <- find_lbr_state mode fuel current_pid m;
  if decide (parent_state = NULL) then Ok m else Ok m.

Definition device_open (m : machine) : Z * machine := (0, m).
Definition device_release (m : machine) : Z * machine := (0, m).
Definition device_write (m : machine) : Z * machine := (0, m).

(** What reaches the module once it is loaded: a request on the proc
    file (with what [copy_from_user] and [kmalloc] return for it), the
    other file operations, a context switch away from or to a process,
    a fork. *)
Inductive event :=
  | Ioctl (cmd param copy_ret : Z) (req : ioctl_request) (cur : Z) (kmalloc_ret : ptr)
  | Read
  | Write
  | Open
  | Release
  | SchedOut (cur : Z)
  | SchedIn (cur : Z)
  | Fork (cur : Z).

Section Events.
Context (mode : uaf_mode).
Context (ENABLE DISABLE DUMP SELECT : Z) (LBR_SELECT : Z).

Definition run_event (fuel : nat) (ev : event) (m : machine) : result machine :=
  match ev with
  | Ioctl cmd param copy_ret req cur kmalloc_ret =>
      do r <- device_ioctl mode ENABLE DISABLE DUMP SELECT LBR_SELECT
                fuel cmd param copy_ret req cur kmalloc_ret m;
      Ok r.2
  | Read => do r <- device_read mode fuel m; Ok r.2
  | Write => Ok (device_write m).2
  | Open => Ok (device_open m).2
  | Release => Ok (device_release m).2
  | SchedOut cur => sched_out mode fuel cur m
  | SchedIn cur => sched_in mode fuel cur m
  | Fork cur => post_fork_handler mode fuel cur (pre_fork_handler m).2
  end.

Fixpoint run_events (fuel : nat) (evs : list event) (m : machine) : result machine :=
  match evs with
  | [] => Ok m
  | ev :: evs' => do m1 <- run_event fuel ev m; run_events fuel evs' m1
  end.

(** The allocator hands out [NULL] or a block that is not live. *)
Definition fresh_alloc (ev : event) (m : machine) : Prop :=
  match ev with
  | Ioctl _ _ _ _ _ a => a = NULL ∨ heap m !! a = None ∨ a ∈ released m
  | _ => True
  end.

Fixpoint fresh_allocs (fuel : nat) (evs : list event) (m : machine) : Prop :=
  match evs with
  | [] => True
  | ev :: evs' =>
      fresh_alloc ev m ∧
      match run_event fuel ev m with
      | Ok m1 => fresh_allocs fuel evs' m1
      | _ => True
      end
  end.

End Events.

(** [store_ok] as a boolean check. *)
Definition store_okb (m : machine) (l : list Z) : bool :=
  ringb m l && sizedb m l && forallb (λ q, bool_decide (par m q = Some NULL)) l.

(** The store after [ENABLE_TRACE] for processes 100 and 200 (blocks 10
    and 20). *)
Definition request_200 : ioctl_request := {| req_lbr_select := 0xF; req_pid := 200 |}.
Definition traced_pair : machine :=
  Eval vm_compute in
    reply_machine (sample_ioctl Trap 4 ENABLE_TRACE 0x7ffe1000 0 request_200 1 20 traced_100).

(** The same after a second [ENABLE_TRACE] for process 200 (block 30). *)
Definition traced_triple : machine :=
  Eval vm_compute in
    reply_machine (sample_ioctl Trap 4 ENABLE_TRACE 0x7ffe1000 0 request_200 1 30 traced_pair).

(** An empty store and a block (10, for process 5) ready to be
    inserted. *)
Definition fresh_5 : machine := Eval vm_compute in allocated 10 5 (booted 4).

(** A session with the loaded module: two processes are traced and
    switched, one forks, the first is disabled and enabled again (the
    allocator hands block 10 out a second time), with reads and a
    malformed request in between. *)
Definition sample_events : list event :=
  [ Open;
    Ioctl ENABLE_TRACE 0x7ffe1000 0 request_100 1 10;
    SchedOut 100; SchedIn 100; Fork 100;
    Ioctl ENABLE_TRACE 0x7ffe1000 0 request_200 1 20;
    Read;
    Ioctl SELECT_LBR 0x7ffe1000 0 request_200 1 NULL;
    Ioctl DISABLE_TRACE 0x7ffe1000 0 request_100 1 NULL;
    Ioctl DUMP_LBR 0x7ffe1000 0 request_100 1 NULL;
    Ioctl 99 0x7ffe1000 0 request_100 1 NULL;
    Ioctl ENABLE_TRACE 0x7ffe1000 0 request_100 1 10;
    Ioctl ENABLE_TRACE 0x7ffe1000 0 request_100 1 NULL;
    SchedOut 200; SchedIn 100;
    Write; Release ].

(** Modelled from the spec: a sample of the known-model table (the
    table itself is in [include/libiht_lkm.h]), for the lemmas about one
    concrete processor; the general properties are proved for any
    table.  Two [cpuid] values: a Skylake (family 6, model [0x5e]) and a
    family 15 processor. *)
Definition sample_lbr_maps : list (Z * Z) := [(0x5c, 32); (0x5e, 32); (0x3c, 16); (0x1c, 8)].
Definition skylake_eax : Z := 0x506e3.
Definition netburst_eax : Z := 0xf29.

(** Nothing registered, and the registers as a reset leaves them. *)
Definition unloaded : kernel :=
  {| mach := {| heap := ∅; released := ∅; lbr_state_list := NULL;
                lbr_capacity := 0; msr := ∅; preempt_count := 0 |};
     proc_entry := NULL; proc_files := ∅; kprobe_registered := false;
     notifier_registered := false; notifier_users := 0 |}.

(** A decidable fact about concrete data, by evaluation. *)
Ltac by_compute := apply (bool_decide_unpack _); vm_compute; exact I.

(** ** Basic facts *)

Section Facts.
Context (mode : uaf_mode).

Lemma load_live p st m :
  heap m !! p = Some st → p ∉ released m → load mode p m = Ok st.
Proof.
  intros Hh Hr. unfold load. rewrite Hh. destruct mode; [|done].
  by rewrite decide_False.
Qed.

Lemma store_live p f st m :
  heap m !! p = Some st → p ∉ released m →
  store mode p f m = Ok (with_heap (<[p := f st]> (heap m)) m).
Proof. intros Hh Hr. unfold store. by rewrite (load_live p st). Qed.

Lemma load_released p m :
  p ∈ released m → ∃ f, load Trap p m = Fault f.
Proof.
  intros Hr. unfold load. destruct (heap m !! p); [|eauto].
  rewrite decide_True by done. eauto.
Qed.

Lemma seg_app g l1 l2 e :
  seg g (l1 ++ l2) e ↔ seg g l1 (hd e l2) ∧ seg g l2 e.
Proof.
  induction l1 as [|x l1 IH]; simpl; [tauto|].
  rewrite IH. destruct l1; simpl; tauto.
Qed.

Lemma seg_ext g g' l e :
  (∀ x, x ∈ l → g' x = g x) → seg g l e → seg g' l e.
Proof.
  induction l as [|x l IH]; simpl; [done|]. intros Hg [Hx Hl]. split.
  - rewrite Hg; [done|]. by left.
  - apply IH; [|done]. intros y Hy. apply Hg. by right.
Qed.

Lemma cseg_rotate g l1 l2 : cseg g (l1 ++ l2) ↔ cseg g (l2 ++ l1).
Proof.
  unfold cseg. rewrite !seg_app.
  destruct l1 as [|x l1], l2 as [|y l2]; simpl; rewrite ?app_nil_r; tauto.
Qed.

(** Redirecting the last link of a segment. *)
Lemma seg_retarget g g' l x e e' :
  x ∉ l → seg g (l ++ [x]) e →
  (∀ y, y ∈ l → g' y = g y) → g' x = Some e' →
  seg g' (l ++ [x]) e'.
Proof.
  intros Hx Hs Hg Hgx. apply seg_app in Hs as [Hl _]. apply seg_app. simpl. split; [|done].
  eapply seg_ext; [|exact Hl]. done.
Qed.

End Facts.

(** ** Insertion *)

Section Insertion.
Context (mode : uaf_mode).

Lemma ring_head_prev m h t :
  ring m (h :: t) → prv m h = Some (hd h (reverse t)) ∧ seg (prv m) (reverse t) h.
Proof.
  intros (_ & _ & _ & _ & Hp & _). rewrite reverse_cons in Hp.
  apply cseg_rotate in Hp. unfold cseg in Hp. simpl in Hp. done.
Qed.

Lemma ring_head_next m h t :
  ring m (h :: t) → nxt m h = Some (hd h t) ∧ seg (nxt m) t h.
Proof. intros (_ & _ & _ & Hn & _). exact Hn. Qed.

Lemma view_lookup {A} (f : lbr_state → A) (m : machine) p v :
  f <$> (heap m !! p) = Some v → ∃ st, heap m !! p = Some st ∧ f st = v.
Proof. intros H. apply fmap_Some in H as (st & ? & ?). eauto. Qed.

Lemma ring_member m l p :
  ring m l → p ∈ l → p ≠ NULL ∧ (p ∉ released m) ∧ ∃ st, heap m !! p = Some st.
Proof.
  intros (Hnd & Hnull & Hrel & Hn & _) Hp. split; [|split].
  - intros ->. done.
  - by apply Hrel.
  - apply list_elem_of_split in Hp as (l1 & l2 & ->).
    apply cseg_rotate in Hn. destruct Hn as [Hn _]. simpl in Hn.
    apply view_lookup in Hn as (st & ? & _). eauto.
Qed.

Lemma hd_reverse_in (h : ptr) t : hd h (reverse t) ∈ h :: t.
Proof.
  destruct (reverse t) as [|y r] eqn:E; simpl; [by left|].
  right. apply elem_of_reverse. rewrite E. by left.
Qed.

Lemma insert_nonempty m h t e est :
  ring m (h :: t) → e ≠ NULL → e ∉ h :: t →
  heap m !! e = Some est → e ∉ released m →
  ∃ m', insert_lbr_state mode e m = Ok m' ∧
    lbr_state_list m' = lbr_state_list m ∧ links_only m m' ∧
    (∀ q, nxt m' q = if decide (q = e) then Some h
                     else if decide (q = hd h (reverse t)) then Some e else nxt m q) ∧
    (∀ q, prv m' q = if decide (q = e) then Some (hd h (reverse t))
                     else if decide (q = h) then Some e else prv m q).
Proof.
  intros Hring Hnull He Hest Hrel.
  pose proof (ring_head_prev _ _ _ Hring) as [Hhp _].
  set (x := hd h (reverse t)) in *.
  assert (Hx : x ∈ h :: t) by apply hd_reverse_in.
  destruct (ring_member _ _ _ Hring Hx) as (_ & Hxr & xst & Hxst).
  assert (Hh : h ∈ h :: t) by (by left).
  destruct (ring_member _ _ _ Hring Hh) as (Hhn & Hhr & hst & Hhst).
  assert (Hlist : lbr_state_list m = h) by (by destruct Hring as (_ & _ & _ & _ & _ & ->)).
  assert (Hphst : prev hst = x).
  { unfold prv in Hhp. rewrite Hhst in Hhp. simpl in Hhp. congruence. }
  assert (Hxe : x ≠ e) by (intros ->; done).
  assert (Hhe : h ≠ e) by (intros ->; done).
  unfold insert_lbr_state. rewrite decide_False by done. rewrite Hlist.
  rewrite decide_False by done.
  rewrite (load_live mode h hst) by done. simpl. rewrite Hphst.
  clearbody x.
  rewrite (store_live mode x _ xst) by done. simpl.
  set (m1 := with_heap _ m).
  assert (∃ h1, heap m1 !! h = Some h1 ∧ prev h1 = x ∧ strip h1 = strip hst ∧
                next h1 = if decide (h = x) then e else next hst) as (h1 & Hh1 & Hp1 & Hs1 & Hn1).
  { subst m1. simpl. rewrite lookup_insert. destruct (decide (x = h)) as [E|E].
    - rewrite E, Hhst in Hxst. injection Hxst as <-.
      eexists; split; [done|]. rewrite decide_True by done.
      simpl. done.
    - exists hst. rewrite decide_False by done. done. }
  rewrite (load_live mode h h1) by done. simpl. rewrite Hp1.
  assert (He1 : heap m1 !! e = Some est).
  { subst m1. simpl. by rewrite lookup_insert_ne. }
  rewrite (store_live mode e _ est) by done. simpl.
  set (m2 := with_heap _ m1).
  assert (Hh2 : heap m2 !! h = Some h1).
  { subst m2. simpl. by rewrite lookup_insert_ne. }
  rewrite (store_live mode h _ h1) by done. simpl.
  set (m3 := with_heap _ m2).
  assert (He3 : heap m3 !! e = Some (with_prev x est)).
  { subst m3 m2. simpl. rewrite lookup_insert_ne by done. by rewrite lookup_insert_eq. }
  rewrite (store_live mode e _ (with_prev x est)) by done.
  eexists. split; [done|]. clear He3 Hh2 He1. subst m3 m2 m1. simpl. split; [done|]. clear Hlist. split; [|split].
  - repeat split; try done. intros q. unfold payload. simpl.
    destruct (decide (q = e)) as [->|Hqe].
    { rewrite lookup_insert_eq, Hest. done. }
    rewrite lookup_insert_ne by done.
    destruct (decide (q = h)) as [->|Hqh].
    { rewrite lookup_insert_eq, Hhst. simpl. f_equal. exact Hs1. }
    do 2 rewrite lookup_insert_ne by done.
    destruct (decide (q = x)) as [->|Hqx].
    { rewrite lookup_insert_eq, Hxst. done. }
    by rewrite lookup_insert_ne.
  - intros q. unfold nxt. simpl.
    destruct (decide (q = e)) as [->|Hqe].
    { by rewrite lookup_insert_eq. }
    rewrite lookup_insert_ne by done.
    destruct (decide (q = h)) as [->|Hqh].
    { rewrite lookup_insert_eq. simpl. rewrite Hn1.
      case_decide; [done|]. by rewrite Hhst. }
    do 2 rewrite lookup_insert_ne by done.
    destruct (decide (q = x)) as [->|Hqx].
    { by rewrite lookup_insert_eq. }
    by rewrite lookup_insert_ne.
  - intros q. unfold prv. simpl.
    destruct (decide (q = e)) as [->|Hqe].
    { by rewrite lookup_insert_eq. }
    rewrite lookup_insert_ne by done.
    destruct (decide (q = h)) as [->|Hqh].
    { by rewrite lookup_insert_eq. }
    do 2 rewrite lookup_insert_ne by done.
    destruct (decide (q = x)) as [->|Hqx].
    { rewrite lookup_insert_eq, Hxst. done. }
    by rewrite lookup_insert_ne.
Qed.

Lemma snoc_last (h : ptr) t : ∃ l0, h :: t = l0 ++ [hd h (reverse t)].
Proof.
  destruct (reverse t) as [|y r] eqn:E; simpl.
  - apply (f_equal reverse) in E. rewrite reverse_involutive in E. subst. by exists [].
  - apply (f_equal reverse) in E. rewrite reverse_involutive, reverse_cons in E. subst.
    by exists (h :: reverse r).
Qed.

Lemma insert_empty m e est :
  ring m [] → e ≠ NULL → heap m !! e = Some est → e ∉ released m →
  ∃ m', insert_lbr_state mode e m = Ok m' ∧
    lbr_state_list m' = e ∧ links_only m m' ∧
    (∀ q, nxt m' q = if decide (q = e) then Some e else nxt m q) ∧
    (∀ q, prv m' q = if decide (q = e) then Some e else prv m q).
Proof.
  intros (_ & _ & _ & _ & _ & Hlist) Hnull Hest Hrel. simpl in Hlist.
  unfold insert_lbr_state. rewrite decide_False by done. rewrite Hlist.
  rewrite decide_True by done.
  rewrite (store_live mode e _ est) by done. simpl.
  rewrite (store_live mode e _ (with_prev e est)); [|by simpl; rewrite lookup_insert_eq|done].
  eexists. split; [done|]. simpl. split; [done|]. split; [|split].
  - repeat split; try done. intros q. unfold payload. simpl.
    destruct (decide (q = e)) as [->|Hqe].
    + by rewrite lookup_insert_eq, Hest.
    + by do 2 rewrite lookup_insert_ne by done.
  - intros q. unfold nxt. simpl. case_decide as Hq.
    + subst q. by rewrite lookup_insert_eq.
    + by do 2 rewrite lookup_insert_ne by done.
  - intros q. unfold prv. simpl. case_decide as Hq.
    + subst q. by rewrite lookup_insert_eq.
    + by do 2 rewrite lookup_insert_ne by done.
Qed.

(** Appending at the tail keeps the ring. *)
Lemma insert_ring m l e est :
  ring m l → e ≠ NULL → e ∉ l → heap m !! e = Some est → e ∉ released m →
  ∃ m', insert_lbr_state mode e m = Ok m' ∧ ring m' (l ++ [e]) ∧ links_only m m'.
Proof.
  intros Hring Hnull He Hest Hrel. destruct l as [|h t].
  - destruct (insert_empty _ _ _ Hring Hnull Hest Hrel) as (m' & Hrun & Hl & Hlo & Hn & Hp).
    exists m'. split; [done|]. split; [|done]. simpl.
    destruct Hlo as (Hr & _).
    repeat split; simpl; try done.
    + apply NoDup_singleton.
    + intros H%list_elem_of_singleton. done.
    + intros p Hp'%list_elem_of_singleton. subst p. by rewrite Hr.
    + rewrite Hn. by rewrite decide_True.
    + rewrite Hp. by rewrite decide_True.
  - destruct (insert_nonempty _ _ _ _ _ Hring Hnull He Hest Hrel)
      as (m' & Hrun & Hl & Hlo & Hn & Hp).
    exists m'. split; [done|]. split; [|done].
    pose proof Hring as (Hnd & Hnn & Hre & Hcn & Hcp & Hli).
    destruct Hlo as (Hr & _).
    assert (Hxin : hd h (reverse t) ∈ h :: t) by apply hd_reverse_in.
    split; [|split; [|split; [|split; [|split]]]].
    + apply NoDup_app. split; [done|]. split; [|apply NoDup_singleton].
      intros y Hy Hy'%list_elem_of_singleton. subst y. done.
    + intros [H|H%list_elem_of_singleton]%elem_of_app; done.
    + intros p [H|H%list_elem_of_singleton]%elem_of_app; rewrite Hr; [auto|by subst p].
    + change (seg (nxt m') ((h :: t) ++ [e]) h). apply seg_app. split.
      * simpl hd. destruct (snoc_last h t) as (l0 & El0). rewrite El0.
        rewrite El0 in Hcn, Hnd, He. unfold cseg in Hcn.
        apply NoDup_app in Hnd as (_ & Hnd & _).
        eapply seg_retarget; [| exact Hcn | |].
        -- intros Hin. eapply Hnd; [done|]. by left.
        -- intros y Hy. rewrite Hn. rewrite decide_False.
           ++ rewrite decide_False; [done|]. intros ->.
              eapply Hnd; [done|]. by left.
           ++ intros ->. apply He. apply elem_of_app. by left.
        -- rewrite Hn. rewrite decide_False.
           ++ by rewrite decide_True.
           ++ intros E. apply He. rewrite <- E. apply elem_of_app. right. by left.
      * simpl. split; [|done]. rewrite Hn. by rewrite decide_True.
    + rewrite reverse_app. simpl. rewrite reverse_cons.
      unfold cseg. simpl. split.
      * rewrite Hp, decide_True by done. f_equal.
        destruct (reverse t); done.
      * rewrite reverse_cons in Hcp. unfold cseg in Hcp.
        eapply seg_retarget; [| exact Hcp | |].
        -- intros Hin. rewrite elem_of_reverse in Hin. apply NoDup_cons in Hnd as [Hht _]. exact (Hht Hin).
        -- intros y Hy. rewrite elem_of_reverse in Hy. rewrite Hp. rewrite decide_False.
           ++ rewrite decide_False; [done|]. intros ->. apply NoDup_cons in Hnd as [Hht _]. exact (Hht Hy).
           ++ intros ->. apply He. by right.
        -- rewrite Hp. rewrite decide_False.
           ++ by rewrite decide_True.
           ++ intros ->. apply He. by left.
    + rewrite Hl, Hli. done.
Qed.
End Insertion.

(** ** Backward loops *)

Section Traversal.
Context (mode : uaf_mode).

Lemma ring_cyc m l : ring m l ↔ cyc m l ∧ lbr_state_list m = hd NULL l.
Proof. unfold ring, cyc. tauto. Qed.

Lemma cyc_rotate m l1 l2 : cyc m (l1 ++ l2) → cyc m (l2 ++ l1).
Proof.
  intros (Hnd & Hnn & Hre & Hcn & Hcp). repeat split.
  - apply NoDup_app in Hnd as (H1 & H2 & H3). apply NoDup_app. repeat split; try done.
    intros x Hx2 Hx1. by apply (H2 x).
  - rewrite elem_of_app in *. tauto.
  - intros p Hp. apply Hre. rewrite elem_of_app in *. tauto.
  - by apply cseg_rotate.
  - rewrite reverse_app in *. by apply cseg_rotate.
Qed.

Lemma ring_backward m h t : ring m (h :: t) → seg (prv m) (h :: reverse t) h.
Proof. intros H. apply ring_head_prev in H. simpl. done. Qed.

Lemma NoDup_backward (l : list ptr) : NoDup l → NoDup (backward l).
Proof.
  destruct l as [|h t]; [done|]. simpl. intros [Hh Ht]%NoDup_cons. apply NoDup_cons.
  split; [by rewrite elem_of_reverse | by rewrite reverse_Permutation].
Qed.

Lemma elem_of_backward (l : list ptr) p : p ∈ backward l ↔ p ∈ l.
Proof.
  destruct l as [|h t]; [done|]. simpl. rewrite !elem_of_cons, elem_of_reverse. done.
Qed.

Lemma pid_of_lookup m x st : heap m !! x = Some st → pid_of m x = Some (pid st).
Proof. intros H. unfold pid_of. by rewrite H. Qed.

Lemma find_loop_spec m p x rest fuel :
  seg (prv m) (x :: rest) (lbr_state_list m) →
  lbr_state_list m ∉ rest →
  (∀ q, q ∈ x :: rest → q ∉ released m) →
  (length (x :: rest) ≤ fuel)%nat →
  find_loop mode fuel p x m = Ok (first_match m p (x :: rest)).
Proof.
  revert x fuel. induction rest as [|y rest IH]; intros x fuel Hseg Hh Hrel Hfuel.
  - destruct fuel as [|fuel]; [simpl in Hfuel; lia|].
    destruct Hseg as [Hx _]. apply view_lookup in Hx as (st & Hst & Hp). simpl in Hp.
    cbn [find_loop]. rewrite (load_live mode x st); [|done|apply Hrel; by left].
    cbn [bind first_match]. rewrite (pid_of_lookup _ _ _ Hst).
    destruct (decide (pid st = p)) as [->|Hne].
    + by rewrite decide_True.
    + rewrite (decide_False (P := Some _ = Some _)) by congruence. by rewrite decide_True.
  - destruct fuel as [|fuel]; [simpl in Hfuel; lia|].
    destruct Hseg as [Hx Hseg]. apply view_lookup in Hx as (st & Hst & Hp). simpl in Hp.
    cbn [find_loop]. rewrite (load_live mode x st); [|done|apply Hrel; by left].
    cbn [bind first_match]. rewrite (pid_of_lookup _ _ _ Hst).
    destruct (decide (pid st = p)) as [->|Hne].
    + by rewrite decide_True.
    + rewrite (decide_False (P := Some _ = Some _)) by congruence.
      rewrite Hp. rewrite decide_False.
      * apply IH; try done.
        -- intros H. apply Hh. by right.
        -- intros q Hq. apply Hrel. by right.
        -- simpl in *. lia.
      * intros E. apply Hh. rewrite <- E. by left.
Qed.

(** [find_lbr_state] returns the first member, in backward order from
    the anchor, that carries the process id. *)
Lemma find_spec m l p fuel :
  ring m l → (length l ≤ fuel)%nat →
  find_lbr_state mode fuel p m = Ok (first_match m p (backward l)).
Proof.
  intros Hring Hfuel. unfold find_lbr_state. destruct l as [|h t].
  - destruct Hring as (_ & _ & _ & _ & _ & ->). by rewrite decide_True.
  - pose proof (ring_backward _ _ _ Hring) as Hb.
    pose proof Hring as (Hnd & _ & Hre & _ & _ & Hli). simpl in Hli.
    destruct (ring_member _ _ _ Hring (list_elem_of_here h t)) as (Hn & _).
    rewrite Hli. rewrite decide_False by done. simpl backward.
    apply find_loop_spec.
    + by rewrite Hli.
    + rewrite Hli, elem_of_reverse. by apply NoDup_cons in Hnd as [? _].
    + intros q Hq. apply Hre. apply (elem_of_backward (h :: t)). done.
    + simpl. rewrite length_reverse. simpl in Hfuel. lia.
Qed.

Lemma first_match_spec m p ps :
  first_match m p ps = NULL ∧ (∀ q, q ∈ ps → pid_of m q ≠ Some p) ∨
  first_match m p ps ∈ ps ∧ pid_of m (first_match m p ps) = Some p.
Proof.
  induction ps as [|x ps IH]; simpl.
  - left. split; [done|]. intros q Hq. by apply elem_of_nil in Hq.
  - case_decide as Hx.
    + right. split; [by left|done].
    + destruct IH as [[E Hall]|[Hin Hp]].
      * left. split; [done|]. intros q [->|Hq]%elem_of_cons; auto.
      * right. split; [by right|done].
Qed.

(** The loop of [walk]. *)
Lemma walk_spec f m start x rest fuel :
  seg (λ p, f <$> (heap m !! p)) (x :: rest) start →
  start ∉ rest →
  (∀ q, q ∈ x :: rest → q ∉ released m) →
  (length (x :: rest) ≤ fuel)%nat →
  walk mode f fuel start x m = Ok (x :: rest).
Proof.
  revert x fuel. induction rest as [|y rest IH]; intros x fuel Hseg Hh Hrel Hfuel.
  - destruct fuel as [|fuel]; [simpl in Hfuel; lia|].
    destruct Hseg as [Hx _]. apply view_lookup in Hx as (st & Hst & Hp). simpl in Hp.
    cbn [walk]. rewrite (load_live mode x st); [|done|apply Hrel; by left].
    cbn [bind]. by rewrite decide_True.
  - destruct fuel as [|fuel]; [simpl in Hfuel; lia|].
    destruct Hseg as [Hx Hseg]. apply view_lookup in Hx as (st & Hst & Hp). simpl in Hp.
    cbn [walk]. rewrite (load_live mode x st); [|done|apply Hrel; by left].
    cbn [bind]. rewrite Hp. rewrite decide_False.
    + rewrite IH; try done.
      * intros H. apply Hh. by right.
      * intros q Hq. apply Hrel. by right.
      * simpl in *. lia.
    + intros E. apply Hh. rewrite <- E. by left.
Qed.

End Traversal.

(** ** Removal *)

Section Removal.
Context (mode : uaf_mode).

Lemma kfree_live p st m :
  p ≠ NULL → heap m !! p = Some st → p ∉ released m →
  kfree p m = Ok (with_released ({[p]} ∪ released m) m).
Proof.
  intros Hn Hst Hr. unfold kfree. rewrite decide_False by done. rewrite Hst.
  by rewrite decide_False.
Qed.

(** The two link assignments of [remove_lbr_state], on any three live
    blocks. *)
Lemma unlink_stores m e est pst nst :
  heap m !! e = Some est → heap m !! prev est = Some pst → heap m !! next est = Some nst →
  e ∉ released m → prev est ∉ released m → next est ∉ released m →
  ∃ m3,
    (do o <- load mode e m;
     do m2 <- store mode (prev o) (with_next (next o)) m;
     do o' <- load mode e m2;
     store mode (next o') (with_prev (prev o')) m2) = Ok m3 ∧
    lbr_state_list m3 = lbr_state_list m ∧ links_only m m3 ∧
    (∀ q, nxt m3 q = if decide (q = prev est) then Some (next est) else nxt m q) ∧
    (∀ q, prv m3 q = if decide (q = next est) then Some (prev est) else prv m q).
Proof.
  intros He Hp Hn Hre Hrp Hrn.
  rewrite (load_live mode e est) by done. cbn [bind].
  rewrite (store_live mode _ _ pst) by done. cbn [bind].
  set (m2 := with_heap _ m).
  assert (∃ o', heap m2 !! e = Some o' ∧ prev o' = prev est ∧ next o' = next est)
    as (o' & Ho' & Hpo & Hno).
  { subst m2. simpl. rewrite lookup_insert. case_decide as E.
    - rewrite E, He in Hp. injection Hp as <-. eexists. split; [done|]. done.
    - eauto. }
  rewrite (load_live mode e o') by done. cbn [bind]. rewrite Hpo, Hno.
  assert (∃ n2, heap m2 !! next est = Some n2 ∧ strip n2 = strip nst ∧
                next n2 = if decide (prev est = next est) then next est else next nst)
    as (n2 & Hn2 & Hsn & Hnn).
  { subst m2. simpl. rewrite lookup_insert. case_decide as E.
    - rewrite E, Hn in Hp. injection Hp as <-. eexists. split; [done|]. done.
    - eauto. }
  rewrite (store_live mode _ _ n2) by done.
  eexists. split; [done|]. clear Ho' Hn2. subst m2. simpl.
  split; [done|]. split; [|split].
  - repeat split; try done. intros q. unfold payload. simpl.
    destruct (decide (q = next est)) as [->|Hq1].
    { rewrite lookup_insert_eq, Hn. simpl. by f_equal. }
    rewrite lookup_insert_ne by done.
    destruct (decide (q = prev est)) as [->|Hq2].
    { rewrite lookup_insert_eq, Hp. done. }
    by rewrite lookup_insert_ne.
  - intros q. unfold nxt. simpl.
    destruct (decide (q = next est)) as [->|Hq1].
    { rewrite lookup_insert_eq. simpl. rewrite Hnn.
      destruct (decide (prev est = next est)) as [E|E].
      - by rewrite decide_True.
      - rewrite decide_False by done. by rewrite Hn. }
    rewrite lookup_insert_ne by done.
    destruct (decide (q = prev est)) as [->|Hq2].
    { by rewrite lookup_insert_eq. }
    by rewrite lookup_insert_ne.
  - intros q. unfold prv. simpl.
    destruct (decide (q = next est)) as [->|Hq1].
    { by rewrite lookup_insert_eq. }
    rewrite lookup_insert_ne by done.
    destruct (decide (q = prev est)) as [->|Hq2].
    { rewrite lookup_insert_eq, Hp. done. }
    by rewrite lookup_insert_ne.
Qed.


Lemma hd_reverse_cons (d r : Z) R : hd d (reverse (r :: R)) = hd r (reverse R).
Proof. rewrite reverse_cons. by destruct (reverse R). Qed.

Lemma cyc_head m e R :
  cyc m (e :: R) →
  nxt m e = Some (hd e R) ∧ seg (nxt m) R e ∧
  prv m e = Some (hd e (reverse R)) ∧ seg (prv m) (reverse R) e.
Proof.
  intros Hc. assert (Hr : ring (with_list e m) (e :: R)) by (by apply ring_cyc).
  destruct (ring_head_next _ _ _ Hr) as [? ?].
  destruct (ring_head_prev _ _ _ Hr) as [? ?]. done.
Qed.

Lemma cyc_member m l p :
  cyc m l → p ∈ l → p ≠ NULL ∧ (p ∉ released m) ∧ ∃ st, heap m !! p = Some st.
Proof.
  intros Hc Hp. apply (ring_member (with_list (hd NULL l) m) l p); [|done].
  by apply ring_cyc.
Qed.

(** Taking the first member out of a cycle. *)
Lemma unlink_cyc m m3 e R :
  cyc m (e :: R) → released m3 = released m →
  (∀ q, nxt m3 q = if decide (q = hd e (reverse R)) then Some (hd e R) else nxt m q) →
  (∀ q, prv m3 q = if decide (q = hd e R) then Some (hd e (reverse R)) else prv m q) →
  cyc m3 R.
Proof.
  intros Hc Hrel Hn Hp.
  destruct (cyc_head _ _ _ Hc) as (_ & Hsn & _ & Hsp).
  destruct Hc as (Hnd & Hnn & Hre & _ & _).
  apply NoDup_cons in Hnd as [HeR Hnd].
  destruct R as [|r R'].
  { unfold cyc. split_and!; try done.
    - apply not_elem_of_nil.
    - intros p Hp'. by apply elem_of_nil in Hp'. }
  rewrite hd_reverse_cons in Hn, Hp. simpl hd in Hn, Hp.
  unfold cyc. split_and!; try done.
  - intros H. apply Hnn. by right.
  - intros p Hp'. rewrite Hrel. apply Hre. by right.
  - unfold cseg. simpl hd.
    destruct (snoc_last r R') as (R0 & E). rewrite E in Hsn, Hnd |- *.
    apply NoDup_app in Hnd as (_ & Hnd & _).
    eapply seg_retarget; [| exact Hsn | |].
    + intros Hin. eapply Hnd; [done|]. by left.
    + intros y Hy. rewrite Hn. rewrite decide_False; [done|].
      intros ->. eapply Hnd; [done|]. by left.
    + rewrite Hn. by rewrite decide_True.
  - unfold cseg. rewrite hd_reverse_cons with (d := NULL).
    rewrite reverse_cons in Hsp |- *. apply NoDup_cons in Hnd as [Hr Hnd].
    eapply seg_retarget; [| exact Hsp | |].
    + by rewrite elem_of_reverse.
    + intros y Hy. rewrite elem_of_reverse in Hy. rewrite Hp.
      rewrite decide_False; [done|]. by intros ->.
    + rewrite Hp. by rewrite decide_True.
Qed.

(** The statements before the loop take [e] out of the ring and leave
    the other members in their order. *)
Lemma unlink_ring m l1 e l2 :
  ring m (l1 ++ e :: l2) →
  ∃ m3, unlink mode e m = Ok m3 ∧ ring m3 (l1 ++ l2) ∧ links_only m m3.
Proof.
  intros Hring. apply ring_cyc in Hring as [Hc Hli].
  assert (Hc' : cyc m (e :: l2 ++ l1)) by (by apply (cyc_rotate m l1 (e :: l2))).
  destruct (cyc_head _ _ _ Hc') as (Hen & _ & Hep & _).
  assert (Hein : e ∈ e :: l2 ++ l1) by (by left).
  destruct (cyc_member _ _ _ Hc' Hein) as (Henull & Her & est & Hest).
  assert (Hnext : next est = hd e (l2 ++ l1)).
  { unfold nxt in Hen. rewrite Hest in Hen. simpl in Hen. congruence. }
  assert (Hprev : prev est = hd e (reverse (l2 ++ l1))).
  { unfold prv in Hep. rewrite Hest in Hep. simpl in Hep. congruence. }
  assert (Hnin : next est ∈ e :: l2 ++ l1).
  { rewrite Hnext. destruct (l2 ++ l1); simpl; [by left|]. right. by left. }
  assert (Hpin : prev est ∈ e :: l2 ++ l1).
  { rewrite Hprev. apply hd_reverse_in. }
  destruct (cyc_member _ _ _ Hc' Hnin) as (_ & Hnr & nst & Hnst).
  destruct (cyc_member _ _ _ Hc' Hpin) as (_ & Hpr & pst & Hpst).
  assert (Hnd : NoDup (e :: l2 ++ l1)) by (by destruct Hc').
  apply NoDup_cons in Hnd as [HeR HndR].
  (* the anchor *)
  assert (∃ m1, (if decide (lbr_state_list m = e) then
                   do h <- load mode (lbr_state_list m) m;
                   Ok (with_list (if decide (next h = lbr_state_list m) then NULL else next h) m)
                 else Ok m) = Ok m1 ∧
                heap m1 = heap m ∧ released m1 = released m ∧ msr m1 = msr m ∧
                lbr_capacity m1 = lbr_capacity m ∧ preempt_count m1 = preempt_count m ∧
                lbr_state_list m1 = hd NULL (l1 ++ l2)) as (m1 & Hm1 & Hh1 & Hr1 & Hmsr1 & Hcap1 & Hpc1 & Hl1).
  { destruct l1 as [|h l1'].
    - simpl in Hli. rewrite Hli. rewrite decide_True by done.
      rewrite (load_live mode e est) by done. cbn [bind].
      eexists. split; [done|]. repeat split; try done. simpl.
      rewrite Hnext. rewrite app_nil_r in *. destruct l2 as [|y l2']; simpl.
      + by rewrite decide_True.
      + rewrite decide_False; [done|]. intros ->. apply HeR. by left.
    - simpl in Hli. rewrite Hli. rewrite decide_False.
      + exists m. done.
      + intros ->. destruct Hc as (Hnd & _). simpl in Hnd.
        apply NoDup_cons in Hnd as [Hnd _]. apply Hnd. apply elem_of_app. right. by left. }
  destruct (unlink_stores m1 e est pst nst) as (m3 & Hm3 & Hl3 & Hlo3 & Hn3 & Hp3);
    try (rewrite ?Hh1, ?Hr1; done).
  exists m3. split.
  { unfold unlink. rewrite Hm1. cbn [bind]. exact Hm3. }
  assert (Hlo : links_only m m3).
  { destruct Hlo3 as (Ha & Hb & Hc3 & Hd & He3). repeat split; try congruence.
    intros q. rewrite He3. unfold payload. by rewrite Hh1. }
  split; [|done]. apply ring_cyc. split; [|congruence].
  apply (cyc_rotate m3 l2 l1). apply (unlink_cyc m m3 e); try done.
  - by destruct Hlo.
  - intros q. rewrite Hn3, Hprev, Hnext. unfold nxt. by rewrite Hh1.
  - intros q. rewrite Hp3, Hprev, Hnext. unfold prv. by rewrite Hh1.
Qed.


Lemma remove_lbr_state_eq fuel e m :
  remove_lbr_state mode (S fuel) e m =
  if decide (e = NULL) then Ok m
  else if decide (lbr_state_list m = NULL) then Ok m
  else
    do m3 <- unlink mode e m;
    do m4 <- (if decide (lbr_state_list m3 = NULL) then Ok m3
              else remove_children mode fuel e (lbr_state_list m3) m3);
    kfree e m4.
Proof.
  cbn [remove_lbr_state]. repeat case_decide; try done; unfold unlink.
  - rewrite decide_True by done.
    repeat (match goal with
            | |- context [bind ?c _] => destruct c; cbn [bind]; try done
            end).
  - rewrite decide_False by done. cbn [bind].
    repeat (match goal with
            | |- context [bind ?c _] => destruct c; cbn [bind]; try done
            end).
Qed.

Lemma remove_children_eq fuel e tmp m :
  remove_children mode (S fuel) e tmp m =
  do t <- load mode tmp m;
  do m1 <- (if decide (parent t = e) then remove_lbr_state mode fuel tmp m else Ok m);
  do t' <- load mode tmp m1;
  if decide (prev t' = lbr_state_list m1) then Ok m1
  else remove_children mode fuel e (prev t') m1.
Proof. destruct fuel; reflexivity. Qed.

(** Without a child of [e] among the members the loop changes nothing. *)
Lemma scan_noop m e x rest fuel :
  seg (prv m) (x :: rest) (lbr_state_list m) →
  lbr_state_list m ∉ rest →
  (∀ q, q ∈ x :: rest → q ∉ released m) →
  (∀ q, q ∈ x :: rest → par m q ≠ Some e) →
  (length (x :: rest) ≤ fuel)%nat →
  remove_children mode fuel e x m = Ok m.
Proof.
  revert x fuel. induction rest as [|y rest IH]; intros x fuel Hseg Hh Hrel Hpar Hfuel;
    (destruct fuel as [|fuel]; [simpl in Hfuel; lia|]);
    destruct Hseg as [Hx Hseg]; apply view_lookup in Hx as (st & Hst & Hp); simpl in Hp;
    rewrite remove_children_eq;
    (rewrite (load_live mode x st); [|done|apply Hrel; by left]); cbn [bind];
    (rewrite decide_False;
      [|intros E; apply (Hpar x); [by left|]; unfold par; rewrite Hst; simpl; congruence]);
    cbn [bind];
    (rewrite (load_live mode x st); [|done|apply Hrel; by left]); cbn [bind]; rewrite Hp.
  - by rewrite decide_True.
  - rewrite decide_False.
    + apply IH; try done.
      * intros H. apply Hh. by right.
      * intros q Hq. apply Hrel. by right.
      * intros q Hq. apply Hpar. by right.
      * simpl in *. lia.
    + intros E. apply Hh. rewrite <- E. by left.
Qed.

Lemma links_only_par m m' q : same_data m m' → par m' q = par m q.
Proof.
  intros (_ & _ & _ & Hp). specialize (Hp q). unfold payload, par in *.
  destruct (heap m' !! q) as [s'|], (heap m !! q) as [s|]; simpl in *; try done.
  injection Hp; intros; congruence.
Qed.

Lemma same_data_lookup m m' q : same_data m m' → is_Some (heap m' !! q) ↔ is_Some (heap m !! q).
Proof.
  intros (_ & _ & _ & Hp). specialize (Hp q). unfold payload in *.
  destruct (heap m' !! q) as [s'|], (heap m !! q) as [s|]; simpl in *; try done.
Qed.

(** Removing a member that no other member names as its parent:
    exactly that block is released and the others keep their order. *)
Lemma remove_nochild m l1 e l2 fuel :
  ring m (l1 ++ e :: l2) →
  (∀ q, q ∈ l1 ++ l2 → par m q ≠ Some e) →
  (length (l1 ++ e :: l2) ≤ fuel)%nat →
  ∃ m', remove_lbr_state mode fuel e m = Ok m' ∧ ring m' (l1 ++ l2) ∧
        released m' = {[e]} ∪ released m ∧ same_data m m'.
Proof.
  intros Hring Hpar Hfuel.
  destruct fuel as [|fuel]; [rewrite length_app in Hfuel; simpl in Hfuel; lia|].
  assert (Hein : e ∈ l1 ++ e :: l2) by (apply elem_of_app; right; by left).
  destruct (ring_member _ _ _ Hring Hein) as (Hen & Her & est & Hest).
  assert (Hhd : lbr_state_list m ≠ NULL).
  { pose proof Hring as (_ & Hnn & _ & _ & _ & ->). intros E. apply Hnn. rewrite <- E.
    destruct l1; simpl; by left. }
  destruct (unlink_ring _ _ _ _ Hring) as (m3 & Hun & Hr3 & Hlo3).
  rewrite remove_lbr_state_eq. rewrite !decide_False by done. rewrite Hun. cbn [bind].
  destruct Hlo3 as (Hrel3 & Hsd3).
  assert (Hscan : (if decide (lbr_state_list m3 = NULL) then Ok m3
                   else remove_children mode fuel e (lbr_state_list m3) m3) = Ok m3).
  { case_decide as Hl3; [done|].
    destruct (l1 ++ l2) as [|h t] eqn:El.
    { destruct Hr3 as (_ & _ & _ & _ & _ & E). done. }
    pose proof (ring_backward _ _ _ Hr3) as Hb.
    pose proof Hr3 as (Hnd & _ & Hre & _ & _ & Hli). simpl in Hli. rewrite Hli.
    apply (scan_noop m3 e h (reverse t)).
    - by rewrite Hli.
    - rewrite Hli, elem_of_reverse. by apply NoDup_cons in Hnd as [? _].
    - intros q Hq. apply Hre. by apply (elem_of_backward (h :: t)).
    - intros q Hq. rewrite (links_only_par m m3) by done. apply Hpar.
      by apply (elem_of_backward (h :: t)).
    - simpl. rewrite length_reverse.
      assert (length (l1 ++ e :: l2) = S (length (h :: t))).
      { rewrite <- El. rewrite !length_app. simpl. lia. }
      simpl in *. lia. }
  rewrite Hscan. cbn [bind].
  assert (is_Some (heap m3 !! e)) as [est3 Hest3].
  { apply (same_data_lookup m m3); [done|]. eauto. }
  rewrite (kfree_live e est3) by (rewrite ?Hrel3; done).
  eexists. split; [done|]. split; [|split].
  - pose proof Hr3 as (Hnd & Hnn & Hre & Hcn & Hcp & Hli).
    unfold ring. split_and!; try done. simpl. intros p Hp Hin.
    apply elem_of_union in Hin as [Hin|Hin]; [|by apply (Hre p)].
    apply elem_of_singleton in Hin. subst p.
    pose proof Hring as (Hnd0 & _). apply NoDup_app in Hnd0 as (_ & Hd1 & Hd2).
    apply NoDup_cons in Hd2 as [Hd2 _].
    apply elem_of_app in Hp as [Hp|Hp]; [|done]. apply (Hd1 e Hp). by left.
  - simpl. by rewrite Hrel3.
  - destruct Hsd3 as (? & ? & ? & ?). by repeat split.
Qed.

End Removal.

(** ** The cascade and the teardown loop *)

Section Cascade.

(** When [remove_lbr_state] returns from a non-empty store, its
    argument has been released. *)
Lemma remove_releases mode fuel e m m' :
  remove_lbr_state mode fuel e m = Ok m' →
  e ≠ NULL → lbr_state_list m ≠ NULL → e ∈ released m'.
Proof.
  intros Hrun Hn Hl. destruct fuel as [|fuel]; [done|].
  rewrite remove_lbr_state_eq in Hrun. rewrite !decide_False in Hrun by done.
  destruct (unlink mode e m) as [m3| |]; cbn [bind] in Hrun; try done.
  match type of Hrun with bind ?c _ = _ => destruct c as [m4| |] end;
    cbn [bind] in Hrun; try done.
  unfold kfree in Hrun. rewrite decide_False in Hrun by done.
  destruct (heap m4 !! e); [|done]. case_decide; [done|].
  injection Hrun as <-. simpl. set_solver.
Qed.

(** The loop reads [tmp->prev] after the recursive call released
    [tmp]: with a child among the members it cannot complete. *)
Lemma scan_child_traps m e x rest fuel :
  seg (prv m) (x :: rest) (lbr_state_list m) →
  lbr_state_list m ∉ rest → lbr_state_list m ≠ NULL → NULL ∉ x :: rest →
  (∀ q, q ∈ x :: rest → q ∉ released m) →
  (∃ c, c ∈ x :: rest ∧ par m c = Some e) →
  ∀ m', remove_children Trap fuel e x m ≠ Ok m'.
Proof.
  revert x fuel. induction rest as [|y rest IH];
    intros x fuel Hseg Hh Hl Hnull Hrel (c & Hc & Hpc) m';
    (destruct fuel as [|fuel]; [done|]);
    destruct Hseg as [Hx Hseg]; apply view_lookup in Hx as (st & Hst & Hp); simpl in Hp;
    rewrite remove_children_eq;
    (rewrite (load_live Trap x st); [|done|apply Hrel; by left]); cbn [bind].
  - apply list_elem_of_singleton in Hc. subst c.
    unfold par in Hpc. rewrite Hst in Hpc. simpl in Hpc. injection Hpc as Hpc.
    rewrite decide_True by done.
    destruct (remove_lbr_state Trap fuel x m) as [m1| |] eqn:Hrun; cbn [bind]; try done.
    apply remove_releases in Hrun; [|intros ->; apply Hnull; by left|done].
    destruct (load_released x m1 Hrun) as (f & ->). done.
  - destruct (decide (parent st = e)) as [Hpe|Hpe].
    + destruct (remove_lbr_state Trap fuel x m) as [m1| |] eqn:Hrun; cbn [bind]; try done.
      apply remove_releases in Hrun; [|intros ->; apply Hnull; by left|done].
      destruct (load_released x m1 Hrun) as (f & ->). done.
    + cbn [bind]. rewrite (load_live Trap x st); [|done|apply Hrel; by left]. cbn [bind].
      rewrite Hp. simpl hd. rewrite decide_False.
      * apply IH; try done.
        -- intros H. apply Hh. by right.
        -- intros H. apply Hnull. by right.
        -- intros q Hq. apply Hrel. by right.
        -- exists c. split; [|done]. apply elem_of_cons in Hc as [->|Hc]; [|done].
           unfold par in Hpc. rewrite Hst in Hpc. simpl in Hpc. congruence.
      * intros E. apply Hh. rewrite <- E. by left.
Qed.

(** Removing a member that has a child among the other members does
    not return: the model stops at a read of a released block or runs
    out of fuel, whatever the fuel. *)
Lemma cascade_traps m l1 e l2 fuel :
  ring m (l1 ++ e :: l2) →
  (∃ c, c ∈ l1 ++ l2 ∧ par m c = Some e) →
  ∀ m', remove_lbr_state Trap fuel e m ≠ Ok m'.
Proof.
  intros Hring (c & Hc & Hpc) m'. destruct fuel as [|fuel]; [done|].
  assert (Hein : e ∈ l1 ++ e :: l2) by (apply elem_of_app; right; by left).
  destruct (ring_member _ _ _ Hring Hein) as (Hen & Her & est & Hest).
  assert (Hhd : lbr_state_list m ≠ NULL).
  { pose proof Hring as (_ & Hnn & _ & _ & _ & ->). intros E. apply Hnn. rewrite <- E.
    destruct l1; simpl; by left. }
  destruct (unlink_ring Trap _ _ _ _ Hring) as (m3 & Hun & Hr3 & Hrel3 & Hsd3).
  rewrite remove_lbr_state_eq. rewrite !decide_False by done. rewrite Hun. cbn [bind].
  destruct (l1 ++ l2) as [|h t] eqn:El; [by apply elem_of_nil in Hc|].
  pose proof (ring_backward _ _ _ Hr3) as Hb.
  pose proof Hr3 as (Hnd & Hnn & Hre & _ & _ & Hli). simpl in Hli.
  assert (Hh3 : lbr_state_list m3 ≠ NULL).
  { rewrite Hli. intros ->. apply Hnn. by left. }
  rewrite decide_False by done.
  destruct (remove_children Trap fuel e (lbr_state_list m3) m3) as [m4| |] eqn:Hscan;
    cbn [bind]; try done.
  exfalso. revert Hscan. rewrite Hli. apply (scan_child_traps m3 e h (reverse t)).
  - by rewrite Hli.
  - rewrite Hli, elem_of_reverse. by apply NoDup_cons in Hnd as [? _].
  - done.
  - intros H. apply Hnn. by apply (elem_of_backward (h :: t)).
  - intros q Hq. apply Hre. by apply (elem_of_backward (h :: t)).
  - exists c. split; [by apply (elem_of_backward (h :: t))|].
    by rewrite (links_only_par m m3).
Qed.

(** The teardown loop releases a block and then reads its [prev]. *)
Lemma exit_traps m h t fuel :
  ring m (h :: t) → libiht_lkm_exit Trap (S fuel) m = Fault (UseAfterFree h).
Proof.
  intros Hring.
  destruct (ring_member _ _ _ Hring (list_elem_of_here h t)) as (Hn & Hr & st & Hst).
  destruct Hring as (_ & _ & _ & _ & _ & Hli). simpl in Hli.
  unfold libiht_lkm_exit. rewrite Hli. rewrite decide_False by done.
  cbn [exit_loop]. rewrite (kfree_live h st) by done. cbn [bind].
  unfold load. simpl. rewrite Hst. rewrite decide_True by set_solver. done.
Qed.

Lemma exit_loop_stale m x rest fuel :
  seg (prv m) (x :: rest) (lbr_state_list m) →
  lbr_state_list m ∉ rest → NULL ∉ x :: rest → NoDup (x :: rest) →
  (∀ q, q ∈ x :: rest → q ∉ released m) →
  (length (x :: rest) ≤ fuel)%nat →
  exit_loop Stale fuel x m =
  Ok (with_released (list_to_set (x :: rest) ∪ released m) m).
Proof.
  revert x fuel m. induction rest as [|y rest IH];
    intros x fuel m Hseg Hh Hnull Hnd Hrel Hfuel;
    (destruct fuel as [|fuel]; [simpl in Hfuel; lia|]);
    destruct Hseg as [Hx Hseg]; apply view_lookup in Hx as (st & Hst & Hp); simpl in Hp;
    cbn [exit_loop];
    (rewrite (kfree_live x st); [|intros ->; apply Hnull; by left|done|apply Hrel; by left]);
    cbn [bind]; unfold load; simpl heap; rewrite Hst; cbn [bind]; rewrite Hp; simpl lbr_state_list.
  - rewrite decide_True by done. do 2 f_equal. unfold with_released. simpl. f_equal. apply set_eq. intros q. set_unfold. tauto.
  - rewrite decide_False.
    + rewrite IH; try done.
      * unfold with_released. simpl. do 2 f_equal. apply set_eq. intros q. set_unfold. tauto.
      * intros H. apply Hh. by right.
      * intros H. apply Hnull. by right.
      * by apply NoDup_cons in Hnd as [_ ?].
      * simpl. intros q Hq Hin. apply elem_of_union in Hin as [Hin|Hin].
        -- apply elem_of_singleton in Hin. subst q. by apply NoDup_cons in Hnd as [? _].
        -- apply (Hrel q); [by right|done].
      * simpl in *. lia.
    + intros E. apply Hh. rewrite <- E. by left.
Qed.

(** If released blocks still hold their contents, the teardown loop
    releases every member once, and nothing else. *)
Lemma exit_stale m l fuel :
  ring m l → (length l ≤ fuel)%nat →
  libiht_lkm_exit Stale fuel m =
  Ok (disable_lbr (with_released (list_to_set l ∪ released m) m)).
Proof.
  intros Hring Hfuel. unfold libiht_lkm_exit. destruct l as [|h t].
  - destruct Hring as (_ & _ & _ & _ & _ & ->). simpl hd. rewrite decide_True by done.
    cbn [bind]. do 2 f_equal. destruct m. unfold with_released. simpl. f_equal. apply set_eq. intros q. set_unfold. tauto.
  - pose proof (ring_backward _ _ _ Hring) as Hb.
    destruct (ring_member _ _ _ Hring (list_elem_of_here h t)) as (Hn & _).
    pose proof Hring as (Hnd & Hnn & Hre & _ & _ & Hli). simpl in Hli.
    rewrite Hli. rewrite decide_False by done.
    rewrite (exit_loop_stale m h (reverse t)).
    + cbn [bind]. do 2 f_equal. unfold with_released. f_equal.
      apply set_eq. intros q. rewrite !elem_of_union, !elem_of_list_to_set.
      rewrite (elem_of_backward (h :: t)). done.
    + by rewrite Hli.
    + rewrite Hli, elem_of_reverse. by apply NoDup_cons in Hnd as [? _].
    + intros H. apply Hnn. by apply (elem_of_backward (h :: t)).
    + by apply (NoDup_backward (h :: t)).
    + intros q Hq. apply Hre. by apply (elem_of_backward (h :: t)).
    + simpl. rewrite length_reverse. simpl in Hfuel. lia.
Qed.

End Cascade.

(** ** Sequences of store operations *)

Section Sequences.
Context (mode : uaf_mode).

Lemma ring_frame m m' l :
  ring m l →
  (∀ p, p ∈ l → heap m' !! p = heap m !! p) →
  (∀ p, p ∈ l → p ∉ released m') →
  lbr_state_list m' = lbr_state_list m →
  ring m' l.
Proof.
  intros (Hnd & Hnn & Hre & Hcn & Hcp & Hli) Hh Hr Hl. unfold ring. split_and!; try done.
  - eapply seg_ext; [|exact Hcn]. intros x Hx. unfold nxt. by rewrite Hh.
  - eapply seg_ext; [|exact Hcp]. intros x Hx. rewrite elem_of_reverse in Hx.
    unfold prv. by rewrite Hh.
  - congruence.
Qed.

Lemma same_data_sized m m' l :
  same_data m m' → snapshots_sized m l → snapshots_sized m' l.
Proof.
  intros (_ & Hcap & _ & Hpl) Hsz p st' Hp Hst'. rewrite Hcap.
  specialize (Hpl p). unfold payload in Hpl. rewrite Hst' in Hpl.
  destruct (heap m !! p) as [st|] eqn:Hst; simpl in Hpl; [|done].
  rewrite <- (Hsz p st Hp Hst). injection Hpl; intros; congruence.
Qed.

Lemma tracks_booted cap : tracks (booted cap) [].
Proof.
  split; [|split; [constructor|]].
  - unfold ring. simpl. split_and!; try done.
    + constructor.
    + apply not_elem_of_nil.
    + intros p Hp. by apply elem_of_nil in Hp.
  - intros p st Hp. by apply elem_of_nil in Hp.
Qed.

Lemma insert_tracks m l a p q fuel :
  tracks m l → a ≠ NULL → a ∉ l.*1 →
  ∃ m', run_op mode fuel (Insert a p q) m = Ok m' ∧ tracks m' (l ++ [(a, q)]) ∧
        pid_of m' a = Some p ∧ msr m' = msr m ∧ lbr_capacity m' = lbr_capacity m.
Proof.
  intros (Hring & Hpar & Hsz) Hn Ha. unfold run_op, create_lbr_state.
  rewrite decide_False by done.
  set (m0 := with_released _ _).
  assert (H0 : heap m0 !! a = Some (zero_state (lbr_capacity m))).
  { subst m0. simpl. by rewrite lookup_insert_eq. }
  assert (Hr0 : a ∉ released m0).
  { subst m0. simpl. set_unfold. tauto. }
  rewrite (store_live mode a _ _ m0 H0 Hr0). cbn [bind].
  set (m1 := with_heap _ m0).
  assert (H1 : heap m1 !! a = Some (with_pid p (zero_state (lbr_capacity m)))).
  { subst m1. simpl. by rewrite lookup_insert_eq. }
  rewrite (store_live mode a _ _ m1 H1 Hr0). cbn [bind].
  set (m2 := with_heap _ m1).
  assert (H2 : heap m2 !! a = Some (with_parent q (with_pid p (zero_state (lbr_capacity m))))).
  { subst m2. simpl. by rewrite lookup_insert_eq. }
  assert (Hoth : ∀ x, x ≠ a → heap m2 !! x = heap m !! x).
  { intros x Hx. subst m2 m1 m0. simpl. by rewrite !lookup_insert_ne. }
  assert (Hring2 : ring m2 (l.*1)).
  { apply (ring_frame m); try done.
    - intros x Hx. apply Hoth. by intros ->.
    - intros x Hx. subst m2 m1 m0. simpl. destruct Hring as (_ & _ & Hre & _).
      specialize (Hre x Hx). set_unfold. tauto. }
  destruct (insert_ring mode m2 (l.*1) a _ Hring2 Hn Ha H2 Hr0) as (m' & Hrun & Hring' & Hrel' & Hsd').
  exists m'. split; [done|]. split; [|split; [|split]].
  - split; [|split].
    + by rewrite fmap_app.
    + apply Forall_app. split.
      * rewrite Forall_forall in Hpar |- *. intros [x px] Hin. simpl.
        rewrite (links_only_par m2 m') by done. unfold par. rewrite Hoth.
        -- by apply (Hpar (x, px)).
        -- intros ->. apply Ha. apply list_elem_of_fmap. by exists (a, px).
      * constructor; [|constructor]. simpl.
        rewrite (links_only_par m2 m') by done. unfold par. by rewrite H2.
    + apply (same_data_sized m2 m'); [done|]. rewrite fmap_app. simpl.
      intros x st Hx Hst. destruct (decide (x = a)) as [->|Hxa].
      * rewrite H2 in Hst. injection Hst as <-. simpl. by rewrite length_replicate.
      * rewrite Hoth in Hst by done. apply (Hsz x st); [|done].
        apply elem_of_app in Hx as [Hx|Hx]; [done|].
        apply list_elem_of_singleton in Hx. done.
  - destruct Hsd' as (_ & _ & _ & Hpl). specialize (Hpl a). unfold payload, pid_of in *.
    rewrite H2 in Hpl. destruct (heap m' !! a); simpl in *; [|done].
    injection Hpl; intros; congruence.
  - by destruct Hsd' as (-> & _).
  - by destruct Hsd' as (_ & -> & _).
Qed.


Lemma filter_fst_ne (e : Z) (l : list (Z * Z)) :
  e ∉ l.*1 → remove_entry e l = l.
Proof.
  unfold remove_entry. induction l as [|[x px] l IH]; [done|]. simpl. intros He.
  rewrite filter_cons_True.
  - f_equal. apply IH. intros H. apply He. by right.
  - simpl. intros ->. apply He. by left.
Qed.

Lemma remove_entry_split (e pe : Z) (la lb : list (Z * Z)) :
  NoDup ((la ++ (e, pe) :: lb).*1) →
  remove_entry e (la ++ (e, pe) :: lb) = la ++ lb.
Proof.
  rewrite fmap_app, fmap_cons. simpl. intros Hnd.
  apply NoDup_app in Hnd as (_ & Hd1 & Hd2). apply NoDup_cons in Hd2 as [Hd2 _].
  unfold remove_entry. rewrite filter_app, filter_cons_False by (simpl; tauto).
  fold (remove_entry e la). fold (remove_entry e lb).
  rewrite !filter_fst_ne; try done. intros H. apply (Hd1 e H). by left.
Qed.

Lemma remove_tracks m l e fuel :
  tracks m l → e ∈ l.*1 → e ∉ l.*2 → (length l ≤ fuel)%nat →
  ∃ m', run_op mode fuel (Remove e) m = Ok m' ∧ tracks m' (remove_entry e l) ∧
        released m' = {[e]} ∪ released m ∧ same_data m m'.
Proof.
  intros (Hring & Hpar & Hsz) He Hch Hfuel.
  apply list_elem_of_fmap in He as ([e' pe] & E & Hin). simpl in E. subst e'.
  apply list_elem_of_split in Hin as (la & lb & ->).
  pose proof Hring as (Hnd & _).
  rewrite remove_entry_split by done.
  rewrite fmap_app, fmap_cons in Hring. simpl in Hring.
  destruct (remove_nochild mode m (la.*1) e (lb.*1) fuel Hring) as (m' & Hrun & Hring' & Hrel & Hsd).
  - intros q Hq Hpq. apply Hch.
    assert (∃ pq, (q, pq) ∈ la ++ (e, pe) :: lb) as (pq & Hqin).
    { rewrite <- fmap_app in Hq. apply list_elem_of_fmap in Hq as ([q' pq] & E & Hq).
      simpl in E. subst q'. exists pq. rewrite elem_of_app in *. rewrite elem_of_cons. tauto. }
    rewrite Forall_forall in Hpar. specialize (Hpar _ Hqin). simpl in Hpar.
    apply list_elem_of_fmap. exists (q, pq). split; [|done]. simpl. congruence.
  - rewrite length_app. simpl. rewrite !length_fmap. rewrite length_app in Hfuel. simpl in Hfuel. lia.
  - exists m'. split; [done|]. split; [|done]. split; [|split].
    + by rewrite fmap_app.
    + rewrite Forall_forall in Hpar |- *. intros x Hx.
      rewrite (links_only_par m m') by done. apply Hpar.
      rewrite elem_of_app in *. rewrite elem_of_cons. tauto.
    + apply (same_data_sized m m'); [done|]. intros x st Hx.
      apply Hsz. rewrite !fmap_app, fmap_cons in *.
      rewrite elem_of_app in *. rewrite elem_of_cons. tauto.
Qed.

Lemma entries_after_length l os :
  (length (entries_after l os) ≤ length l + length os)%nat.
Proof.
  revert l. induction os as [|[a p q|e] os IH]; intros l; simpl; [lia| |].
  - etrans; [apply IH|]. rewrite length_app. simpl. lia.
  - etrans; [apply IH|]. unfold remove_entry.
    pose proof (length_filter (λ x : Z * Z, x.1 ≠ e) l). lia.
Qed.

(** Any sequence of insertions of new entries and removals of members
    without children runs to completion and leaves the tracked store. *)
Lemma run_ops_tracks os : ∀ m l fuel,
  tracks m l → valid_ops l os → (length l + length os ≤ fuel)%nat →
  ∃ m', run_ops mode fuel os m = Ok m' ∧ tracks m' (entries_after l os).
Proof.
  induction os as [|[a p q|e] os IH]; intros m l fuel Htr Hv Hfuel.
  - exists m. done.
  - destruct Hv as (Hn & Ha & Hv).
    destruct (insert_tracks m l a p q fuel Htr Hn Ha) as (m1 & Hrun & Htr1 & _).
    destruct (IH m1 (l ++ [(a, q)]) fuel Htr1 Hv) as (m' & Hrun' & Htr').
    { rewrite length_app. simpl in *. lia. }
    exists m'. split; [|done]. cbn [run_ops]. rewrite Hrun. done.
  - destruct Hv as (He & Hch & Hv).
    destruct (remove_tracks m l e fuel Htr He Hch) as (m1 & Hrun & Htr1 & _).
    { simpl in Hfuel. lia. }
    destruct (IH m1 (remove_entry e l) fuel Htr1 Hv) as (m' & Hrun' & Htr').
    { unfold remove_entry. pose proof (length_filter (λ x : Z * Z, x.1 ≠ e) l).
      simpl in *. lia. }
    exists m'. split; [|done]. cbn [run_ops]. rewrite Hrun. done.
Qed.

(** From any member of a ring, following [next] or [prev] comes back to
    the member after meeting every member once. *)
Lemma ring_walks m l p fuel :
  ring m l → p ∈ l → (length l ≤ fuel)%nat →
  ∃ fw bw, walk mode next fuel p p m = Ok fw ∧ walk mode prev fuel p p m = Ok bw ∧
           fw ≡ₚ l ∧ bw ≡ₚ l.
Proof.
  intros Hring Hp Hfuel. apply list_elem_of_split in Hp as (l1 & l2 & ->).
  apply ring_cyc in Hring as [Hc _].
  assert (Hc' : cyc m (p :: l2 ++ l1)) by (by apply (cyc_rotate m l1 (p :: l2))).
  destruct (cyc_head _ _ _ Hc') as (Hn & Hsn & Hpv & Hsp).
  destruct Hc' as (Hnd & _ & Hre & _).
  assert (Hlen : length (l1 ++ p :: l2) = S (length (l2 ++ l1))).
  { rewrite !length_app. simpl. lia. }
  exists (p :: l2 ++ l1), (p :: reverse (l2 ++ l1)). split_and!.
  - apply walk_spec; try done.
    + by apply NoDup_cons in Hnd as [? _].
    + simpl. lia.
  - apply walk_spec; try done.
    + rewrite elem_of_reverse. by apply NoDup_cons in Hnd as [? _].
    + intros q Hq. apply Hre. rewrite elem_of_cons, elem_of_reverse in Hq.
      by apply elem_of_cons.
    + simpl. rewrite length_reverse. lia.
  - rewrite (Permutation_app_comm l1). simpl. done.
  - rewrite reverse_Permutation. rewrite (Permutation_app_comm l1). simpl. done.
Qed.

End Sequences.

(** ** Saving and restoring the registers *)

Section Registers.
Context (mode : uaf_mode).

Lemma rdmsrl_wrmsrl r r' v m :
  rdmsrl r (wrmsrl r' v m) = if decide (r = r') then v else rdmsrl r m.
Proof.
  unfold rdmsrl, wrmsrl. simpl. rewrite lookup_insert.
  destruct (decide (r' = r)) as [->|H].
  - by rewrite decide_True.
  - by rewrite decide_False.
Qed.

Lemma get_lbr_loop_spec n : ∀ i s m st,
  heap m !! s = Some st → s ∉ released m →
  (i + n = length (entries st))%nat → pairs_of m st i →
  ∃ m' st', get_lbr_loop mode n (Z.of_nat i) s m = Ok m' ∧
    heap m' = <[s := st']> (heap m) ∧ heap_only m m' ∧
    with_entries [] st' = with_entries [] st ∧
    length (entries st') = length (entries st) ∧
    pairs_of m st' (length (entries st')).
Proof.
  induction n as [|n IH]; intros i s m st Hst Hr Hlen Hpairs.
  - exists m, st. cbn [get_lbr_loop]. split_and!; try done.
    + by rewrite insert_id.
    + replace (length (entries st)) with i by lia. done.
  - cbn [get_lbr_loop]. unfold store_from.
    rewrite (load_live mode s st) by done. cbn [bind]. rewrite Nat2Z.id.
    destruct (lookup_lt_is_Some_2 (entries st) i) as [e He]; [lia|]. rewrite He.
    cbn [bind]. set (m1 := with_heap _ m).
    unfold store_to. erewrite (load_live mode s _ m1); [| by subst m1; simpl; rewrite lookup_insert_eq | done].
    cbn [bind]. simpl entries. rewrite Nat2Z.id.
    rewrite list_lookup_insert_eq by lia. simpl from.
    rewrite list_insert_insert_eq.
    set (new := {| from := _; to := _ |}).
    set (st2 := with_entries (<[i := new]> (entries st)) _).
    set (m2 := with_heap _ m1).
    replace (Z.of_nat i + 1) with (Z.of_nat (S i)) by lia.
    destruct (IH (S i) s m2 st2) as (m' & st' & Hrun & Hh & Hho & Hflds & Hl' & Hp').
    + subst m2. simpl. by rewrite lookup_insert_eq.
    + done.
    + subst st2. simpl. rewrite length_insert. lia.
    + intros j e' Hj Hje. subst st2. simpl in Hje.
      destruct (decide (j = i)) as [->|Hji].
      * rewrite list_lookup_insert_eq in Hje by lia. injection Hje as <-. done.
      * rewrite list_lookup_insert_ne in Hje by done. apply Hpairs; [lia|done].
    + exists m', st'. split; [done|]. split_and!.
      * rewrite Hh. subst m2 m1. simpl. by rewrite !insert_insert_eq.
      * done.
      * rewrite Hflds. done.
      * rewrite Hl'. subst st2. simpl. by rewrite length_insert.
      * done.
Qed.

Lemma put_lbr_loop_spec n : ∀ i s m st,
  heap m !! s = Some st → s ∉ released m →
  (i + n ≤ length (entries st))%nat →
  ∃ m', put_lbr_loop mode n (Z.of_nat i) s m = Ok m' ∧ msr_only m m' ∧
    (∀ r, ¬ lbr_pair_msr (Z.of_nat i) (Z.of_nat n) r → rdmsrl r m' = rdmsrl r m) ∧
    (∀ m0 r, pairs_of m0 st (i + n) →
       lbr_pair_msr (Z.of_nat i) (Z.of_nat n) r → rdmsrl r m' = rdmsrl r m0).
Proof.
  induction n as [|n IH]; intros i s m st Hst Hr Hlen.
  - exists m. cbn [put_lbr_loop]. split_and!; try done.
    intros m0 r _ [H|H]; lia.
  - cbn [put_lbr_loop]. unfold load_entry.
    rewrite (load_live mode s st) by done. cbn [bind]. rewrite Nat2Z.id.
    destruct (lookup_lt_is_Some_2 (entries st) i) as [e He]; [lia|]. rewrite He.
    cbn [bind]. rewrite (load_live mode s st) by done. cbn [bind]. rewrite He. cbn [bind].
    set (m2 := wrmsrl _ _ (wrmsrl _ _ m)).
    replace (Z.of_nat i + 1) with (Z.of_nat (S i)) by lia.
    destruct (IH (S i) s m2 st) as (m' & Hrun & Hmo & Hout & Hin); try done.
    + lia.
    + exists m'. split; [done|]. split; [|split].
      * destruct Hmo as (? & ? & ? & ? & ?). done.
      * intros r Hrng. rewrite Hout.
        -- subst m2. rewrite !rdmsrl_wrmsrl. unfold lbr_pair_msr in *.
           repeat case_decide; subst; try done; lia.
        -- unfold lbr_pair_msr in *. lia.
      * intros m0 r Hpairs Hrng.
        destruct (Hpairs i e) as [Hf Ht]; [lia|done|].
        destruct (decide (lbr_pair_msr (Z.of_nat (S i)) (Z.of_nat n) r)) as [H|H].
        { apply Hin; [|done]. by replace (S i + n)%nat with (i + S n)%nat by lia. }
        rewrite Hout by done. subst m2. rewrite !rdmsrl_wrmsrl.
        unfold lbr_pair_msr in *.
        repeat case_decide; subst; try done; lia.
Qed.


Lemma first_match_ext m m' p ps :
  (∀ q, q ∈ ps → pid_of m' q = pid_of m q) →
  first_match m' p ps = first_match m p ps.
Proof.
  induction ps as [|x ps IH]; [done|]. intros H. simpl.
  rewrite (H x) by (by left). rewrite IH; [done|]. intros q Hq. apply H. by right.
Qed.

Lemma first_match_member m p ps :
  first_match m p ps ≠ NULL →
  first_match m p ps ∈ ps ∧ pid_of m (first_match m p ps) = Some p.
Proof. intros H. by destruct (first_match_spec m p ps) as [[? _]|?]. Qed.

(** Rewriting the payload of a member keeps the ring. *)
Lemma ring_update m m' l s st st' :
  ring m l → heap m !! s = Some st → heap m' = <[s := st']> (heap m) →
  prev st' = prev st → next st' = next st →
  released m' = released m → lbr_state_list m' = lbr_state_list m →
  ring m' l.
Proof.
  intros (Hnd & Hnn & Hre & Hcn & Hcp & Hli) Hst Hh Hp Hn Hr Hl.
  assert (Hnx : ∀ q, nxt m' q = nxt m q).
  { intros q. unfold nxt. rewrite Hh, lookup_insert. case_decide; [|done].
    subst q. rewrite Hst. simpl. by f_equal. }
  assert (Hpv : ∀ q, prv m' q = prv m q).
  { intros q. unfold prv. rewrite Hh, lookup_insert. case_decide; [|done].
    subst q. rewrite Hst. simpl. by f_equal. }
  unfold ring. split_and!; try done.
  - intros q Hq. rewrite Hr. by apply Hre.
  - eapply seg_ext; [|exact Hcn]. done.
  - eapply seg_ext; [|exact Hcp]. done.
  - congruence.
Qed.

(** [get_lbr] on a traced process id copies the registers into the
    entry [find_lbr_state] returns, and touches nothing else. *)
Lemma get_lbr_spec m l p fuel :
  ring m l → snapshots_sized m l → (length l ≤ fuel)%nat →
  first_match m p (backward l) ≠ NULL →
  ∃ m' st st', get_lbr mode fuel p m = Ok m' ∧
    heap m !! first_match m p (backward l) = Some st ∧
    heap m' = <[first_match m p (backward l) := st']> (heap m) ∧ heap_only m m' ∧
    pid st' = pid st ∧ prev st' = prev st ∧ next st' = next st ∧ parent st' = parent st ∧
    length (entries st') = Z.to_nat (lbr_capacity m) ∧ snapshot_of m st'.
Proof.
  intros Hring Hsz Hfuel Hs. set (s := first_match m p (backward l)) in *.
  destruct (first_match_member _ _ _ Hs) as [Hin _]. fold s in Hin.
  rewrite elem_of_backward in Hin.
  destruct (ring_member _ _ _ Hring Hin) as (_ & Hr & st & Hst).
  unfold get_lbr. rewrite (find_spec mode m l p fuel) by done. fold s. cbn [bind].
  rewrite decide_False by done.
  rewrite (store_live mode s _ st) by done. cbn [bind].
  set (m1 := with_heap _ m).
  erewrite (store_live mode s _ _ m1); [| by subst m1; simpl; rewrite lookup_insert_eq | done].
  cbn [bind]. set (st2 := with_lbr_tos _ _). set (m2 := with_heap _ m1).
  destruct (get_lbr_loop_spec (Z.to_nat (lbr_capacity m)) 0%nat s m2 st2)
    as (m' & st' & Hrun & Hh & Hho & Hflds & Hlen & Hpairs).
  - subst m2. simpl. by rewrite lookup_insert_eq.
  - done.
  - simpl. symmetry. by apply (Hsz s st).
  - intros j e Hj. lia.
  - exists m', st, st'. split; [exact Hrun|]. split; [done|]. split.
    { rewrite Hh. subst m2 m1. simpl. by rewrite !insert_insert_eq. }
    split; [done|].
    assert (Hl : length (entries st') = Z.to_nat (lbr_capacity m)).
    { rewrite Hlen. simpl. by apply (Hsz s st). }
    injection Hflds as H1 H2 H3 H4 H5 H6. unfold snapshot_of. split_and!; done.
Qed.

Lemma lbr_pair_msr_cap cap r :
  lbr_pair_msr (Z.of_nat 0) (Z.of_nat (Z.to_nat cap)) r ↔ lbr_pair_msr 0 cap r.
Proof. unfold lbr_pair_msr. lia. Qed.

(** [put_lbr] on a traced process id writes the entry
    [find_lbr_state] returns to the registers; if that entry is a
    snapshot of [m0], the registers of [m0] are back. *)
Lemma put_lbr_spec m l p fuel st :
  ring m l → (length l ≤ fuel)%nat →
  first_match m p (backward l) ≠ NULL →
  heap m !! first_match m p (backward l) = Some st →
  length (entries st) = Z.to_nat (lbr_capacity m) →
  ∃ m', put_lbr mode fuel p m = Ok m' ∧ msr_only m m' ∧
    (∀ r, ¬ lbr_msr (lbr_capacity m) r → rdmsrl r m' = rdmsrl r m) ∧
    (∀ m0 r, snapshot_of m0 st → lbr_msr (lbr_capacity m) r → rdmsrl r m' = rdmsrl r m0).
Proof.
  intros Hring Hfuel Hs Hst Hlen.
  set (s := first_match m p (backward l)) in *.
  destruct (first_match_member _ _ _ Hs) as [Hin _]. fold s in Hin.
  rewrite elem_of_backward in Hin.
  destruct (ring_member _ _ _ Hring Hin) as (_ & Hr & _).
  unfold put_lbr. rewrite (find_spec mode m l p fuel) by done. fold s. cbn [bind].
  rewrite decide_False by done.
  rewrite (load_live mode s st) by done. cbn [bind].
  rewrite (load_live mode s st) by done. cbn [bind].
  set (m2 := wrmsrl _ _ (wrmsrl _ _ m)).
  destruct (put_lbr_loop_spec (Z.to_nat (lbr_capacity m)) 0%nat s m2 st)
    as (m' & Hrun & Hmo & Hout & Hin'); try done.
  - simpl. lia.
  - exists m'. split; [exact Hrun|]. split; [|split].
    + destruct Hmo as (? & ? & ? & ? & ?). done.
    + intros r Hrng. rewrite Hout.
      * subst m2. rewrite !rdmsrl_wrmsrl. unfold lbr_msr in Hrng.
        rewrite !decide_False; [done| |]; intros ->; tauto.
      * rewrite lbr_pair_msr_cap. unfold lbr_msr in Hrng. tauto.
    + intros m0 r (Hsel & Htos & Hpairs) Hrng.
      destruct (decide (lbr_pair_msr 0 (lbr_capacity m) r)) as [H|H].
      { apply Hin'; [|by apply lbr_pair_msr_cap]. simpl. by rewrite <- Hlen. }
      rewrite Hout by (by rewrite lbr_pair_msr_cap).
      subst m2. rewrite !rdmsrl_wrmsrl.
      destruct Hrng as [->|[->|?]]; [| |done].
      * rewrite decide_False by done. by rewrite decide_True.
      * by rewrite decide_True.
Qed.

(** On an untraced process id both do nothing. *)
Lemma put_lbr_miss m l p fuel :
  ring m l → (length l ≤ fuel)%nat → first_match m p (backward l) = NULL →
  put_lbr mode fuel p m = Ok m.
Proof.
  intros Hring Hfuel Hs. unfold put_lbr. rewrite (find_spec mode m l p fuel) by done.
  rewrite Hs. cbn [bind]. by rewrite decide_True.
Qed.

Lemma first_match_found m p ps s :
  NULL ∉ ps → s ∈ ps → pid_of m s = Some p → first_match m p ps ≠ NULL.
Proof.
  intros Hn Hs Hp. destruct (first_match_spec m p ps) as [[_ Hall]|[Hin _]].
  - by destruct (Hall s Hs).
  - intros E. apply Hn. by rewrite <- E.
Qed.

End Registers.

(** ** The dispatcher *)

Section Requests.
Context (mode : uaf_mode).
Context (ENABLE DISABLE DUMP SELECT : Z) (LBR_SELECT : Z).

(** A rejected transfer and an unknown request code leave everything
    as it was. *)
Lemma ioctl_partial fuel cmd param ret req cur a m :
  ret ≠ 0 → device_ioctl mode ENABLE DISABLE DUMP SELECT LBR_SELECT fuel cmd param ret req cur a m = Ok (-1, m).
Proof. intros H. unfold device_ioctl. by rewrite decide_True. Qed.

Lemma ioctl_unknown fuel cmd param req cur a m :
  cmd ≠ ENABLE → cmd ≠ DISABLE → cmd ≠ DUMP → cmd ≠ SELECT →
  device_ioctl mode ENABLE DISABLE DUMP SELECT LBR_SELECT fuel cmd param 0 req cur a m = Ok (- EINVAL, m).
Proof.
  intros. unfold device_ioctl. rewrite decide_False by (intros H'; by apply H').
  by rewrite !decide_False.
Qed.

Lemma ioctl_enable_nomem fuel param req cur m :
  device_ioctl mode ENABLE DISABLE DUMP SELECT LBR_SELECT fuel ENABLE param 0 req cur NULL m = Ok (- EINVAL, m).
Proof.
  unfold device_ioctl. rewrite decide_False by (intros H'; by apply H').
  rewrite decide_True by done. unfold create_lbr_state. by rewrite !decide_True.
Qed.

(** [ENABLE_TRACE] with a block from the allocator: the entry is
    appended whatever the store holds, then [put_lbr] runs for the
    process id of the request. *)
Lemma ioctl_enable fuel param req cur a m l :
  ring m l → snapshots_sized m l → a ≠ NULL → a ∉ l → (length l < fuel)%nat →
  ∃ m4 m5, device_ioctl mode ENABLE DISABLE DUMP SELECT LBR_SELECT fuel ENABLE param 0 req cur a m = Ok (0, put_cpu m5) ∧
    put_lbr mode fuel (req_pid req) (get_cpu m4) = Ok m5 ∧ msr_only (get_cpu m4) m5 ∧
    ring m4 (l ++ [a]) ∧ snapshots_sized m4 (l ++ [a]) ∧
    payload m4 a = Some (strip (enabled_state LBR_SELECT req cur (lbr_capacity m))) ∧
    (∀ q, q ≠ a → payload m4 q = payload m q) ∧
    released m4 = released m ∖ {[a]} ∧ msr m4 = msr m ∧
    lbr_capacity m4 = lbr_capacity m ∧ preempt_count m4 = preempt_count m.
Proof.
  intros Hring Hsz Hn Ha Hfuel. unfold device_ioctl.
  rewrite decide_False by (intros H'; by apply H').
  rewrite decide_True by done. unfold create_lbr_state. rewrite !decide_False by done.
  set (m0 := with_released _ _).
  assert (Hr0 : a ∉ released m0) by (subst m0; simpl; set_unfold; tauto).
  erewrite (store_live mode a _ _ m0); [| by subst m0; simpl; rewrite lookup_insert_eq | done].
  cbn [bind]. set (m1 := with_heap _ m0).
  erewrite (store_live mode a _ _ m1); [| by subst m1; simpl; rewrite lookup_insert_eq | done].
  cbn [bind]. set (m2 := with_heap _ m1).
  erewrite (store_live mode a _ _ m2); [| by subst m2; simpl; rewrite lookup_insert_eq | done].
  cbn [bind]. set (m3 := with_heap _ m2).
  assert (H3 : heap m3 !! a = Some (enabled_state LBR_SELECT req cur (lbr_capacity m))).
  { subst m3. simpl. by rewrite lookup_insert_eq. }
  assert (Hoth : ∀ x, x ≠ a → heap m3 !! x = heap m !! x).
  { intros x Hx. subst m3 m2 m1 m0. simpl. by rewrite !lookup_insert_ne. }
  assert (Hring3 : ring m3 l).
  { apply (ring_frame m); try done.
    - intros x Hx. apply Hoth. by intros ->.
    - intros x Hx. subst m3 m2 m1 m0. simpl. destruct Hring as (_ & _ & Hre & _).
      specialize (Hre x Hx). set_unfold. tauto. }
  destruct (insert_ring mode m3 l a _ Hring3 Hn Ha H3 Hr0) as (m4 & Hrun & Hring4 & Hrel4 & Hsd4).
  rewrite Hrun. cbn [bind].
  assert (Hsz4 : snapshots_sized m4 (l ++ [a])).
  { apply (same_data_sized m3 m4); [done|].
    intros x st Hx Hst. destruct (decide (x = a)) as [->|Hxa].
    - rewrite H3 in Hst. injection Hst as <-. simpl. by rewrite length_replicate.
    - rewrite Hoth in Hst by done. apply (Hsz x st); [|done].
      apply elem_of_app in Hx as [Hx|Hx]; [done|].
      apply list_elem_of_singleton in Hx. done. }
  assert (Hlen4 : (length (l ++ [a]) ≤ fuel)%nat).
  { rewrite length_app. simpl. lia. }
  assert (∃ m5, put_lbr mode fuel (req_pid req) (get_cpu m4) = Ok m5 ∧
                msr_only (get_cpu m4) m5) as (m5 & Hput & Hmo).
  { destruct (decide (first_match (get_cpu m4) (req_pid req) (backward (l ++ [a])) = NULL))
      as [Hs|Hs].
    - exists (get_cpu m4). split; [|done]. by apply (put_lbr_miss mode _ (l ++ [a])).
    - destruct (first_match_member _ _ _ Hs) as [Hin _]. rewrite elem_of_backward in Hin.
      destruct (ring_member m4 _ _ Hring4 Hin) as (_ & _ & st & Hst).
      destruct (put_lbr_spec mode (get_cpu m4) (l ++ [a]) (req_pid req) fuel st)
        as (m5 & Hput & Hmo & _); try done.
      + by apply (Hsz4 _ st Hin).
      + eauto. }
  exists m4, m5. rewrite Hput. cbn [bind]. split; [done|]. split; [done|]. split; [done|].
  split; [done|]. split; [done|].
  destruct Hsd4 as (Hmsr4 & Hcap4 & Hpc4 & Hpl4). split_and!; try done.
  - rewrite Hpl4. unfold payload. by rewrite H3.
  - intros q Hq. rewrite Hpl4. unfold payload. by rewrite Hoth.
Qed.

End Requests.

(** ** The store under the dispatcher and the hooks *)

Section Reachable.
Context (mode : uaf_mode).
Context (ENABLE DISABLE DUMP SELECT : Z) (LBR_SELECT : Z).

Lemma store_ok_booted cap : store_ok (booted cap) [].
Proof.
  destruct (tracks_booted cap) as (H1 & _ & H2). split_and!; try done.
  intros q Hq. by apply elem_of_nil in Hq.
Qed.

(** Changes outside the heap, the released set and the anchor do not
    matter to the store. *)
Lemma store_ok_frame m m' l :
  store_ok m l → heap m' = heap m → released m' = released m →
  lbr_state_list m' = lbr_state_list m → lbr_capacity m' = lbr_capacity m →
  store_ok m' l.
Proof.
  intros (Hring & Hsz & Hpar) Hh Hr Hl Hc. split_and!.
  - apply (ring_frame m); try done.
    + intros q _. by rewrite Hh.
    + intros q Hq. rewrite Hr. by destruct Hring as (_ & _ & Hre & _); apply Hre.
  - intros q st Hq Hst. rewrite Hc. rewrite Hh in Hst. by apply (Hsz q st).
  - intros q Hq. unfold par. rewrite Hh. by apply Hpar.
Qed.

(** Rewriting the registers or the filter held by a member. *)
Lemma store_ok_update m m' l s st st' :
  store_ok m l → s ∈ l → heap m !! s = Some st → heap m' = <[s := st']> (heap m) →
  prev st' = prev st → next st' = next st → parent st' = parent st →
  length (entries st') = length (entries st) →
  released m' = released m → lbr_state_list m' = lbr_state_list m →
  lbr_capacity m' = lbr_capacity m →
  store_ok m' l.
Proof.
  intros (Hring & Hsz & Hpar) Hs Hst Hh Hp Hn Hpa Hlen Hr Hl Hc. split_and!.
  - by apply (ring_update m m' l s st st').
  - intros q stq Hq Hstq. rewrite Hc. rewrite Hh, lookup_insert in Hstq.
    case_decide; [|by apply (Hsz q stq)].
    subst q. injection Hstq as <-. rewrite Hlen. by apply (Hsz s st).
  - intros q Hq. unfold par. rewrite Hh, lookup_insert. case_decide; [|by apply Hpar].
    subst q. simpl. rewrite Hpa. specialize (Hpar s Hs). unfold par in Hpar.
    by rewrite Hst in Hpar.
Qed.

(** [put_lbr] changes registers only. *)
Lemma put_lbr_keeps m l p fuel :
  store_ok m l → (length l ≤ fuel)%nat →
  ∃ m', put_lbr mode fuel p m = Ok m' ∧ msr_only m m'.
Proof.
  intros (Hring & Hsz & _) Hfuel.
  destruct (decide (first_match m p (backward l) = NULL)) as [Hs|Hs].
  - exists m. split; [|done]. by apply (put_lbr_miss mode _ l).
  - destruct (first_match_member _ _ _ Hs) as [Hin _]. rewrite elem_of_backward in Hin.
    destruct (ring_member m _ _ Hring Hin) as (_ & _ & st & Hst).
    destruct (put_lbr_spec mode m l p fuel st) as (m' & Hput & Hmo & _); try done.
    + by apply (Hsz _ st Hin).
    + eauto.
Qed.

(** [get_lbr] changes the snapshot of one member, or nothing. *)
Lemma get_lbr_keeps m l p fuel :
  store_ok m l → (length l ≤ fuel)%nat →
  ∃ m', get_lbr mode fuel p m = Ok m' ∧ store_ok m' l ∧
        msr m' = msr m ∧ preempt_count m' = preempt_count m.
Proof.
  intros Hok Hfuel. pose proof Hok as (Hring & Hsz & Hpar).
  destruct (decide (first_match m p (backward l) = NULL)) as [Hs|Hs].
  - exists m. split; [|done]. unfold get_lbr.
    rewrite (find_spec mode m l p fuel) by done. rewrite Hs. cbn [bind].
    by rewrite decide_True.
  - destruct (get_lbr_spec mode m l p fuel Hring Hsz Hfuel Hs)
      as (m' & st & st' & Hget & Hst & Hh & (Hr & Hl & Hc & Hmsr & Hpc)
          & _ & Hprev & Hnext & Hpa & Hlen & _).
    destruct (first_match_member _ _ _ Hs) as [Hin _]. rewrite elem_of_backward in Hin.
    exists m'. split; [done|]. split; [|done].
    apply (store_ok_update m m' l (first_match m p (backward l)) st st'); try done.
    rewrite Hlen. symmetry. by apply (Hsz _ st Hin).
Qed.

(** The context switch hooks keep the store. *)
Lemma hooks_keep_store m l cur fuel :
  store_ok m l → (length l ≤ fuel)%nat →
  (∃ m', save_lbr mode fuel cur m = Ok m' ∧ store_ok m' l ∧ msr m' = msr m) ∧
  (∃ m', restore_lbr mode fuel cur m = Ok m' ∧ store_ok m' l).
Proof.
  intros Hok Hfuel. pose proof Hok as (Hring & _). split.
  - unfold save_lbr. rewrite (find_spec mode m l cur fuel) by done. cbn [bind].
    case_decide; [by exists m|].
    destruct (get_lbr_keeps m l cur fuel Hok Hfuel) as (m' & Hget & Hok' & Hmsr & _).
    by exists m'.
  - unfold restore_lbr. rewrite (find_spec mode m l cur fuel) by done. cbn [bind].
    case_decide; [by exists m|].
    destruct (put_lbr_keeps m l cur fuel Hok Hfuel) as (m' & Hput & Hh & Hr & Hl & Hc & _).
    exists m'. split; [done|]. by apply (store_ok_frame m).
Qed.

(** Every request leaves the store as the module keeps it: a reply
    always comes, and the entries afterwards are the old ones, the old
    ones and the new block, or the old ones without one of them. *)
Lemma ioctl_keeps_store fuel cmd param ret req cur a m l :
  store_ok m l → a ∉ l → (length l < fuel)%nat →
  ∃ s m' l', device_ioctl mode ENABLE DISABLE DUMP SELECT LBR_SELECT
               fuel cmd param ret req cur a m = Ok (s, m') ∧
    store_ok m' l' ∧
    (l' = l ∨ l' = l ++ [a] ∨ ∃ l1 e l2, l = l1 ++ e :: l2 ∧ l' = l1 ++ l2).
Proof.
  intros Hok Ha Hfuel. pose proof Hok as (Hring & Hsz & Hpar).
  destruct (decide (ret = 0)) as [->|Hret];
    [|exists (-1), m, l; split; [by apply ioctl_partial|]; split; [done|by left]].
  destruct (decide (cmd = ENABLE)) as [->|HE].
  { destruct (decide (a = NULL)) as [->|Hn].
    - exists (- EINVAL), m, l. split; [apply ioctl_enable_nomem|]. split; [done|by left].
    - destruct (ioctl_enable mode ENABLE DISABLE DUMP SELECT LBR_SELECT
                  fuel param req cur a m l)
        as (m4 & m5 & Hrun & _ & (Hh5 & Hr5 & Hl5 & Hc5 & _) & Hring4 & Hsz4 & Hpa & Hpoth & _);
        try done.
      exists 0, (put_cpu m5), (l ++ [a]). split; [done|]. split; [|right; by left].
      apply (store_ok_frame m4); try done. split_and!; try done.
      intros q Hq. destruct (decide (q = a)) as [->|Hqa].
      + unfold payload, par in *. destruct (heap m4 !! a); simpl in *; [|done].
        injection Hpa; intros; congruence.
      + specialize (Hpoth q Hqa). apply elem_of_app in Hq as [Hq|Hq];
          [|by apply list_elem_of_singleton in Hq].
        specialize (Hpar q Hq). unfold payload, par in *.
        destruct (heap m4 !! q), (heap m !! q); simpl in *; try done.
        injection Hpoth; intros; congruence. }
  unfold device_ioctl. rewrite decide_False by (intros H'; by apply H').
  rewrite decide_False by done.
  destruct (decide (cmd = DISABLE)) as [->|HD].
  { rewrite (find_spec mode m l (req_pid req) fuel) by (done || lia). cbn [bind].
    destruct (decide (first_match m (req_pid req) (backward l) = NULL)) as [Hs|Hs].
    - exists (- EINVAL), m, l. split; [done|]. split; [done|by left].
    - destruct (first_match_member _ _ _ Hs) as [Hin _]. rewrite elem_of_backward in Hin.
      set (e := first_match m (req_pid req) (backward l)) in *.
      apply list_elem_of_split in Hin as (l1 & l2 & El). rewrite El in Hring.
      destruct (remove_nochild mode m l1 e l2 fuel Hring) as (m' & Hrun & Hring' & Hrel & Hsd).
      + intros q Hq. rewrite Hpar; [congruence|]. rewrite El.
        rewrite elem_of_app in *. rewrite elem_of_cons. tauto.
      + rewrite <- El. lia.
      + exists 0, m', (l1 ++ l2). rewrite Hrun. cbn [bind]. split; [done|].
        split; [|right; right; by exists l1, e, l2]. split_and!; try done.
        * apply (same_data_sized m m'); [done|]. intros q st Hq. apply Hsz. rewrite El.
          rewrite elem_of_app in *. rewrite elem_of_cons. tauto.
        * intros q Hq. rewrite (links_only_par m m') by done. apply Hpar. rewrite El.
          rewrite elem_of_app in *. rewrite elem_of_cons. tauto. }
  destruct (decide (cmd = DUMP)) as [->|HU].
  { unfold dump_lbr.
    assert (Hok0 : store_ok (get_cpu m) l) by (by apply (store_ok_frame m)).
    rewrite (find_spec mode (get_cpu m) l (req_pid req) fuel) by (done || lia). cbn [bind].
    case_decide.
    - exists 0, (get_cpu m), l. split; [done|]. split; [done|by left].
    - destruct (get_lbr_keeps (get_cpu m) l (req_pid req) fuel Hok0) as (m1 & Hget & Hok1 & _);
        [lia|].
      rewrite Hget. cbn [bind]. exists 0, (put_cpu m1), l. split; [done|].
      split; [by apply (store_ok_frame m1)|by left]. }
  destruct (decide (cmd = SELECT)) as [->|HS]; [|by exists (- EINVAL), m, l; auto].
  rewrite (find_spec mode m l (req_pid req) fuel) by (done || lia). cbn [bind].
  destruct (decide (first_match m (req_pid req) (backward l) = NULL)) as [Hs|Hs].
  { exists (- EINVAL), m, l. split; [done|]. split; [done|by left]. }
  destruct (first_match_member _ _ _ Hs) as [Hin _]. rewrite elem_of_backward in Hin.
  set (e := first_match m (req_pid req) (backward l)) in *.
  destruct (ring_member m _ _ Hring Hin) as (_ & Hre & st & Hst).
  rewrite (store_live mode e _ st) by done. cbn [bind].
  set (m1 := with_heap _ m).
  assert (Hok1 : store_ok (get_cpu m1) l).
  { by apply (store_ok_update m _ l e st (with_lbr_select param st)). }
  destruct (put_lbr_keeps (get_cpu m1) l (req_pid req) fuel Hok1)
    as (m2 & Hput & Hh & Hr & Hl & Hc & _); [lia|].
  rewrite Hput. cbn [bind]. exists 0, (put_cpu m2), l. split; [done|].
  split; [|by left]. by apply (store_ok_frame (get_cpu m1)).
Qed.

End Reachable.

(** [ENABLE_TRACE] for a non-zero process id that the anchor does not
    carry: the entry is appended and the registers are loaded from it,
    the selection register with the requested or default filter, the
    top-of-stack and the from/to registers with zero. *)
Lemma enable_loads_registers mode ENABLE DISABLE DUMP SELECT dflt
    fuel param req cur a m l :
  ring m l → snapshots_sized m l → a ≠ NULL → a ∉ l → (length l < fuel)%nat →
  req_pid req ≠ 0 → (∀ h, head l = Some h → pid_of m h ≠ Some (req_pid req)) →
  ∃ m', device_ioctl mode ENABLE DISABLE DUMP SELECT dflt fuel ENABLE param 0 req cur a m
        = Ok (0, m') ∧
    ring m' (l ++ [a]) ∧
    payload m' a = Some (strip (enabled_state dflt req cur (lbr_capacity m))) ∧
    (∀ r, lbr_msr (lbr_capacity m) r →
       rdmsrl r m' = if decide (r = MSR_LBR_SELECT)
                     then lbr_select (enabled_state dflt req cur (lbr_capacity m)) else 0) ∧
    (∀ r, ¬ lbr_msr (lbr_capacity m) r → rdmsrl r m' = rdmsrl r m) ∧
    preempt_count m' = preempt_count m.
Proof.
  intros Hring Hsz Hn Ha Hfuel Hp0 Hhead.
  destruct (ioctl_enable mode ENABLE DISABLE DUMP SELECT dflt fuel param req cur a m l)
    as (m4 & m5 & Hrun & Hput & Hmo & Hring4 & Hsz4 & Hpa & Hpoth & Hrel & Hmsr & Hcap & Hpc);
    try done.
  set (est := enabled_state dflt req cur (lbr_capacity m)) in *.
  assert (Hepid : pid est = req_pid req) by (subst est; simpl; by rewrite decide_True).
  assert (Hetos : lbr_tos est = 0) by done.
  assert (Heent : entries est = replicate (Z.to_nat (lbr_capacity m)) {| from := 0; to := 0 |})
    by done.
  clearbody est.
  assert (Hain : a ∈ l ++ [a]) by (apply elem_of_app; right; by left).
  destruct (ring_member m4 _ _ Hring4 Hain) as (_ & _ & st4 & Hst4).
  assert (Hstrip : strip st4 = strip est).
  { unfold payload in Hpa. rewrite Hst4 in Hpa. simpl in Hpa. congruence. }
  injection Hstrip as Hf1 Hf2 Hf3 Hf4 Hf5.
  assert (Hpid4 : pid_of (get_cpu m4) a = Some (req_pid req)).
  { unfold pid_of. simpl. rewrite Hst4. simpl. by rewrite Hf3, Hepid. }
  assert (Hfm : first_match (get_cpu m4) (req_pid req) (backward (l ++ [a])) = a).
  { destruct l as [|h t]; simpl.
    - by rewrite decide_True.
    - rewrite decide_False.
      + rewrite reverse_app. simpl. by rewrite decide_True.
      + assert (Hha : h ≠ a) by (intros ->; apply Ha; by left).
        specialize (Hpoth h Hha). specialize (Hhead h eq_refl).
        unfold pid_of, payload in *. simpl.
        destruct (heap m4 !! h), (heap m !! h); simpl in *; try done.
        injection Hpoth; intros; congruence. }
  destruct (put_lbr_spec mode (get_cpu m4) (l ++ [a]) (req_pid req) fuel st4)
    as (m5' & Hput' & _ & Hout & Hin); try done.
  - rewrite length_app. simpl. lia.
  - rewrite Hfm. by intros ->.
  - by rewrite Hfm.
  - simpl. rewrite Hcap, Hf5, Heent. by rewrite length_replicate.
  - rewrite Hput in Hput'. injection Hput' as <-.
    destruct Hmo as (Hh5 & Hr5 & Hl5 & Hc5 & Hpc5).
    exists (put_cpu m5). split; [done|]. split_and!.
    + apply (ring_frame m4); try done.
      * intros q _. simpl. by rewrite Hh5.
      * intros q Hq. simpl. rewrite Hr5. simpl.
        by destruct Hring4 as (_ & _ & Hre & _); apply Hre.
    + unfold payload in *. simpl. by rewrite Hh5.
    + intros r Hr. change (rdmsrl r (put_cpu m5)) with (rdmsrl r m5).
      rewrite (Hin (with_msr {[MSR_LBR_SELECT := lbr_select est]} m) r).
      * unfold rdmsrl. simpl. rewrite lookup_singleton. by repeat case_decide.
      * unfold snapshot_of, rdmsrl. simpl. rewrite lookup_singleton_eq.
        rewrite lookup_singleton_ne by done.
        split_and!; [done | by rewrite Hf2 |].
        intros j e Hj He. rewrite Hf5, Heent in He.
        apply lookup_replicate in He as [-> _]. unfold rdmsrl. simpl.
        rewrite !lookup_singleton_ne; [done| |];
          unfold MSR_LBR_SELECT, MSR_LBR_NHM_TO, MSR_LBR_NHM_FROM; lia.
      * simpl. by rewrite Hcap.
    + intros r Hr. change (rdmsrl r (put_cpu m5)) with (rdmsrl r m5).
      rewrite Hout by (simpl; by rewrite Hcap). unfold rdmsrl. simpl. by rewrite Hmsr.
    + simpl. rewrite Hpc5. simpl. lia.
Qed.

(** ** Checks and runs on concrete machines *)

Lemma segb_sound g l e : segb g l e = true → seg g l e.
Proof.
  induction l as [|x l IH]; simpl; [done|].
  intros [H1 H2]%andb_true_iff. split; [by apply bool_decide_eq_true in H1 | by apply IH].
Qed.

Lemma ringb_sound m l : ringb m l = true → ring m l.
Proof.
  unfold ringb. rewrite !andb_true_iff, !bool_decide_eq_true.
  intros (((((H1 & H2) & H3) & H4) & H5) & H6). unfold ring, cseg. split_and!; try done.
  - intros p Hp. rewrite forallb_forall in H3. apply list_elem_of_In in Hp.
    specialize (H3 p Hp). by apply bool_decide_eq_true in H3.
  - by apply segb_sound.
  - by apply segb_sound.
Qed.

Lemma sizedb_sound m l : sizedb m l = true → snapshots_sized m l.
Proof.
  unfold sizedb. rewrite forallb_forall. intros H p st Hp Hst.
  apply list_elem_of_In in Hp. specialize (H p Hp). rewrite Hst in H.
  by apply bool_decide_eq_true in H.
Qed.

Lemma returns_bind_false {A B} (c : result A) (k : A → result B) :
  returns c = false → returns (bind c k) = false.
Proof. by destruct c. Qed.

Lemma run_ops_app mode fuel os1 os2 m :
  run_ops mode fuel (os1 ++ os2) m =
  do m1 <- run_ops mode fuel os1 m; run_ops mode fuel os2 m1.
Proof.
  revert m. induction os1 as [|o os1 IH]; intros m; [done|]. simpl.
  destruct (run_op mode fuel o m); simpl; [apply IH|done|done].
Qed.

Lemma family_run mode fuel : run_ops mode fuel family_ops (booted 4) = Ok family.
Proof. destruct mode; vm_compute; reflexivity. Qed.

Lemma family_ring : ring family [10; 20].
Proof. apply ringb_sound. vm_compute. reflexivity. Qed.

(** Once the cascade has emptied the store, the loop that started it
    never meets the anchor again: with released blocks still readable
    it keeps calling [remove_lbr_state] on the same block. *)
Lemma stale_loop_spins m tmp e st :
  lbr_state_list m = NULL → heap m !! tmp = Some st →
  parent st = e → prev st = tmp → tmp ≠ NULL →
  ∀ fuel, returns (remove_children Stale fuel e tmp m) = false.
Proof.
  intros Hl Hst Hpar Hprev Hn fuel. induction fuel as [|f IH]; [done|].
  rewrite remove_children_eq. unfold load at 1. rewrite Hst. cbn [bind].
  rewrite decide_True by done. destruct f as [|f0]; [done|].
  rewrite remove_lbr_state_eq. rewrite decide_False by done. rewrite decide_True by done.
  cbn [bind]. unfold load. rewrite Hst. cbn [bind]. rewrite Hprev, Hl.
  rewrite decide_False by done. exact IH.
Qed.

Lemma family_remove_trap k :
  remove_lbr_state Trap (3 + k) 10 family = Fault (UseAfterFree 20).
Proof.
  change (3 + k)%nat with (S (S (S k))).
  rewrite remove_lbr_state_eq. rewrite decide_False by done.
  rewrite decide_False by done.
  set (u := unlink Trap 10 family). vm_compute in u. subst u. cbn [bind].
  rewrite decide_False by done. simpl lbr_state_list.
  rewrite remove_children_eq.
  set (u := load Trap 20 _). vm_compute in u. subst u. cbn [bind].
  rewrite decide_True by done.
  rewrite remove_lbr_state_eq. rewrite decide_False by done.
  rewrite decide_False by done.
  set (u := unlink Trap 20 _). vm_compute in u. subst u. cbn [bind].
  rewrite decide_True by done. cbn [bind].
  set (u := kfree 20 _). vm_compute in u. subst u. cbn [bind].
  set (u := load Trap 20 _). vm_compute in u. subst u. cbn [bind].
  reflexivity.
Qed.

Lemma family_remove_stale fuel : returns (remove_lbr_state Stale fuel 10 family) = false.
Proof.
  destruct fuel as [|f]; [done|].
  rewrite remove_lbr_state_eq. rewrite decide_False by done.
  rewrite decide_False by done.
  set (u := unlink Stale 10 family). vm_compute in u. subst u. cbn [bind].
  rewrite decide_False by done. simpl lbr_state_list.
  apply returns_bind_false.
  destruct f as [|f]; [done|].
  rewrite remove_children_eq.
  set (u := load Stale 20 _). vm_compute in u. subst u. cbn [bind].
  rewrite decide_True by done.
  destruct f as [|f]; [done|].
  rewrite remove_lbr_state_eq. rewrite decide_False by done.
  rewrite decide_False by done.
  set (u := unlink Stale 20 _). vm_compute in u. subst u. cbn [bind].
  rewrite decide_True by done. cbn [bind].
  set (u := kfree 20 _). vm_compute in u. subst u. cbn [bind].
  set (u := load Stale 20 _). vm_compute in u. subst u. cbn [bind].
  rewrite decide_False by done.
  eapply stale_loop_spins; done.
Qed.

(** ** The properties of the specification *)

(** C10. On a non-empty store [insert_lbr_state] keeps the anchor, makes
    the new entry the predecessor of the anchor (and the successor of
    the former predecessor), and changes nothing else: no [prev] link
    besides the anchor's and the new entry's, no [next] link besides the
    former predecessor's and the new entry's, no other field of any
    block.  The entry [device_read] dumps by default is therefore the
    same before and after. *)
Theorem insert_keeps_anchor mode m h t e est :
  ring m (h :: t) → e ≠ NULL → e ∉ h :: t →
  heap m !! e = Some est → e ∉ released m →
  ∃ m', insert_lbr_state mode e m = Ok m' ∧
    lbr_state_list m' = lbr_state_list m ∧ lbr_state_list m' = h ∧
    pid_of m' h = pid_of m h ∧
    prv m' h = Some e ∧ nxt m' e = Some h ∧
    prv m' e = prv m h ∧ (∀ x, prv m h = Some x → nxt m' x = Some e) ∧
    (∀ q, q ≠ e → q ≠ h → prv m' q = prv m q) ∧
    (∀ q x, prv m h = Some x → q ≠ e → q ≠ x → nxt m' q = nxt m q) ∧
    (∀ q x, prv m h = Some x → q ≠ e → q ≠ h → q ≠ x → heap m' !! q = heap m !! q) ∧
    links_only m m' ∧ ring m' (h :: t ++ [e]).
Proof.
  intros Hring Hn He Hest Hrel.
  destruct (insert_nonempty mode _ _ _ _ _ Hring Hn He Hest Hrel)
    as (m' & Hrun & Hl & Hlo & Hnx & Hpv).
  destruct (insert_ring mode _ _ _ _ Hring Hn He Hest Hrel) as (m'' & Hrun' & Hring' & _).
  rewrite Hrun in Hrun'. injection Hrun' as <-.
  destruct (ring_head_prev _ _ _ Hring) as [Hhp _].
  assert (Hhe : h ≠ e) by (intros ->; apply He; by left).
  assert (Hxe : hd h (reverse t) ≠ e).
  { intros E. apply He. rewrite <- E. apply hd_reverse_in. }
  exists m'. split; [done|]. split_and!; try done.
  - rewrite Hl. by destruct Hring as (_ & _ & _ & _ & _ & ->).
  - destruct Hlo as (_ & _ & _ & _ & Hpl). specialize (Hpl h). unfold payload, pid_of in *.
    destruct (heap m' !! h), (heap m !! h); simpl in *; try done.
    injection Hpl; intros; congruence.
  - rewrite Hpv. rewrite decide_False by done. by rewrite decide_True.
  - rewrite Hnx. by rewrite decide_True.
  - rewrite Hpv, Hhp. by rewrite decide_True.
  - intros x Hx. rewrite Hhp in Hx. injection Hx as <-.
    rewrite Hnx. rewrite decide_False by done. by rewrite decide_True.
  - intros q Hq1 Hq2. rewrite Hpv. by rewrite !decide_False.
  - intros q x Hx Hq1 Hq2. rewrite Hhp in Hx. injection Hx as <-.
    rewrite Hnx. by rewrite !decide_False.
  - intros q x Hx Hq1 Hq2 Hq3. rewrite Hhp in Hx. injection Hx as <-.
    destruct Hlo as (_ & _ & _ & _ & Hpl). specialize (Hpl q).
    specialize (Hnx q). specialize (Hpv q).
    repeat (rewrite decide_False in Hnx by done). repeat (rewrite decide_False in Hpv by done).
    unfold payload, nxt, prv in *.
    destruct (heap m' !! q) as [[]|], (heap m !! q) as [[]|]; simpl in *; try done.
    injection Hpl; intros; simplify_eq. done.
Qed.

(** C7. A request whose transfer from user space was partial, and a
    request with a code that is none of the four request codes, gets a
    negative status, and the machine (store, registers and all) is the
    one the dispatcher was entered with. *)
Theorem ioctl_rejects_before_mutation mode ENABLE DISABLE DUMP SELECT dflt
    fuel cmd param ret req cur a m :
  ret ≠ 0 ∨ (cmd ≠ ENABLE ∧ cmd ≠ DISABLE ∧ cmd ≠ DUMP ∧ cmd ≠ SELECT) →
  ∃ s, s < 0 ∧
    device_ioctl mode ENABLE DISABLE DUMP SELECT dflt fuel cmd param ret req cur a m
    = Ok (s, m).
Proof.
  intros H. destruct (decide (ret = 0)) as [->|Hret].
  - destruct H as [H|(H1 & H2 & H3 & H4)]; [done|].
    exists (- EINVAL). split; [unfold EINVAL; lia|]. by apply ioctl_unknown.
  - exists (-1). split; [lia|]. by apply ioctl_partial.
Qed.

(** C4. For a traced process whose entry holds [lbr_capacity] pairs,
    [save_lbr] followed by [restore_lbr] puts back into the selection
    register, the top-of-stack register and every from/to register the
    value it had when [save_lbr] ran, whatever the registers [hw] held
    when [restore_lbr] was entered; the other registers keep what [hw]
    gave them. *)
Theorem save_restore_roundtrip mode m l p s fuel hw :
  ring m l → snapshots_sized m l → (length l ≤ fuel)%nat →
  s ∈ l → pid_of m s = Some p →
  ∃ m1 m2, save_lbr mode fuel p m = Ok m1 ∧ msr m1 = msr m ∧
    restore_lbr mode fuel p (with_msr hw m1) = Ok m2 ∧
    (∀ r, lbr_msr (lbr_capacity m) r → rdmsrl r m2 = rdmsrl r m) ∧
    (∀ r, ¬ lbr_msr (lbr_capacity m) r → rdmsrl r m2 = default 0 (hw !! r)) ∧
    heap m2 = heap m1 ∧ ring m2 l.
Proof.
  intros Hring Hsz Hfuel Hs Hp.
  assert (Hfm : first_match m p (backward l) ≠ NULL).
  { apply (first_match_found m p _ s); [|by apply elem_of_backward|done].
    rewrite elem_of_backward. by destruct Hring as (_ & ? & _). }
  destruct (get_lbr_spec mode m l p fuel Hring Hsz Hfuel Hfm)
    as (m1 & st & st' & Hget & Hst & Hh1 & Hho & Hpid & Hprev & Hnext & Hpar & Hlen & Hsnap).
  destruct Hho as (Hr1 & Hl1 & Hc1 & Hmsr1 & Hpc1).
  assert (Hring1 : ring (with_msr hw m1) l).
  { by apply (ring_update m _ l (first_match m p (backward l)) st st'). }
  assert (Hfm1 : first_match (with_msr hw m1) p (backward l) = first_match m p (backward l)).
  { apply first_match_ext. intros q _. unfold pid_of. simpl. rewrite Hh1, lookup_insert.
    case_decide; [|done]. subst q. rewrite Hst. simpl. by f_equal. }
  destruct (put_lbr_spec mode (with_msr hw m1) l p fuel st')
    as (m2 & Hput & Hmo & Hout & Hin); try done.
  - by rewrite Hfm1.
  - rewrite Hfm1. simpl. rewrite Hh1. by rewrite lookup_insert_eq.
  - simpl. by rewrite Hc1.
  - exists m1, m2. split_and!.
    + unfold save_lbr. rewrite (find_spec mode m l p fuel) by done. cbn [bind].
      by rewrite decide_False.
    + done.
    + unfold restore_lbr. rewrite (find_spec mode _ l p fuel) by done. cbn [bind].
      rewrite Hfm1. by rewrite decide_False.
    + intros r Hr. apply (Hin m r Hsnap). simpl. by rewrite Hc1.
    + intros r Hr. rewrite Hout; [done|]. simpl. by rewrite Hc1.
    + by destruct Hmo as (-> & _).
    + destruct Hmo as (Hh2 & Hr2 & Hl2 & _).
      apply (ring_frame (with_msr hw m1)); try done.
      * intros q _. by rewrite Hh2.
      * intros q Hq. rewrite Hr2. by destruct Hring1 as (_ & _ & Hre & _); apply Hre.
Qed.

(** [ENABLE_TRACE] does not look the process id up.  When the store
    already holds an entry [s] for the process the request names (by
    its id, or the caller for a request with id 0), a second request
    that gets a block [a] from the allocator returns 0 and appends [a]
    with the same process id, so that two members carry it; the request
    is rejected, with the machine unchanged, only when the allocator
    returns [NULL]. *)
Lemma enable_twice_appends mode ENABLE DISABLE DUMP SELECT dflt
    fuel param req cur a m l s :
  ring m l → snapshots_sized m l → (length l < fuel)%nat →
  s ∈ l →
  pid_of m s = Some (if decide (req_pid req ≠ 0) then req_pid req else cur) →
  a ≠ NULL → a ∉ l →
  (∃ m', device_ioctl mode ENABLE DISABLE DUMP SELECT dflt fuel ENABLE param 0 req cur a m
         = Ok (0, m') ∧
     ring m' (l ++ [a]) ∧ s ≠ a ∧
     pid_of m' s = Some (if decide (req_pid req ≠ 0) then req_pid req else cur) ∧
     pid_of m' a = Some (if decide (req_pid req ≠ 0) then req_pid req else cur) ∧
     ¬ pids_unique m' (l ++ [a])) ∧
  device_ioctl mode ENABLE DISABLE DUMP SELECT dflt fuel ENABLE param 0 req cur NULL m
  = Ok (- EINVAL, m).
Proof.
  intros Hring Hsz Hfuel Hs Hp Hn Ha. split; [|apply ioctl_enable_nomem].
  destruct (ioctl_enable mode ENABLE DISABLE DUMP SELECT dflt fuel param req cur a m l)
    as (m4 & m5 & Hrun & Hput & Hmo & Hring4 & Hsz4 & Hpa & Hpoth & Hrel & Hmsr & Hcap & Hpc);
    try done.
  set (p := if decide (req_pid req ≠ 0) then req_pid req else cur) in *.
  assert (Hsa : s ≠ a) by (by intros ->).
  destruct Hmo as (Hh5 & Hr5 & Hl5 & _).
  assert (Hps : pid_of (put_cpu m5) s = Some p).
  { specialize (Hpoth s Hsa). unfold pid_of, payload in *. simpl. rewrite Hh5. simpl.
    destruct (heap m4 !! s), (heap m !! s); simpl in *; try done.
    injection Hpoth; intros; congruence. }
  assert (Hpa' : pid_of (put_cpu m5) a = Some p).
  { unfold pid_of, payload in *. simpl. rewrite Hh5. simpl.
    destruct (heap m4 !! a); simpl in *; [|done].
    injection Hpa; intros; subst p; simpl; congruence. }
  exists (put_cpu m5). split; [done|]. split_and!; try done.
  - apply (ring_frame m4); try done.
    + intros q _. simpl. by rewrite Hh5.
    + intros q Hq. simpl. rewrite Hr5. simpl. by destruct Hring4 as (_ & _ & Hre & _); apply Hre.
  - intros Hu. apply list_elem_of_lookup in Hs as (i & Hi).
    assert (Hi' : (l ++ [a]) !! i = Some s) by (by apply lookup_app_l_Some).
    assert (Ha' : (l ++ [a]) !! length l = Some a).
    { rewrite lookup_app_r by lia. by rewrite Nat.sub_diag. }
    specialize (Hu i (length l) s a Hi' Ha'). rewrite Hps, Hpa' in Hu.
    apply lookup_lt_Some in Hi. specialize (Hu eq_refl). lia.
Qed.

Lemma same_data_pid m m' q : same_data m m' → pid_of m' q = pid_of m q.
Proof.
  intros (_ & _ & _ & Hp). specialize (Hp q). unfold payload, pid_of in *.
  destruct (heap m' !! q) as [s'|], (heap m !! q) as [s|]; simpl in *; try done.
  injection Hp; intros; congruence.
Qed.

Lemma first_match_none m p ps :
  (∀ q, q ∈ ps → pid_of m q ≠ Some p) → first_match m p ps = NULL.
Proof.
  intros Hall. destruct (first_match_spec m p ps) as [[? _]|[Hin Hp]]; [done|].
  by destruct (Hall _ Hin).
Qed.

(** What holds of lookups after an insertion or a removal.  After
    [insert_lbr_state] of a new entry [e], a lookup of its process id
    returns [e] provided the anchor does not carry that process id (the
    anchor is compared first, the new entry second).  After
    [remove_lbr_state] of a member [e] that no member names as its
    parent, a lookup returns [e] for no process id: it returns a
    remaining member carrying the id when there is one, and [NULL]
    when no remaining member carries it. *)
Lemma find_after_insert_and_remove mode :
  (∀ m l e est fuel,
     ring m l → e ≠ NULL → e ∉ l → heap m !! e = Some est → e ∉ released m →
     (length l < fuel)%nat →
     (∀ h, head l = Some h → pid_of m h ≠ Some (pid est)) →
     ∃ m', insert_lbr_state mode e m = Ok m' ∧
           find_lbr_state mode fuel (pid est) m' = Ok e) ∧
  (∀ m l1 e l2 fuel,
     ring m (l1 ++ e :: l2) → (∀ q, q ∈ l1 ++ l2 → par m q ≠ Some e) →
     (length (l1 ++ e :: l2) ≤ fuel)%nat →
     ∃ m', remove_lbr_state mode fuel e m = Ok m' ∧
       ∀ p, ∃ r, find_lbr_state mode fuel p m' = Ok r ∧ r ≠ e ∧
         (r = NULL ∨ r ∈ l1 ++ l2 ∧ pid_of m r = Some p) ∧
         ((∀ q, q ∈ l1 ++ l2 → pid_of m q ≠ Some p) → r = NULL) ∧
         ((∃ q, q ∈ l1 ++ l2 ∧ pid_of m q = Some p) →
          r ≠ NULL ∧ r ∈ l1 ++ l2 ∧ pid_of m r = Some p)).
Proof.
  split.
  - intros m l e est fuel Hring Hn He Hest Hrel Hfuel Hhead.
    destruct (insert_ring mode _ _ _ _ Hring Hn He Hest Hrel) as (m' & Hrun & Hring' & _ & Hsd).
    exists m'. split; [done|].
    rewrite (find_spec mode m' (l ++ [e])); [|done|rewrite length_app; simpl; lia].
    f_equal. assert (Hpe : pid_of m' e = Some (pid est)).
    { rewrite (same_data_pid m m') by done. by apply pid_of_lookup. }
    destruct l as [|h t]; simpl.
    + by rewrite decide_True.
    + rewrite decide_False.
      * rewrite reverse_app. simpl. by rewrite decide_True.
      * rewrite (same_data_pid m m') by done. by apply Hhead.
  - intros m l1 e l2 fuel Hring Hpar Hfuel.
    destruct (remove_nochild mode _ _ _ _ _ Hring Hpar Hfuel) as (m' & Hrun & Hring' & _ & Hsd).
    exists m'. split; [done|]. intros p.
    assert (Hein : e ∈ l1 ++ e :: l2) by (apply elem_of_app; right; by left).
    destruct (ring_member _ _ _ Hring Hein) as (Hen & _).
    assert (Hnin : e ∉ l1 ++ l2).
    { destruct Hring as (Hnd & _). apply NoDup_app in Hnd as (_ & Hd1 & Hd2).
      apply NoDup_cons in Hd2 as [Hd2 _]. intros [H|H]%elem_of_app; [|done].
      apply (Hd1 e H). by left. }
    exists (first_match m' p (backward (l1 ++ l2))). split.
    { apply find_spec; [done|]. rewrite length_app in *. simpl in Hfuel. lia. }
    destruct (first_match_spec m' p (backward (l1 ++ l2))) as [[E Hall]|[Hin Hp]].
    + rewrite E. split; [done|]. split; [by left|]. split; [done|].
      intros (q & Hq & Hpq). exfalso. apply (Hall q).
      * by rewrite elem_of_backward.
      * by rewrite (same_data_pid m m').
    + rewrite elem_of_backward in Hin. rewrite (same_data_pid m m') in Hp by done.
      split; [by intros E; rewrite E in Hin|]. split; [by right|]. split.
      * intros Hall. by destruct (Hall _ Hin).
      * intros _. split_and!; try done.
        destruct Hring' as (_ & Hnull & _). intros E. apply Hnull. by rewrite <- E.
Qed.

(** Sequences of insertions of new entries and removals of members
    without children, from the empty store: every operation returns,
    the members form one ring, and from any member the walk along
    [next] and the walk along [prev] each meet every member once. *)
Lemma childless_ops_keep_ring mode cap os fuel :
  valid_ops [] os → (length os ≤ fuel)%nat →
  ∃ m', run_ops mode fuel os (booted cap) = Ok m' ∧
    ring m' ((entries_after [] os).*1) ∧
    ∀ p, p ∈ (entries_after [] os).*1 →
      ∃ fw bw, walk mode next fuel p p m' = Ok fw ∧ walk mode prev fuel p p m' = Ok bw ∧
        fw ≡ₚ (entries_after [] os).*1 ∧ bw ≡ₚ (entries_after [] os).*1 ∧
        length fw = length bw.
Proof.
  intros Hv Hfuel.
  destruct (run_ops_tracks mode os (booted cap) [] fuel (tracks_booted cap) Hv)
    as (m' & Hrun & Hring & _); [simpl; lia|].
  exists m'. split; [done|]. split; [done|]. intros p Hp.
  destruct (ring_walks mode m' _ p fuel Hring Hp) as (fw & bw & Hfw & Hbw & Hpf & Hpb).
  - rewrite length_fmap. pose proof (entries_after_length [] os). simpl in *. lia.
  - exists fw, bw. split_and!; try done. by rewrite Hpf, Hpb.
Qed.

(** [DUMP_LBR] for a process id no member carries: [dump_lbr] returns
    early, with the processor still pinned, and the dispatcher reports
    success. *)
Lemma ioctl_dump_missing mode ENABLE DISABLE DUMP SELECT dflt fuel param req cur a m l :
  DUMP ≠ ENABLE → DUMP ≠ DISABLE →
  ring m l → (length l ≤ fuel)%nat →
  (∀ q, q ∈ l → pid_of m q ≠ Some (req_pid req)) →
  device_ioctl mode ENABLE DISABLE DUMP SELECT dflt fuel DUMP param 0 req cur a m
  = Ok (0, get_cpu m).
Proof.
  intros H1 H2 Hring Hfuel Hall. unfold device_ioctl.
  rewrite decide_False by (intros H'; by apply H').
  rewrite !decide_False by done. rewrite decide_True by done.
  unfold dump_lbr. rewrite (find_spec mode (get_cpu m) l) by done.
  rewrite first_match_none.
  - cbn [bind]. by rewrite decide_True.
  - intros q Hq. apply Hall. by apply elem_of_backward.
Qed.

(** *** Properties the code does not have *)

(** C1. A sequence of store operations that breaks the store: insert a
    parent, insert its child, remove the parent.  The cascade of
    [remove_lbr_state] releases the child and then reads the child's
    [prev] field.  With that read an error the run stops there, for any
    fuel that lets it get that far; with released blocks still readable
    the loop never ends.  Either way the sequence does not leave a
    consistent store.  (Sequences without the removal of a parent do:
    [childless_ops_keep_ring].) *)
Theorem parent_removal_breaks_sequence :
  (∀ k, run_ops Trap (3 + k) (family_ops ++ [Remove 10]) (booted 4)
        = Fault (UseAfterFree 20)) ∧
  (∀ fuel, returns (run_ops Stale fuel (family_ops ++ [Remove 10]) (booted 4)) = false).
Proof.
  split; intros k; rewrite run_ops_app, family_run; cbn [bind run_ops run_op].
  - by rewrite family_remove_trap.
  - apply returns_bind_false. apply family_remove_stale.
Qed.

(** C2. [remove_lbr_state] on an entry with one descendant: block 10 is
    the parent of block 20.  The call does not return with the two
    entries removed: it stops at the read of the released child
    ([tmp = tmp->prev] after [remove_lbr_state(tmp)]), and with released
    blocks still readable it loops for ever.  (Any member with a child
    behaves so, [cascade_traps]; a member without children is removed
    with the other members left in their order, [remove_nochild].) *)
Theorem cascade_reads_released_child :
  (∀ k, remove_lbr_state Trap (3 + k) 10 family = Fault (UseAfterFree 20)) ∧
  (∀ fuel, returns (remove_lbr_state Stale fuel 10 family) = false).
Proof. split; [apply family_remove_trap | apply family_remove_stale]. Qed.

(** C5. Teardown of a store with two entries: the loop of
    [libiht_lkm_exit] releases the anchor and then reads its [prev]
    field, a use after free (this happens on every non-empty store,
    [exit_traps]).  If the released blocks still hold their contents the
    loop goes on to release both entries once, without a parent scan
    ([exit_stale]). *)
Theorem teardown_reads_released_entry :
  libiht_lkm_exit Trap 8 family = Fault (UseAfterFree 10) ∧
  released (machine_of (libiht_lkm_exit Stale 8 family)) = {[10; 20]} ∧
  returns (libiht_lkm_exit Stale 8 family) = true.
Proof. split_and!; vm_compute; reflexivity. Qed.

(** C6. [DUMP_LBR] for a process id without an entry: after
    [DISABLE_TRACE] for process 100 emptied the store, [DUMP_LBR] for
    process 100 returns status 0, not a negative one, and leaves the
    processor pinned ([get_cpu] without [put_cpu]).  This is so for any
    store that lacks the process id, [ioctl_dump_missing]. *)
Theorem dump_of_missing_pid_succeeds :
  ∃ m1 m2,
    sample_ioctl Trap 8 DISABLE_TRACE 0x7ffe1000 0 request_100 1 NULL traced_100 = Ok (0, m1) ∧
    lbr_state_list m1 = NULL ∧
    sample_ioctl Trap 8 DUMP_LBR 0x7ffe1000 0 request_100 1 NULL m1 = Ok (0, m2) ∧
    preempt_count m2 = preempt_count m1 + 1.
Proof. do 2 eexists. split_and!; vm_compute; reflexivity. Qed.

(** C8. [ENABLE_TRACE] with process id 0 from process 100: the new
    entry gets process id 100 and the requested filter [0xF], but
    [put_lbr] is called with the process id of the request, 0, finds no
    entry and writes no register: the selection register still holds
    what it held before.  (With a non-zero process id that the anchor
    does not carry, the registers are loaded from the new entry:
    [enable_loads_registers].) *)
Theorem enable_for_caller_loads_nothing :
  ∃ m', sample_ioctl Trap 8 ENABLE_TRACE 0x7ffe1000 0
          {| req_lbr_select := 0xF; req_pid := 0 |} 100 10 (booted 4) = Ok (0, m') ∧
    pid_of m' 10 = Some 100 ∧ lbr_select <$> (heap m' !! 10) = Some 0xF ∧
    lbr_state_list m' = 10 ∧
    rdmsrl MSR_LBR_SELECT m' = 0 ∧ msr m' = msr (booted 4).
Proof. eexists. split_and!; vm_compute; reflexivity. Qed.

(** C3. A second [ENABLE_TRACE] for a traced process is accepted.  The
    store holds block 10 for process 100.  A second request for
    process 100, whether it names the process by its id or comes from
    process 100 with id 0, is answered with status 0, not a negative
    one, and block 20 is appended with the same process id: two members
    carry process id 100.  A [DISABLE_TRACE] for process 100 then
    removes block 10 only, and the process is still traced through
    block 20.  (This is so on any store: [enable_twice_appends].) *)
Theorem second_enable_is_accepted :
  ¬ rejected (sample_ioctl Trap 8 ENABLE_TRACE 0x7ffe1000 0 request_100 1 20 traced_100) ∧
  (∃ m', sample_ioctl Trap 8 ENABLE_TRACE 0x7ffe1000 0 request_100 1 20 traced_100 = Ok (0, m') ∧
     walk Trap prev 8 10 10 m' = Ok [10; 20] ∧
     pid_of m' 10 = Some 100 ∧ pid_of m' 20 = Some 100 ∧ ¬ pids_unique m' [10; 20] ∧
     ∃ m'', sample_ioctl Trap 8 DISABLE_TRACE 0x7ffe1000 0 request_100 1 NULL m' = Ok (0, m'') ∧
       10 ∈ released m'' ∧ find_lbr_state Trap 8 100 m'' = Ok 20) ∧
  pid_of traced_100 10 = Some 100 ∧
  ∃ m', sample_ioctl Trap 8 ENABLE_TRACE 0x7ffe1000 0
          {| req_lbr_select := 0; req_pid := 0 |} 100 20 traced_100 = Ok (0, m') ∧
    walk Trap prev 8 10 10 m' = Ok [10; 20] ∧
    pid_of m' 10 = Some 100 ∧ pid_of m' 20 = Some 100 ∧ ¬ pids_unique m' [10; 20].
Proof.
  split; [|split; [|split]].
  - intros (s & m & H & Hs). vm_compute in H. injection H as <- _. lia.
  - eexists. split; [vm_compute; reflexivity|]. split_and!; try (vm_compute; reflexivity).
    + intros Hu. specialize (Hu 0%nat 1%nat 10 20 eq_refl eq_refl). vm_compute in Hu.
      specialize (Hu eq_refl). discriminate.
    + eexists. split; [vm_compute; reflexivity|]. split; [by_compute|vm_compute; reflexivity].
  - vm_compute; reflexivity.
  - eexists. split; [vm_compute; reflexivity|]. split_and!; try (vm_compute; reflexivity).
    intros Hu. specialize (Hu 0%nat 1%nat 10 20 eq_refl eq_refl). vm_compute in Hu.
    specialize (Hu eq_refl). discriminate.
Qed.

(** C9. A lookup after an insertion that does not return the inserted
    entry.  The anchor, block 10, carries process id 5; after
    [insert_lbr_state] of block 20, also with process id 5, the lookup
    of 5 returns block 10.  The dispatcher builds such a store: after a
    second [ENABLE_TRACE] for process 100 inserted block 20, the lookup
    of 100 returns block 10.  After a removal the lookup cannot be made
    at all when the removed entry has a child: [remove_lbr_state] of
    block 10, the parent of block 20, stops at the read of the released
    child.  (Without a second entry for the anchor's process id, and
    without children, lookups are as the property says:
    [find_after_insert_and_remove].) *)
Theorem find_after_insert_returns_anchor :
  (pid_of anchor_5_new_5 20 = Some 5 ∧
   ∃ m', insert_lbr_state Trap 20 anchor_5_new_5 = Ok m' ∧
         find_lbr_state Trap 8 5 m' = Ok 10 ∧ find_lbr_state Trap 8 5 m' ≠ Ok 20) ∧
  (∃ m', sample_ioctl Trap 8 ENABLE_TRACE 0x7ffe1000 0 request_100 1 20 traced_100 = Ok (0, m') ∧
         lbr_state_list m' = 10 ∧ prv m' 10 = Some 20 ∧ pid_of m' 20 = Some 100 ∧
         find_lbr_state Trap 8 100 m' = Ok 10) ∧
  (∀ k, remove_lbr_state Trap (3 + k) 10 family = Fault (UseAfterFree 20)).
Proof.
  split; [|split].
  - split; [vm_compute; reflexivity|]. eexists. split; [vm_compute; reflexivity|].
    split; [vm_compute; reflexivity|]. vm_compute. discriminate.
  - eexists. split; [vm_compute; reflexivity|]. split_and!; vm_compute; reflexivity.
  - apply family_remove_trap.
Qed.

(** *** The proved properties on concrete machines *)


Lemma insert_keeps_anchor_witness :
  ring anchor_5_new_6 [10] ∧
  ∃ m', insert_lbr_state Trap 20 anchor_5_new_6 = Ok m' ∧
    lbr_state_list m' = lbr_state_list anchor_5_new_6 ∧
    prv m' 10 = Some 20 ∧ nxt m' 20 = Some 10 ∧ ring m' [10; 20].
Proof.
  assert (Hring : ring anchor_5_new_6 [10]) by (apply ringb_sound; vm_compute; reflexivity).
  split; [exact Hring|].
  destruct (insert_keeps_anchor Trap anchor_5_new_6 10 [] 20 (with_pid 6 (zero_state 4)))
    as (m' & H1 & H2 & H3 & H4 & H5 & H6 & H7 & H8 & H9 & H10 & H11 & H12 & H13).
  - exact Hring.
  - unfold NULL. lia.
  - intros H%list_elem_of_singleton. lia.
  - vm_compute. reflexivity.
  - by_compute.
  - exists m'. split_and!; assumption.
Defined.

Lemma ioctl_rejects_before_mutation_witness :
  (∃ s, s < 0 ∧
     sample_ioctl Trap 4 ENABLE_TRACE 0x7ffe1000 8 request_100 1 20 traced_100
     = Ok (s, traced_100)) ∧
  (∃ s, s < 0 ∧
     sample_ioctl Trap 4 99 0x7ffe1000 0 request_100 1 20 traced_100
     = Ok (s, traced_100)).
Proof.
  split.
  - apply (ioctl_rejects_before_mutation Trap ENABLE_TRACE DISABLE_TRACE DUMP_LBR SELECT_LBR
             DEFAULT_SELECT 4 ENABLE_TRACE 0x7ffe1000 8 request_100 1 20 traced_100).
    left. lia.
  - apply (ioctl_rejects_before_mutation Trap ENABLE_TRACE DISABLE_TRACE DUMP_LBR SELECT_LBR
             DEFAULT_SELECT 4 99 0x7ffe1000 0 request_100 1 20 traced_100).
    right. unfold ENABLE_TRACE, DISABLE_TRACE, DUMP_LBR, SELECT_LBR. lia.
Defined.

Lemma save_restore_roundtrip_witness :
  ring traced_busy [10] ∧ snapshots_sized traced_busy [10] ∧
  pid_of traced_busy 10 = Some 100 ∧
  ∃ m1 m2, save_lbr Trap 1 100 traced_busy = Ok m1 ∧ msr m1 = msr traced_busy ∧
    restore_lbr Trap 1 100 (with_msr ∅ m1) = Ok m2 ∧
    (∀ r, lbr_msr 4 r → rdmsrl r m2 = rdmsrl r traced_busy) ∧
    (∀ r, ¬ lbr_msr 4 r → rdmsrl r m2 = default 0 ((∅ : gmap Z Z) !! r)) ∧
    heap m2 = heap m1 ∧ ring m2 [10].
Proof.
  assert (Hring : ring traced_busy [10]) by (apply ringb_sound; vm_compute; reflexivity).
  assert (Hsz : snapshots_sized traced_busy [10]) by (apply sizedb_sound; vm_compute; reflexivity).
  assert (Hpid : pid_of traced_busy 10 = Some 100) by (vm_compute; reflexivity).
  split; [exact Hring|]. split; [exact Hsz|]. split; [exact Hpid|].
  apply (save_restore_roundtrip Trap traced_busy [10] 100 10 1 ∅ Hring Hsz).
  - simpl. lia.
  - apply list_elem_of_here.
  - exact Hpid.
Defined.

Lemma enable_twice_appends_witness :
  ∃ m', sample_ioctl Trap 8 ENABLE_TRACE 0x7ffe1000 0 request_100 1 20 traced_100 = Ok (0, m') ∧
    ring m' [10; 20] ∧ pid_of m' 10 = Some 100 ∧ pid_of m' 20 = Some 100.
Proof.
  destruct (enable_twice_appends Trap ENABLE_TRACE DISABLE_TRACE DUMP_LBR SELECT_LBR
              DEFAULT_SELECT 8 0x7ffe1000 request_100 1 20 traced_100 [10] 10)
    as [(m' & H1 & H2 & H3 & H4 & H5 & H6) _].
  - apply ringb_sound. vm_compute. reflexivity.
  - apply sizedb_sound. vm_compute. reflexivity.
  - simpl. lia.
  - apply list_elem_of_here.
  - vm_compute. reflexivity.
  - unfold NULL. lia.
  - intros H%list_elem_of_singleton. lia.
  - exists m'. split_and!; assumption.
Defined.

Lemma find_after_insert_and_remove_witness :
  (∃ m', insert_lbr_state Trap 20 anchor_5_new_6 = Ok m' ∧
         find_lbr_state Trap 2 6 m' = Ok 20) ∧
  (∃ m', remove_lbr_state Trap 2 20 family = Ok m' ∧
     ∀ p, ∃ r, find_lbr_state Trap 2 p m' = Ok r ∧ r ≠ 20 ∧
       (r = NULL ∨ r ∈ [10] ∧ pid_of family r = Some p) ∧
       ((∀ q, q ∈ [10] → pid_of family q ≠ Some p) → r = NULL) ∧
       ((∃ q, q ∈ [10] ∧ pid_of family q = Some p) →
        r ≠ NULL ∧ r ∈ [10] ∧ pid_of family r = Some p)).
Proof.
  destruct (find_after_insert_and_remove Trap) as [Hins Hrem]. split.
  - apply (Hins anchor_5_new_6 [10] 20 (with_pid 6 (zero_state 4)) 2%nat).
    + apply ringb_sound. vm_compute. reflexivity.
    + unfold NULL. lia.
    + intros H%list_elem_of_singleton. lia.
    + vm_compute. reflexivity.
    + by_compute.
    + simpl. lia.
    + intros h Hh. injection Hh as <-. by_compute.
  - apply (Hrem family [10] 20 [] 2%nat).
    + apply ringb_sound. vm_compute. reflexivity.
    + intros q Hq%list_elem_of_singleton. subst q. by_compute.
    + simpl. lia.
Defined.

(** ** Further properties of the store *)

Lemma store_okb_sound m l : store_okb m l = true → store_ok m l.
Proof.
  unfold store_okb. rewrite !andb_true_iff. intros [[H1 H2] H3].
  split_and!; [by apply ringb_sound | by apply sizedb_sound |].
  intros q Hq. rewrite forallb_forall in H3. apply list_elem_of_In in Hq.
  specialize (H3 q Hq). by apply bool_decide_eq_true in H3.
Qed.

Lemma first_match_app_none m p a b :
  (∀ q, q ∈ a → pid_of m q ≠ Some p) →
  first_match m p (a ++ b) = first_match m p b.
Proof.
  induction a as [|x a IH]; simpl; [done|]. intros H.
  rewrite decide_False by (apply H; by left).
  apply IH. intros q Hq. apply H. by right.
Qed.

(** A block is its payload and its two links. *)
Lemma lookup_from_views m m' q :
  payload m' q = payload m q → nxt m' q = nxt m q → prv m' q = prv m q →
  heap m' !! q = heap m !! q.
Proof.
  unfold payload, nxt, prv.
  destruct (heap m' !! q) as [[]|], (heap m !! q) as [[]|]; simpl; try done.
  intros Hp Hn Hv. injection Hp; intros; simplify_eq. done.
Qed.

(** A segment fixes the link of each of its elements. *)
Lemma seg_det g g' l e :
  NoDup l → seg g l e → seg g' l e → ∀ x, x ∈ l → g' x = g x.
Proof.
  induction l as [|y l IH]; intros Hnd H H' x Hx; [by apply elem_of_nil in Hx|].
  simpl in H, H'. destruct H as [H1 H2], H' as [H1' H2'].
  apply NoDup_cons in Hnd as [_ Hnd].
  apply elem_of_cons in Hx as [->|Hx]; [congruence|]. by apply IH.
Qed.

(** X1. On a well-formed store [find_lbr_state] returns, given fuel for
    one round: [NULL] exactly when no member carries the process id,
    and otherwise a member that carries it. *)
Theorem find_returns_carrier_or_null mode m l p fuel :
  ring m l → (length l ≤ fuel)%nat →
  ∃ s, find_lbr_state mode fuel p m = Ok s ∧
    (s = NULL ∧ (∀ q, q ∈ l → pid_of m q ≠ Some p) ∨
     s ≠ NULL ∧ s ∈ l ∧ pid_of m s = Some p).
Proof.
  intros Hring Hfuel. exists (first_match m p (backward l)).
  split; [by apply find_spec|].
  destruct (first_match_spec m p (backward l)) as [[H1 H2]|[H1 H2]].
  - left. split; [done|]. intros q Hq. apply H2. by apply elem_of_backward.
  - right. rewrite elem_of_backward in H1. split_and!; try done.
    by destruct (ring_member _ _ _ Hring H1).
Qed.

(** X2. When several members carry the process id, [find_lbr_state]
    returns the anchor if the anchor is one of them, and otherwise the
    one inserted last: the loop compares the anchor first and then
    walks [prev], from the newest entry to the oldest. *)
Theorem find_prefers_anchor_then_latest mode m h t p fuel :
  ring m (h :: t) → (length (h :: t) ≤ fuel)%nat →
  (pid_of m h = Some p → find_lbr_state mode fuel p m = Ok h) ∧
  (∀ t1 s t2, t = t1 ++ s :: t2 →
     pid_of m h ≠ Some p → pid_of m s = Some p →
     (∀ q, q ∈ t2 → pid_of m q ≠ Some p) →
     find_lbr_state mode fuel p m = Ok s).
Proof.
  intros Hring Hfuel. rewrite (find_spec mode m (h :: t) p fuel Hring Hfuel). simpl.
  split.
  - intros Hh. by rewrite decide_True.
  - intros t1 s t2 -> Hh Hs Ht2. rewrite decide_False by done.
    rewrite reverse_app, reverse_cons, <- app_assoc.
    rewrite first_match_app_none.
    + simpl. by rewrite decide_True.
    + intros q Hq. apply Ht2. by rewrite elem_of_reverse in Hq.
Qed.

(** X3. [insert_lbr_state] on the empty store: the new entry becomes
    the anchor and its own successor and predecessor; no other block
    and nothing outside the heap changes. *)
Theorem insert_into_empty_store mode m e est :
  lbr_state_list m = NULL → e ≠ NULL → heap m !! e = Some est → e ∉ released m →
  ∃ m', insert_lbr_state mode e m = Ok m' ∧
    lbr_state_list m' = e ∧ nxt m' e = Some e ∧ prv m' e = Some e ∧
    ring m' [e] ∧ payload m' e = Some (strip est) ∧
    (∀ q, q ≠ e → heap m' !! q = heap m !! q) ∧
    released m' = released m ∧ msr m' = msr m.
Proof.
  intros Hl Hn Hest Hrel.
  assert (Hring : ring m []).
  { unfold ring, cseg. simpl. split_and!; try done.
    - constructor.
    - intros H. by apply elem_of_nil in H.
    - intros q H. by apply elem_of_nil in H. }
  destruct (insert_empty mode _ _ _ Hring Hn Hest Hrel) as (m' & Hrun & Hl' & Hlo & Hnx & Hpv).
  destruct (insert_ring mode _ _ _ _ Hring Hn (not_elem_of_nil e) Hest Hrel)
    as (m'' & Hrun' & Hring' & _).
  rewrite Hrun in Hrun'. injection Hrun' as <-.
  destruct Hlo as (Hre & Hms & _ & _ & Hpl).
  exists m'. split_and!; try done.
  - rewrite Hnx. by rewrite decide_True.
  - rewrite Hpv. by rewrite decide_True.
  - rewrite Hpl. unfold payload. by rewrite Hest.
  - intros q Hq. apply lookup_from_views; [apply Hpl| |].
    + rewrite Hnx. by rewrite decide_False.
    + rewrite Hpv. by rewrite decide_False.
Qed.

(** X4. [remove_lbr_state] of a member that no member names as its
    parent: the call returns, the remaining members keep their order,
    the anchor moves (to the successor, or to [NULL]) only if the
    anchor itself was removed, exactly the removed block is released,
    and no field other than links changes in any block. *)
Theorem remove_childless_member mode m l1 e l2 fuel :
  ring m (l1 ++ e :: l2) →
  (∀ q, q ∈ l1 ++ l2 → par m q ≠ Some e) →
  (length (l1 ++ e :: l2) ≤ fuel)%nat →
  ∃ m', remove_lbr_state mode fuel e m = Ok m' ∧
    ring m' (l1 ++ l2) ∧
    lbr_state_list m' = (if decide (l1 = []) then hd NULL l2 else lbr_state_list m) ∧
    released m' = {[e]} ∪ released m ∧
    (∀ q, payload m' q = payload m q) ∧
    msr m' = msr m ∧ preempt_count m' = preempt_count m.
Proof.
  intros Hring Hpar Hfuel.
  destruct (remove_nochild mode _ _ _ _ _ Hring Hpar Hfuel)
    as (m' & Hrun & Hring' & Hrel & Hms & Hcap & Hpc & Hpl).
  exists m'. split_and!; try done.
  destruct Hring' as (_ & _ & _ & _ & _ & ->).
  destruct Hring as (_ & _ & _ & _ & _ & ->).
  case_decide as Hl1; [by subst l1|]. by destruct l1.
Qed.

(** X5. Removing the only entry twice: the first call empties the
    store and releases the block; the second call, on the stale
    pointer, returns at the test of the anchor and releases nothing a
    second time. *)
Theorem remove_sole_entry_twice mode m e fuel :
  ring m [e] → (1 ≤ fuel)%nat →
  ∃ m', remove_lbr_state mode fuel e m = Ok m' ∧
    lbr_state_list m' = NULL ∧ e ∈ released m' ∧
    remove_lbr_state mode fuel e m' = Ok m'.
Proof.
  intros Hring Hfuel.
  destruct (remove_nochild mode m [] e [] fuel Hring) as (m' & Hrun & Hring' & Hrel & _).
  { intros q Hq. by apply elem_of_nil in Hq. }
  { done. }
  exists m'. split_and!; try done.
  - by destruct Hring' as (_ & _ & _ & _ & _ & ->).
  - rewrite Hrel. apply elem_of_union. left. by apply elem_of_singleton.
  - destruct fuel as [|fuel]; [lia|]. rewrite remove_lbr_state_eq.
    destruct (ring_member _ _ _ Hring (list_elem_of_here e [])) as (Hn & _).
    rewrite decide_False by done. rewrite decide_True; [done|].
    by destruct Hring' as (_ & _ & _ & _ & _ & ->).
Qed.

(** X6. Insertion followed by removal of the same entry is a round
    trip: the members are the ones before, in their order, under the
    same anchor, and every member's block is what it was; the entry's
    block is released. *)
Theorem insert_remove_round_trip mode m l e est fuel :
  ring m l → e ≠ NULL → e ∉ l → heap m !! e = Some est → e ∉ released m →
  (∀ q, q ∈ l → par m q ≠ Some e) → (length l < fuel)%nat →
  ∃ m1 m2, insert_lbr_state mode e m = Ok m1 ∧
    remove_lbr_state mode fuel e m1 = Ok m2 ∧
    ring m2 l ∧ lbr_state_list m2 = lbr_state_list m ∧
    (∀ q, q ∈ l → heap m2 !! q = heap m !! q) ∧
    released m2 = {[e]} ∪ released m ∧ msr m2 = msr m.
Proof.
  intros Hring Hn He Hest Hrel Hpar Hfuel.
  destruct (insert_ring mode _ _ _ _ Hring Hn He Hest Hrel) as (m1 & Hrun1 & Hring1 & Hlo1).
  destruct Hlo1 as (Hre1 & Hsd1).
  destruct (remove_nochild mode m1 l e [] fuel) as (m2 & Hrun2 & Hring2 & Hrel2 & Hsd2).
  { done. }
  { rewrite app_nil_r. intros q Hq. rewrite (links_only_par m m1 q Hsd1). by apply Hpar. }
  { rewrite length_app. simpl. lia. }
  rewrite app_nil_r in Hring2.
  exists m1, m2. split_and!; try done.
  - destruct Hring2 as (_ & _ & _ & _ & _ & ->). by destruct Hring as (_ & _ & _ & _ & _ & ->).
  - intros q Hq.
    destruct Hsd1 as (_ & _ & _ & Hp1), Hsd2 as (_ & _ & _ & Hp2).
    destruct Hring as (Hnd & _ & _ & Hnx & Hpv & _).
    destruct Hring2 as (_ & _ & _ & Hnx2 & Hpv2 & _).
    apply lookup_from_views.
    + by rewrite Hp2, Hp1.
    + by apply (seg_det _ _ l (hd NULL l)).
    + apply (seg_det _ _ (reverse l) (hd NULL (reverse l))); try done.
      * by rewrite reverse_Permutation.
      * by rewrite elem_of_reverse.
  - by rewrite Hrel2, Hre1.
  - destruct Hsd1 as (E1 & _), Hsd2 as (E2 & _). by rewrite E2, E1.
Qed.

(** ** Further properties of the register helpers *)

Lemma lbr_pair_msr_dec i n r : lbr_pair_msr i n r ∨ ¬ lbr_pair_msr i n r.
Proof. unfold lbr_pair_msr. lia. Qed.

Lemma lbr_msr_dec c r : lbr_msr c r ∨ ¬ lbr_msr c r.
Proof. unfold lbr_msr, lbr_pair_msr. lia. Qed.

Lemma lbr_msr_not_debugctl c r : lbr_msr c r → r ≠ MSR_IA32_DEBUGCTLMSR.
Proof.
  unfold lbr_msr, lbr_pair_msr, MSR_LBR_SELECT, MSR_LBR_TOS,
    MSR_LBR_NHM_FROM, MSR_LBR_NHM_TO, MSR_IA32_DEBUGCTLMSR. lia.
Qed.

Lemma flush_loop_spec n : ∀ i m,
  msr_only m (flush_loop n i m) ∧
  (∀ r, lbr_pair_msr i (Z.of_nat n) r → rdmsrl r (flush_loop n i m) = 0) ∧
  (∀ r, ¬ lbr_pair_msr i (Z.of_nat n) r → rdmsrl r (flush_loop n i m) = rdmsrl r m).
Proof.
  induction n as [|n IH]; intros i m.
  - simpl. split_and!; [done| |done]. unfold lbr_pair_msr. intros r. lia.
  - cbn [flush_loop].
    destruct (IH (i + 1) (wrmsrl (MSR_LBR_NHM_TO + i) 0 (wrmsrl (MSR_LBR_NHM_FROM + i) 0 m)))
      as (Hmo & Hin & Hout).
    split_and!.
    + destruct Hmo as (? & ? & ? & ? & ?). done.
    + intros r Hr.
      destruct (lbr_pair_msr_dec (i + 1) (Z.of_nat n) r) as [Hr'|Hr'].
      * by apply Hin.
      * rewrite Hout by done. rewrite !rdmsrl_wrmsrl.
        repeat case_decide; try done. unfold lbr_pair_msr in *. lia.
    + intros r Hr. rewrite Hout by (unfold lbr_pair_msr in *; lia).
      rewrite !rdmsrl_wrmsrl.
      repeat case_decide; try done; unfold lbr_pair_msr in *; lia.
Qed.

Lemma flush_lbr_spec enable m :
  (∀ r, lbr_msr (lbr_capacity m) r → rdmsrl r (flush_lbr enable m) = 0) ∧
  rdmsrl MSR_IA32_DEBUGCTLMSR (flush_lbr enable m)
    = (if enable then DEBUGCTLMSR_LBR else 0) ∧
  (∀ r, ¬ lbr_msr (lbr_capacity m) r → r ≠ MSR_IA32_DEBUGCTLMSR →
        rdmsrl r (flush_lbr enable m) = rdmsrl r m) ∧
  msr_only m (flush_lbr enable m).
Proof.
  unfold flush_lbr.
  set (m1 := wrmsrl MSR_LBR_TOS 0 (wrmsrl MSR_LBR_SELECT 0 m)).
  assert (Hc : lbr_capacity m1 = lbr_capacity m) by done.
  destruct (flush_loop_spec (Z.to_nat (lbr_capacity m1)) 0 m1) as (Hmo & Hin & Hout).
  set (m2 := flush_loop _ 0 m1) in *. clearbody m2.
  assert (Hm1 : ∀ r, rdmsrl r m1 =
            if decide (r = MSR_LBR_TOS) then 0
            else if decide (r = MSR_LBR_SELECT) then 0 else rdmsrl r m).
  { intros r. subst m1. by rewrite !rdmsrl_wrmsrl. }
  assert (Hall : ∀ r, lbr_msr (lbr_capacity m) r → rdmsrl r m2 = 0).
  { intros r Hr.
    destruct (lbr_pair_msr_dec 0 (Z.of_nat (Z.to_nat (lbr_capacity m1))) r) as [Hp|Hp].
    - by apply Hin.
    - rewrite Hout by done. rewrite Hm1. repeat case_decide; try done.
      exfalso. apply Hp. rewrite Hc. apply lbr_pair_msr_cap.
      by destruct Hr as [?|[?|?]]. }
  assert (Hrest : ∀ r, ¬ lbr_msr (lbr_capacity m) r → rdmsrl r m2 = rdmsrl r m).
  { intros r Hr. rewrite Hout.
    - rewrite Hm1. unfold lbr_msr in Hr. repeat case_decide; try done; tauto.
    - rewrite Hc. rewrite lbr_pair_msr_cap. unfold lbr_msr in Hr. tauto. }
  assert (Hmo2 : msr_only m m2).
  { destruct Hmo as (? & ? & ? & ? & ?). done. }
  destruct enable; split_and!.
  all: try (intros r Hr; rewrite rdmsrl_wrmsrl;
            rewrite decide_False by (by apply (lbr_msr_not_debugctl (lbr_capacity m)));
            by apply Hall).
  all: try (rewrite rdmsrl_wrmsrl; by rewrite decide_True).
  all: try (intros r Hr Hne; rewrite rdmsrl_wrmsrl; rewrite decide_False by done;
            by apply Hrest).
  all: destruct Hmo2 as (? & ? & ? & ? & ?); done.
Qed.

(** X7. [flush_lbr] zeroes the selection register, the top-of-stack
    register and every from/to register below the capacity, and writes
    the debug control register as a whole: to the trace-enable bit
    alone, or to 0.  No other register and nothing outside the
    registers changes. *)
Theorem flush_lbr_clears enable m :
  (∀ r, lbr_msr (lbr_capacity m) r → rdmsrl r (flush_lbr enable m) = 0) ∧
  rdmsrl MSR_IA32_DEBUGCTLMSR (flush_lbr enable m)
    = (if enable then DEBUGCTLMSR_LBR else 0) ∧
  (∀ r, ¬ lbr_msr (lbr_capacity m) r → r ≠ MSR_IA32_DEBUGCTLMSR →
        rdmsrl r (flush_lbr enable m) = rdmsrl r m) ∧
  heap (flush_lbr enable m) = heap m ∧ released (flush_lbr enable m) = released m ∧
  lbr_state_list (flush_lbr enable m) = lbr_state_list m ∧
  preempt_count (flush_lbr enable m) = preempt_count m.
Proof.
  destruct (flush_lbr_spec enable m) as (H1 & H2 & H3 & H4 & H5 & H6 & _ & H7).
  split_and!; done.
Qed.

Lemma flush_lbr_reads b m r :
  rdmsrl r (flush_lbr b m) = (if b then DEBUGCTLMSR_LBR else 0) ∧ r = MSR_IA32_DEBUGCTLMSR ∨
  rdmsrl r (flush_lbr b m) = 0 ∧ r ≠ MSR_IA32_DEBUGCTLMSR ∧ lbr_msr (lbr_capacity m) r ∨
  rdmsrl r (flush_lbr b m) = rdmsrl r m ∧ r ≠ MSR_IA32_DEBUGCTLMSR ∧ ¬ lbr_msr (lbr_capacity m) r.
Proof.
  destruct (flush_lbr_spec b m) as (H1 & H2 & H3 & _).
  destruct (decide (r = MSR_IA32_DEBUGCTLMSR)) as [->|Hr]; [by left|].
  destruct (lbr_msr_dec (lbr_capacity m) r) as [Hl|Hl].
  - right. left. split_and!; auto.
  - right. right. split_and!; auto.
Qed.

(** X8. [enable_lbr] and [disable_lbr] give preemption back as they
    found it and touch registers only; afterwards the debug control
    register holds the trace-enable bit, respectively 0, and every
    other register reads the same after either; disabling after
    enabling leaves the registers as disabling alone. *)
Theorem enable_disable_lbr m :
  msr_only m (enable_lbr m) ∧ msr_only m (disable_lbr m) ∧
  rdmsrl MSR_IA32_DEBUGCTLMSR (enable_lbr m) = DEBUGCTLMSR_LBR ∧
  rdmsrl MSR_IA32_DEBUGCTLMSR (disable_lbr m) = 0 ∧
  (∀ r, r ≠ MSR_IA32_DEBUGCTLMSR → rdmsrl r (enable_lbr m) = rdmsrl r (disable_lbr m)) ∧
  (∀ r, rdmsrl r (disable_lbr (enable_lbr m)) = rdmsrl r (disable_lbr m)).
Proof.
  assert (Hpre : ∀ m0 c r, rdmsrl r (with_preempt c m0) = rdmsrl r m0) by done.
  assert (Hmo : ∀ b m0, msr_only m0 (flush_lbr b m0)).
  { intros b m0. by destruct (flush_lbr_spec b m0) as (_ & _ & _ & ?). }
  assert (Hen : msr_only m (enable_lbr m)).
  { unfold enable_lbr, put_cpu, get_cpu.
    destruct (Hmo true (with_preempt (preempt_count m + 1) m)) as (H1 & H2 & H3 & H4 & Hp).
    unfold msr_only. cbn [heap released lbr_state_list lbr_capacity preempt_count with_preempt].
    rewrite H1, H2, H3, H4, Hp. simpl. split_and!; try done. lia. }
  assert (Hdis : ∀ m0, msr_only m0 (disable_lbr m0)).
  { intros m0. unfold disable_lbr, put_cpu, get_cpu.
    destruct (Hmo false (wrmsrl MSR_LBR_SELECT 0 (with_preempt (preempt_count m0 + 1) m0)))
      as (H1 & H2 & H3 & H4 & Hp).
    unfold msr_only. cbn [heap released lbr_state_list lbr_capacity preempt_count with_preempt].
    rewrite H1, H2, H3, H4, Hp. simpl. split_and!; try done. lia. }
  assert (Hd : ∀ m0 r, rdmsrl r (disable_lbr m0) =
             if decide (r = MSR_IA32_DEBUGCTLMSR) then 0
             else rdmsrl r (flush_lbr true m0)).
  { intros m0 r. unfold disable_lbr, put_cpu, get_cpu. rewrite Hpre.
    set (m1 := wrmsrl MSR_LBR_SELECT 0 _).
    assert (Hc1 : lbr_capacity m1 = lbr_capacity m0) by done.
    destruct (flush_lbr_reads false m1 r) as [[E ->]|[(E & Hr & Hl)|(E & Hr & Hl)]];
      rewrite E; [by rewrite decide_True| |]; rewrite decide_False by done.
    - rewrite Hc1 in Hl.
      destruct (flush_lbr_reads true m0 r) as [[_ ?]|[(E' & _ & _)|(_ & _ & Hl')]];
        done.
    - rewrite Hc1 in Hl.
      destruct (flush_lbr_reads true m0 r) as [[_ ?]|[(_ & _ & Hl')|(E' & _ & _)]];
        try done.
      rewrite E'. subst m1. rewrite rdmsrl_wrmsrl, Hpre.
      rewrite decide_False; [done|]. intros ->. apply Hl. by left. }
  assert (He : ∀ r, rdmsrl r (enable_lbr m) = rdmsrl r (flush_lbr true m)).
  { intros r. unfold enable_lbr, put_cpu, get_cpu. rewrite Hpre.
    destruct (flush_lbr_reads true (with_preempt (preempt_count m + 1) m) r)
      as [[E ->]|[(E & Hr & Hl)|(E & Hr & Hl)]]; rewrite E; try (simpl in Hl).
    - destruct (flush_lbr_reads true m MSR_IA32_DEBUGCTLMSR)
        as [[E' _]|[(_ & ? & _)|(_ & ? & _)]]; done.
    - destruct (flush_lbr_reads true m r) as [[_ ?]|[(E' & _ & _)|(_ & _ & Hl')]]; done.
    - destruct (flush_lbr_reads true m r) as [[_ ?]|[(_ & _ & Hl')|(E' & _ & _)]]; done. }
  split_and!; try done.
  - rewrite He. by destruct (flush_lbr_spec true m) as (_ & -> & _).
  - intros r Hr. rewrite Hd, He. by rewrite decide_False.
  - intros r. rewrite !Hd. case_decide; [done|].
    destruct Hen as (_ & _ & _ & Hc & _).
    destruct (flush_lbr_reads true (enable_lbr m) r)
      as [[_ ?]|[(E & _ & Hl)|(E & _ & Hl)]]; [done| |]; rewrite E; rewrite Hc in Hl.
    + destruct (flush_lbr_reads true m r) as [[_ ?]|[(E' & _ & _)|(_ & _ & Hl')]]; done.
    + rewrite He. done.
Qed.

(** ** Further properties of the hooks *)

Lemma snapshot_of_msr m0 m1 st : msr m1 = msr m0 → snapshot_of m0 st → snapshot_of m1 st.
Proof. unfold snapshot_of, pairs_of, rdmsrl. by intros ->. Qed.


(** X9. [sched_out] for a traced process copies the registers into the
    entry [find_lbr_state] returns for it: afterwards that entry holds
    the selection register, the top-of-stack register and every
    from/to pair; its process id, links and parent, every other block
    and every register are as before. *)
Theorem sched_out_snapshots mode m l p fuel s :
  ring m l → snapshots_sized m l → (length l ≤ fuel)%nat →
  s ∈ l → pid_of m s = Some p →
  ∃ m' t st st', sched_out mode fuel p m = Ok m' ∧
    find_lbr_state mode fuel p m = Ok t ∧ t ∈ l ∧
    heap m !! t = Some st ∧ heap m' = <[t := st']> (heap m) ∧
    snapshot_of m st' ∧ length (entries st') = Z.to_nat (lbr_capacity m) ∧
    pid st' = pid st ∧ prev st' = prev st ∧ next st' = next st ∧
    parent st' = parent st ∧
    msr m' = msr m ∧ released m' = released m ∧ ring m' l.
Proof.
  intros Hring Hsz Hfuel Hs Hp.
  assert (Hfm : first_match m p (backward l) ≠ NULL).
  { apply (first_match_found m p (backward l) s); try done.
    - rewrite elem_of_backward. by destruct Hring as (_ & ? & _).
    - by rewrite elem_of_backward. }
  destruct (get_lbr_spec mode m l p fuel Hring Hsz Hfuel Hfm)
    as (m' & st & st' & Hget & Hst & Hh & (Hr & Hl & Hc & Hmsr & Hpc)
        & Hpid & Hprev & Hnext & Hpa & Hlen & Hsnap).
  destruct (first_match_member _ _ _ Hfm) as [Hin _]. rewrite elem_of_backward in Hin.
  exists m', (first_match m p (backward l)), st, st'. split_and!; try done.
  - unfold sched_out, save_lbr. rewrite (find_spec mode m l p fuel) by done. cbn [bind].
    by rewrite decide_False.
  - by apply find_spec.
  - by apply (ring_update m m' l (first_match m p (backward l)) st st').
Qed.

(** X10. For a process without an entry both context switch hooks
    return with the machine as they found it: [sched_out] saves
    nothing, and [sched_in] neither loads nor clears a register. *)
Theorem hooks_skip_untraced mode m l p fuel :
  ring m l → (length l ≤ fuel)%nat →
  (∀ q, q ∈ l → pid_of m q ≠ Some p) →
  sched_out mode fuel p m = Ok m ∧ sched_in mode fuel p m = Ok m.
Proof.
  intros Hring Hfuel Hnone.
  assert (Hfm : first_match m p (backward l) = NULL).
  { apply first_match_none. intros q Hq. apply Hnone. by rewrite elem_of_backward in Hq. }
  unfold sched_out, sched_in, save_lbr, restore_lbr.
  rewrite (find_spec mode m l p fuel) by done. rewrite Hfm. cbn [bind].
  by rewrite decide_True.
Qed.

Lemma put_lbr_loop_reads mode n : ∀ i s m st,
  heap m !! s = Some st → s ∉ released m →
  (i + n ≤ length (entries st))%nat → (i + n ≤ 64)%nat →
  ∃ m', put_lbr_loop mode n (Z.of_nat i) s m = Ok m' ∧
    ∀ j e, (i ≤ j < i + n)%nat → entries st !! j = Some e →
      rdmsrl (MSR_LBR_NHM_FROM + Z.of_nat j) m' = from e ∧
      rdmsrl (MSR_LBR_NHM_TO + Z.of_nat j) m' = to e.
Proof.
  induction n as [|n IH]; intros i s m st Hst Hr Hlen Hcap.
  - exists m. split; [done|]. intros j e Hj. lia.
  - cbn [put_lbr_loop]. unfold load_entry.
    rewrite (load_live mode s st) by done. cbn [bind]. rewrite Nat2Z.id.
    destruct (lookup_lt_is_Some_2 (entries st) i) as [e He]; [lia|]. rewrite He.
    cbn [bind]. rewrite (load_live mode s st) by done. cbn [bind]. rewrite He. cbn [bind].
    set (m2 := wrmsrl _ _ (wrmsrl _ _ m)).
    replace (Z.of_nat i + 1) with (Z.of_nat (S i)) by lia.
    destruct (IH (S i) s m2 st) as (m' & Hrun & Hreads); try done; [lia|lia|].
    destruct (put_lbr_loop_spec mode n (S i) s m2 st) as (m'' & Hrun' & _ & Hout & _);
      try done; [lia|].
    rewrite Hrun in Hrun'. injection Hrun' as <-.
    exists m'. split; [done|]. intros j e' Hj He'.
    destruct (decide (j = i)) as [->|Hji].
    + rewrite He in He'. injection He' as <-.
      rewrite !Hout by (unfold lbr_pair_msr, MSR_LBR_NHM_FROM, MSR_LBR_NHM_TO; lia).
      subst m2. rewrite !rdmsrl_wrmsrl.
      split; repeat case_decide; try done;
        unfold MSR_LBR_NHM_FROM, MSR_LBR_NHM_TO in *; lia.
    + apply Hreads; [lia|done].
Qed.

(** What [put_lbr] leaves in the registers when it finds an entry of
    full size. *)
Lemma put_lbr_reads mode m l p fuel :
  ring m l → snapshots_sized m l → (length l ≤ fuel)%nat →
  first_match m p (backward l) ≠ NULL →
  ∃ m' st, put_lbr mode fuel p m = Ok m' ∧
    heap m !! first_match m p (backward l) = Some st ∧
    rdmsrl MSR_LBR_SELECT m' = lbr_select st ∧
    rdmsrl MSR_LBR_TOS m' = lbr_tos st ∧
    (lbr_capacity m ≤ 64 → ∀ i e, entries st !! i = Some e →
       rdmsrl (MSR_LBR_NHM_FROM + Z.of_nat i) m' = from e ∧
       rdmsrl (MSR_LBR_NHM_TO + Z.of_nat i) m' = to e) ∧
    (∀ r, ¬ lbr_msr (lbr_capacity m) r → rdmsrl r m' = rdmsrl r m) ∧
    msr_only m m'.
Proof.
  intros Hring Hsz Hfuel Hfm.
  set (t := first_match m p (backward l)) in *.
  destruct (first_match_member _ _ _ Hfm) as [Hin _]. fold t in Hin.
  rewrite elem_of_backward in Hin.
  destruct (ring_member _ _ _ Hring Hin) as (_ & Hr & st & Hst).
  pose proof (Hsz t st Hin Hst) as Hlen.
  assert (Hfind : find_lbr_state mode fuel p m = Ok t) by (by apply find_spec).
  unfold put_lbr. rewrite Hfind. cbn [bind]. rewrite decide_False by done.
  rewrite (load_live mode t st) by done. cbn [bind].
  rewrite (load_live mode t st) by done. cbn [bind].
  set (m2 := wrmsrl _ _ (wrmsrl _ _ m)).
  destruct (put_lbr_loop_spec mode (Z.to_nat (lbr_capacity m)) 0%nat t m2 st)
    as (m' & Hrun & Hmo & Hout & _); try done; [simpl; lia|].
  assert (Hsel : ∀ c, ¬ lbr_pair_msr (Z.of_nat 0) c MSR_LBR_SELECT).
  { intros c. unfold lbr_pair_msr, MSR_LBR_SELECT, MSR_LBR_NHM_FROM, MSR_LBR_NHM_TO. lia. }
  assert (Htos : ∀ c, ¬ lbr_pair_msr (Z.of_nat 0) c MSR_LBR_TOS).
  { intros c. unfold lbr_pair_msr, MSR_LBR_TOS, MSR_LBR_NHM_FROM, MSR_LBR_NHM_TO. lia. }
  exists m', st. split; [exact Hrun|]. split_and!; try done.
  - rewrite Hout by apply Hsel. subst m2. rewrite !rdmsrl_wrmsrl.
    rewrite decide_False by done. by rewrite decide_True.
  - rewrite Hout by apply Htos. subst m2. rewrite !rdmsrl_wrmsrl.
    by rewrite decide_True.
  - intros Hcap i e He.
    destruct (put_lbr_loop_reads mode (Z.to_nat (lbr_capacity m)) 0%nat t m2 st)
      as (m'' & Hrun' & Hreads); try done; [simpl; lia|simpl; lia|].
    rewrite Hrun in Hrun'. injection Hrun' as <-.
    apply Hreads; [|done]. apply lookup_lt_Some in He. lia.
  - intros r Hrng. rewrite Hout.
    + subst m2. rewrite !rdmsrl_wrmsrl. unfold lbr_msr in Hrng.
      rewrite !decide_False; [done| |]; intros ->; tauto.
    + rewrite lbr_pair_msr_cap. unfold lbr_msr in Hrng. tauto.
Qed.

(** X11. [sched_in] for a traced process loads the registers from the
    entry [find_lbr_state] returns for it.  With an entry of full size
    and a capacity of at most 64 pairs (the two register banks lie 64
    apart), the selection register, the top-of-stack register and every
    from/to register below the capacity then hold what the entry holds;
    no other register and nothing in the store changes. *)
Theorem sched_in_loads_entry mode m l p fuel s :
  ring m l → snapshots_sized m l → (length l ≤ fuel)%nat →
  s ∈ l → pid_of m s = Some p → lbr_capacity m ≤ 64 →
  ∃ m' t st, sched_in mode fuel p m = Ok m' ∧
    find_lbr_state mode fuel p m = Ok t ∧ heap m !! t = Some st ∧
    rdmsrl MSR_LBR_SELECT m' = lbr_select st ∧
    rdmsrl MSR_LBR_TOS m' = lbr_tos st ∧
    (∀ i e, entries st !! i = Some e →
       rdmsrl (MSR_LBR_NHM_FROM + Z.of_nat i) m' = from e ∧
       rdmsrl (MSR_LBR_NHM_TO + Z.of_nat i) m' = to e) ∧
    (∀ r, ¬ lbr_msr (lbr_capacity m) r → rdmsrl r m' = rdmsrl r m) ∧
    heap m' = heap m ∧ released m' = released m ∧
    lbr_state_list m' = lbr_state_list m.
Proof.
  intros Hring Hsz Hfuel Hs Hp Hcap.
  assert (Hfm : first_match m p (backward l) ≠ NULL).
  { apply (first_match_found m p (backward l) s); try done.
    - rewrite elem_of_backward. by destruct Hring as (_ & ? & _).
    - by rewrite elem_of_backward. }
  destruct (put_lbr_reads mode m l p fuel Hring Hsz Hfuel Hfm)
    as (m' & st & Hrun & Hst & Hsel & Htos & Hpairs & Hout & (Hh & Hr & Hl & _)).
  exists m', (first_match m p (backward l)), st. split_and!; try done.
  - unfold sched_in, restore_lbr. rewrite (find_spec mode m l p fuel) by done. cbn [bind].
    by rewrite decide_False.
  - by apply find_spec.
  - by apply Hpairs.
Qed.



(** ** Further properties of the dispatcher *)

(** X14. [DISABLE_TRACE] and [SELECT_LBR] for a process id no member
    carries are answered with [-EINVAL], and the machine is the one
    the dispatcher was entered with. *)
Theorem lookup_requests_reject_untraced mode ENABLE DISABLE DUMP SELECT dflt
    fuel param req cur a m l :
  DISABLE ≠ ENABLE → SELECT ≠ ENABLE → SELECT ≠ DISABLE → SELECT ≠ DUMP →
  ring m l → (length l ≤ fuel)%nat →
  (∀ q, q ∈ l → pid_of m q ≠ Some (req_pid req)) →
  device_ioctl mode ENABLE DISABLE DUMP SELECT dflt fuel DISABLE param 0 req cur a m
  = Ok (- EINVAL, m) ∧
  device_ioctl mode ENABLE DISABLE DUMP SELECT dflt fuel SELECT param 0 req cur a m
  = Ok (- EINVAL, m).
Proof.
  intros HDE HSE HSD HSU Hring Hfuel Hnone.
  assert (Hfm : first_match m (req_pid req) (backward l) = NULL).
  { apply first_match_none. intros q Hq. apply Hnone. by rewrite elem_of_backward in Hq. }
  unfold device_ioctl.
  rewrite (find_spec mode m l (req_pid req) fuel) by done. rewrite Hfm. cbn [bind].
  split.
  - rewrite decide_False by (intros ?; done).
    rewrite decide_False by done. rewrite decide_True by done. by rewrite decide_True.
  - rewrite decide_False by (intros ?; done).
    rewrite !(decide_False (P := SELECT = _)) by done.
    rewrite decide_True by done. by rewrite decide_True.
Qed.

(** X15. [DISABLE_TRACE] for a traced process, on a store in which no
    entry has a parent: the reply is 0; the entry [find_lbr_state]
    returns for the process id leaves the store and its block is
    released, nothing else is; the other members keep their order and
    their contents; registers and preemption count are untouched. *)
Theorem disable_releases_entry mode ENABLE DISABLE DUMP SELECT dflt
    fuel param req cur a m l s :
  DISABLE ≠ ENABLE →
  store_ok m l → (length l ≤ fuel)%nat →
  s ∈ l → pid_of m s = Some (req_pid req) →
  ∃ m' l1 e l2, l = l1 ++ e :: l2 ∧
    find_lbr_state mode fuel (req_pid req) m = Ok e ∧
    device_ioctl mode ENABLE DISABLE DUMP SELECT dflt fuel DISABLE param 0 req cur a m
    = Ok (0, m') ∧
    store_ok m' (l1 ++ l2) ∧ released m' = {[e]} ∪ released m ∧
    (∀ q, payload m' q = payload m q) ∧
    msr m' = msr m ∧ preempt_count m' = preempt_count m.
Proof.
  intros HDE (Hring & Hsz & Hpar) Hfuel Hs Hp.
  assert (Hfm : first_match m (req_pid req) (backward l) ≠ NULL).
  { apply (first_match_found m _ (backward l) s); try done.
    - rewrite elem_of_backward. by destruct Hring as (_ & ? & _).
    - by rewrite elem_of_backward. }
  destruct (first_match_member _ _ _ Hfm) as [Hin _]. rewrite elem_of_backward in Hin.
  assert (Hfind : find_lbr_state mode fuel (req_pid req) m
                  = Ok (first_match m (req_pid req) (backward l))) by (by apply find_spec).
  set (e := first_match m (req_pid req) (backward l)) in *. clearbody e.
  destruct (ring_member _ _ _ Hring Hin) as (Hne & _).
  apply list_elem_of_split in Hin as (l1 & l2 & El). subst l.
  destruct (remove_nochild mode m l1 e l2 fuel Hring) as (m' & Hrun & Hring' & Hrel & Hsd);
    [|done|].
  { intros q Hq. rewrite Hpar; [congruence|].
    rewrite elem_of_app in *. rewrite elem_of_cons. tauto. }
  exists m', l1, e, l2. split; [done|]. split; [done|]. split.
  { unfold device_ioctl. rewrite decide_False by (intros ?; done).
    rewrite decide_False by done. rewrite decide_True by done.
    rewrite Hfind. cbn [bind]. rewrite decide_False by done. by rewrite Hrun. }
  pose proof Hsd as (Hmsr & Hcap & Hpc & Hpl).
  unfold store_ok. split_and!; try done.
  - apply (same_data_sized m m'); [done|]. intros q st Hq. apply Hsz.
    rewrite elem_of_app in *. rewrite elem_of_cons. tauto.
  - intros q Hq. rewrite (links_only_par m m') by done. apply Hpar.
    rewrite elem_of_app in *. rewrite elem_of_cons. tauto.
Qed.

(** X16. [SELECT_LBR] for a traced process stores [ioctl_param] (the
    argument of the call, not the [lbr_select] field of the request)
    as the filter of the entry found for the process id, and loads the
    registers from that entry: the selection register then holds
    [ioctl_param], the top-of-stack register the entry's, and, with a
    capacity of at most 64 pairs (the two register banks lie 64 apart),
    every from/to register below the capacity holds the entry's pair.
    No other register changes.  The reply is 0, the preemption count is
    as before, and nothing else in the store changes. *)
Theorem select_stores_ioctl_param mode ENABLE DISABLE DUMP SELECT dflt
    fuel param req cur a m l s :
  SELECT ≠ ENABLE → SELECT ≠ DISABLE → SELECT ≠ DUMP →
  ring m l → snapshots_sized m l → (length l ≤ fuel)%nat →
  s ∈ l → pid_of m s = Some (req_pid req) →
  ∃ m' e st,
    find_lbr_state mode fuel (req_pid req) m = Ok e ∧ heap m !! e = Some st ∧
    device_ioctl mode ENABLE DISABLE DUMP SELECT dflt fuel SELECT param 0 req cur a m
    = Ok (0, m') ∧
    heap m' = <[e := with_lbr_select param st]> (heap m) ∧
    rdmsrl MSR_LBR_SELECT m' = param ∧ rdmsrl MSR_LBR_TOS m' = lbr_tos st ∧
    (lbr_capacity m ≤ 64 → ∀ i e', entries st !! i = Some e' →
       rdmsrl (MSR_LBR_NHM_FROM + Z.of_nat i) m' = from e' ∧
       rdmsrl (MSR_LBR_NHM_TO + Z.of_nat i) m' = to e') ∧
    (∀ r, ¬ lbr_msr (lbr_capacity m) r → rdmsrl r m' = rdmsrl r m) ∧
    preempt_count m' = preempt_count m ∧ released m' = released m ∧ ring m' l.
Proof.
  intros HSE HSD HSU Hring Hsz Hfuel Hs Hp.
  assert (Hfm : first_match m (req_pid req) (backward l) ≠ NULL).
  { apply (first_match_found m _ (backward l) s); try done.
    - rewrite elem_of_backward. by destruct Hring as (_ & ? & _).
    - by rewrite elem_of_backward. }
  destruct (first_match_member _ _ _ Hfm) as [Hin _]. rewrite elem_of_backward in Hin.
  assert (Hfind : find_lbr_state mode fuel (req_pid req) m
                  = Ok (first_match m (req_pid req) (backward l))) by (by apply find_spec).
  set (e := first_match m (req_pid req) (backward l)) in *.
  destruct (ring_member _ _ _ Hring Hin) as (Hne & Hre & st & Hst).
  set (m1 := with_heap (<[e := with_lbr_select param st]> (heap m)) m).
  assert (Hring1 : ring (get_cpu m1) l).
  { by apply (ring_update m (get_cpu m1) l e st (with_lbr_select param st)). }
  assert (Hsz1 : snapshots_sized (get_cpu m1) l).
  { intros q stq Hq Hstq. simpl in Hstq. rewrite lookup_insert in Hstq.
    case_decide; [|by apply (Hsz q stq)].
    subst q. injection Hstq as <-. simpl. by apply (Hsz e st). }
  assert (Hfe : first_match (get_cpu m1) (req_pid req) (backward l) = e).
  { subst e. apply first_match_ext. intros q _. unfold pid_of. simpl.
    rewrite lookup_insert. case_decide; [|done]. subst q. by rewrite Hst. }
  destruct (put_lbr_reads mode (get_cpu m1) l (req_pid req) fuel Hring1 Hsz1 Hfuel)
    as (m2 & st1 & Hput & Hst1 & Hsel & Htos & Hpairs & Hout & (Hh & Hr & Hl & Hc & Hpc)).
  { by rewrite Hfe. }
  rewrite Hfe in Hst1. simpl in Hst1. rewrite lookup_insert_eq in Hst1.
  injection Hst1 as <-.
  exists (put_cpu m2), e, st. split; [done|]. split; [done|]. split.
  { unfold device_ioctl. rewrite decide_False by (intros ?; done).
    rewrite !(decide_False (P := SELECT = _)) by done. rewrite decide_True by done.
    rewrite Hfind. cbn [bind]. rewrite decide_False by done.
    rewrite (store_live mode e _ st) by done. cbn [bind]. fold m1.
    by rewrite Hput. }
  split_and!; try done.
  - unfold put_cpu. simpl. rewrite Hpc. simpl. lia.
  - apply (ring_frame (get_cpu m1)); try done.
    + intros q _. simpl. by rewrite Hh.
    + intros q Hq. simpl. rewrite Hr. by destruct Hring1 as (_ & _ & Hre1 & _); apply Hre1.
Qed.

(** X17. [ENABLE_TRACE] with a block from the allocator makes the
    process traced: the reply is 0 and afterwards [find_lbr_state]
    returns, for the process id the entry was given (the requested one,
    or the caller's for a request with process id 0), a member that
    carries it.  The new block is the last member and the preemption
    count is as before. *)
Theorem enable_makes_traced mode ENABLE DISABLE DUMP SELECT dflt
    fuel param req cur a m l :
  ring m l → snapshots_sized m l → a ≠ NULL → a ∉ l → (length l < fuel)%nat →
  ∃ m' s,
    device_ioctl mode ENABLE DISABLE DUMP SELECT dflt fuel ENABLE param 0 req cur a m
    = Ok (0, m') ∧
    find_lbr_state mode fuel (if decide (req_pid req ≠ 0) then req_pid req else cur) m'
    = Ok s ∧
    s ≠ NULL ∧ s ∈ l ++ [a] ∧
    pid_of m' s = Some (if decide (req_pid req ≠ 0) then req_pid req else cur) ∧
    pid_of m' a = Some (if decide (req_pid req ≠ 0) then req_pid req else cur) ∧
    ring m' (l ++ [a]) ∧ preempt_count m' = preempt_count m.
Proof.
  intros Hring Hsz Hn Ha Hfuel.
  destruct (ioctl_enable mode ENABLE DISABLE DUMP SELECT dflt fuel param req cur a m l)
    as (m4 & m5 & Hrun & _ & (Hh5 & Hr5 & Hl5 & Hc5 & Hp5) & Hring4 & Hsz4 & Hpa & Hpoth
        & Hrel4 & Hmsr4 & Hcap4 & Hpc4); try done.
  set (p := if decide (req_pid req ≠ 0) then req_pid req else cur) in *.
  assert (Hring' : ring (put_cpu m5) (l ++ [a])).
  { apply (ring_frame m4); try done.
    - intros q _. simpl. by rewrite Hh5.
    - intros q Hq. simpl. rewrite Hr5. by destruct Hring4 as (_ & _ & Hre & _); apply Hre. }
  assert (Hpa' : pid_of (put_cpu m5) a = Some p).
  { unfold pid_of, payload in *. simpl. rewrite Hh5. simpl.
    destruct (heap m4 !! a) as [sta|]; simpl in *; [|done].
    injection Hpa; intros; subst p; simpl; congruence. }
  assert (Hlen : (length (l ++ [a]) ≤ fuel)%nat).
  { rewrite length_app. simpl. lia. }
  assert (Hfm : first_match (put_cpu m5) p (backward (l ++ [a])) ≠ NULL).
  { apply (first_match_found _ p _ a); try done.
    - rewrite elem_of_backward. by destruct Hring' as (_ & ? & _).
    - rewrite elem_of_backward. apply elem_of_app. right. by apply list_elem_of_singleton. }
  destruct (first_match_member _ _ _ Hfm) as [Hin Hpid]. rewrite elem_of_backward in Hin.
  exists (put_cpu m5), (first_match (put_cpu m5) p (backward (l ++ [a]))).
  split_and!; try done.
  - by apply find_spec.
  - simpl. rewrite Hp5. simpl. lia.
Qed.


(** ** The loaded module *)

Lemma dump_lbr_keeps mode m l p fuel :
  store_ok m l → (length l ≤ fuel)%nat →
  ∃ m', dump_lbr mode fuel p m = Ok m' ∧ store_ok m' l.
Proof.
  intros Hok Hfuel. pose proof Hok as (Hring & _).
  unfold dump_lbr.
  assert (Hok0 : store_ok (get_cpu m) l) by (by apply (store_ok_frame m)).
  rewrite (find_spec mode (get_cpu m) l p fuel) by done. cbn [bind].
  case_decide; [by exists (get_cpu m)|].
  destruct (get_lbr_keeps mode (get_cpu m) l p fuel Hok0 Hfuel) as (m1 & Hget & Hok1 & _).
  rewrite Hget. cbn [bind]. exists (put_cpu m1). split; [done|].
  by apply (store_ok_frame m1).
Qed.

(** X19. The fork hooks trace nothing: [pre_fork_handler] returns 0,
    and [post_fork_handler] looks the forking process up and returns
    with the machine as it found it, whether or not the process is
    traced; the child gets no entry. *)
Theorem fork_hooks_change_nothing mode m l cur fuel :
  ring m l → (length l ≤ fuel)%nat →
  (pre_fork_handler m).1 = 0 ∧
  post_fork_handler mode fuel cur (pre_fork_handler m).2 = Ok m.
Proof.
  intros Hring Hfuel. split; [done|]. unfold post_fork_handler, pre_fork_handler. simpl.
  rewrite (find_spec mode m l cur fuel) by done. cbn [bind]. by case_decide.
Qed.

(** X20. Whatever reaches the loaded module, in whatever order
    (requests with any code, argument and process id, reads, context
    switches, forks), every handler returns: no released block is read
    or released again and no snapshot is indexed out of bounds; the
    store stays a ring of entries of full size without parents, and it
    grows by at most one entry per event.  The allocator is only
    required to hand out [NULL] or a block that is not live. *)
Theorem events_keep_store mode ENABLE DISABLE DUMP SELECT dflt evs : ∀ fuel m l,
  store_ok m l →
  fresh_allocs mode ENABLE DISABLE DUMP SELECT dflt fuel evs m →
  (length l + length evs < fuel)%nat →
  ∃ m' l', run_events mode ENABLE DISABLE DUMP SELECT dflt fuel evs m = Ok m' ∧
    store_ok m' l' ∧ (length l' ≤ length l + length evs)%nat.
Proof.
  induction evs as [|ev evs IH]; intros fuel m l Hok Hfresh Hfuel.
  { exists m, l. split; [done|]. split; [done|]. lia. }
  destruct Hfresh as [Hfr Hrest]. simpl in Hfuel.
  assert (∃ m1 l1, run_event mode ENABLE DISABLE DUMP SELECT dflt fuel ev m = Ok m1 ∧
            store_ok m1 l1 ∧ (length l1 ≤ S (length l))%nat) as (m1 & l1 & Hrun & Hok1 & Hlen1).
  { pose proof Hok as (Hring & Hsz & Hpar).
    destruct ev as [cmd param ret req cur a| | | | |cur|cur|cur]; simpl.
    - assert (Ha : a ∉ l).
      { intros Hin. destruct (ring_member _ _ _ Hring Hin) as (Hn & Hr & st & Hst).
        simpl in Hfr. destruct Hfr as [?|[E|?]]; try done. by rewrite Hst in E. }
      destruct (ioctl_keeps_store mode ENABLE DISABLE DUMP SELECT dflt
                  fuel cmd param ret req cur a m l Hok Ha) as (s & m' & l' & Hr & Hok' & Hl');
        [lia|].
      rewrite Hr. cbn [bind]. exists m', l'. split; [done|]. split; [done|].
      destruct Hl' as [->|[->|(la & e & lb & -> & ->)]].
      + lia.
      + rewrite length_app. simpl. lia.
      + rewrite !length_app. simpl. lia.
    - unfold device_read. case_decide.
      + exists m, l. cbn [bind]. split; [done|]. split; [done|]. lia.
      + destruct l as [|h t].
        { by destruct Hring as (_ & _ & _ & _ & _ & ?). }
        destruct (ring_member _ _ _ Hring (list_elem_of_here h t)) as (_ & Hr & st & Hst).
        destruct Hring as (_ & _ & _ & _ & _ & Hlist). simpl in Hlist. rewrite Hlist.
        rewrite (load_live mode h st) by done. cbn [bind].
        destruct (dump_lbr_keeps mode m (h :: t) (pid st) fuel Hok) as (m' & Hd & Hok');
          [simpl in *; lia|].
        rewrite Hd. cbn [bind]. exists m', (h :: t). split; [done|]. split; [done|]. lia.
    - exists m, l. split; [done|]. split; [done|]. lia.
    - exists m, l. split; [done|]. split; [done|]. lia.
    - exists m, l. split; [done|]. split; [done|]. lia.
    - destruct (hooks_keep_store mode m l cur fuel Hok) as [(m' & Hs & Hok' & _) _]; [lia|].
      exists m', l. split; [done|]. split; [done|]. lia.
    - destruct (hooks_keep_store mode m l cur fuel Hok) as [_ (m' & Hs & Hok')]; [lia|].
      exists m', l. split; [done|]. split; [done|]. lia.
    - exists m, l. split; [|split; [done|lia]].
      unfold post_fork_handler, pre_fork_handler. simpl.
      rewrite (find_spec mode m l cur fuel) by (done || lia). cbn [bind]. by case_decide. }
  rewrite Hrun in Hrest.
  destruct (IH fuel m1 l1 Hok1 Hrest) as (m' & l' & Hrun' & Hok' & Hlen'); [lia|].
  exists m', l'. split.
  - simpl. rewrite Hrun. cbn [bind]. done.
  - split; [done|]. simpl. lia.
Qed.

(** ** Processor identification, loading and unloading *)

Lemma scan_lbr_maps_keeps maps model m :
  heap (scan_lbr_maps maps model m) = heap m ∧
  released (scan_lbr_maps maps model m) = released m ∧
  lbr_state_list (scan_lbr_maps maps model m) = lbr_state_list m ∧
  msr (scan_lbr_maps maps model m) = msr m ∧
  preempt_count (scan_lbr_maps maps model m) = preempt_count m.
Proof.
  induction maps as [|[md cap] maps IH]; simpl; [done|]. by case_decide.
Qed.

Lemma scan_lbr_maps_miss maps model m :
  model ∉ maps.*1 → scan_lbr_maps maps model m = m.
Proof.
  induction maps as [|[md cap] maps IH]; simpl; [done|]. intros H.
  rewrite decide_False by (intros ->; apply H; by left).
  apply IH. intros Hin. apply H. by right.
Qed.

Lemma scan_lbr_maps_hit pre model cap post m :
  model ∉ pre.*1 →
  scan_lbr_maps (pre ++ (model, cap) :: post) model m = with_capacity (cap mod 2 ^ 64) m.
Proof.
  induction pre as [|[md c] pre IH]; simpl; intros H.
  - by rewrite decide_True.
  - rewrite decide_False by (intros ->; apply H; by left).
    apply IH. intros Hin. apply H. by right.
Qed.

(** X21. The two fields [identify_cpu] decodes from the [cpuid]
    value: for a value laid out as stepping (bits 0-3), model (4-7),
    family (8-11), bits 12-15, extended model (16-19) and the bits
    above, the family is the family field and the model is the
    extended model times 16 plus the model field, a number below 256. *)
Theorem cpuid_fields_decode stepping model family mid ext_model high :
  0 ≤ stepping < 16 → 0 ≤ model < 16 → 0 ≤ family < 16 → 0 ≤ mid < 16 →
  0 ≤ ext_model < 16 → 0 ≤ high →
  cpu_family (stepping + 16 * model + 256 * family + 4096 * mid
              + 65536 * ext_model + 1048576 * high) = family ∧
  cpu_model (stepping + 16 * model + 256 * family + 4096 * mid
             + 65536 * ext_model + 1048576 * high) = 16 * ext_model + model ∧
  0 ≤ 16 * ext_model + model < 256.
Proof.
  intros Hs Hm Hf Hmid He Hh. unfold cpu_family, cpu_model.
  change 0xf with (Z.ones 4). rewrite !Z.land_ones by lia.
  rewrite !Z.shiftr_div_pow2 by lia. rewrite Z.shiftl_mul_pow2 by lia.
  change (2 ^ 4) with 16. change (2 ^ 8) with 256. change (2 ^ 16) with 65536.
  split_and!; [| |lia|lia]; Z.div_mod_to_equations; lia.
Qed.

(** X22. [identify_cpu] on a family 6 processor whose model is in the
    table: it returns 0 and sets [lbr_capacity] to the capacity of the
    first table entry for the model; nothing else changes. *)
Theorem identify_cpu_supported pre cap post eax m :
  cpu_family eax = 6 → cpu_model eax ∉ pre.*1 → 0 ≤ cap < 2 ^ 64 - 1 →
  identify_cpu (pre ++ (cpu_model eax, cap) :: post) eax m = (0, with_capacity cap m).
Proof.
  intros Hf Hpre Hcap. unfold identify_cpu; cbv zeta. rewrite decide_False by (intros H; by apply H).
  rewrite scan_lbr_maps_hit by done. rewrite Z.mod_small by lia. simpl.
  rewrite decide_False by lia. done.
Qed.

(** X23. [identify_cpu] on a processor of another family, or of a
    model without a table entry: it returns -1.  For another family
    the machine is untouched; for a missing model [lbr_capacity] is
    left at the all-ones value the search starts from.  Nothing but
    [lbr_capacity] changes in either case. *)
Theorem identify_cpu_unsupported maps eax m :
  cpu_family eax ≠ 6 ∨ cpu_model eax ∉ maps.*1 →
  (identify_cpu maps eax m).1 = -1 ∧
  (cpu_family eax ≠ 6 → (identify_cpu maps eax m).2 = m) ∧
  (cpu_family eax = 6 → (identify_cpu maps eax m).2 = with_capacity (2 ^ 64 - 1) m) ∧
  heap (identify_cpu maps eax m).2 = heap m ∧ msr (identify_cpu maps eax m).2 = msr m ∧
  lbr_state_list (identify_cpu maps eax m).2 = lbr_state_list m.
Proof.
  intros H. unfold identify_cpu; cbv zeta.
  destruct (decide (cpu_family eax ≠ 6)) as [Hf|Hf]; [by split_and!|].
  destruct H as [H|H]; [done|]. rewrite scan_lbr_maps_miss by done.
  cbn [lbr_capacity with_capacity]. rewrite decide_True by done. by split_and!.
Qed.

Lemma identify_cpu_keeps maps eax m :
  heap (identify_cpu maps eax m).2 = heap m ∧
  released (identify_cpu maps eax m).2 = released m ∧
  lbr_state_list (identify_cpu maps eax m).2 = lbr_state_list m ∧
  msr (identify_cpu maps eax m).2 = msr m ∧
  preempt_count (identify_cpu maps eax m).2 = preempt_count m ∧
  ((identify_cpu maps eax m).1 = 0 ∨ (identify_cpu maps eax m).1 = -1).
Proof.
  unfold identify_cpu; cbv zeta. case_decide; [split_and!; auto|].
  destruct (scan_lbr_maps_keeps maps (cpu_model eax) (with_capacity (2 ^ 64 - 1) m))
    as (H1 & H2 & H3 & H4 & H5).
  case_decide; simpl; rewrite H1, H2, H3, H4, H5; split_and!; auto.
Qed.

Lemma enable_lbr_spec m :
  msr_only m (enable_lbr m) ∧
  rdmsrl MSR_IA32_DEBUGCTLMSR (enable_lbr m) = DEBUGCTLMSR_LBR ∧
  (∀ r, lbr_msr (lbr_capacity m) r → rdmsrl r (enable_lbr m) = 0).
Proof.
  unfold enable_lbr, put_cpu, get_cpu.
  destruct (flush_lbr_spec true (with_preempt (preempt_count m + 1) m))
    as (Hz & Hd & _ & (E1 & E2 & E3 & E4 & E5)).
  split_and!; [|exact Hd|exact Hz].
  unfold msr_only. cbn [heap released lbr_state_list lbr_capacity preempt_count with_preempt].
  rewrite E1, E2, E3, E4, E5. simpl. split_and!; try done. lia.
Qed.

Lemma disable_lbr_spec m :
  msr_only m (disable_lbr m) ∧
  rdmsrl MSR_IA32_DEBUGCTLMSR (disable_lbr m) = 0 ∧
  (∀ r, lbr_msr (lbr_capacity m) r → rdmsrl r (disable_lbr m) = 0).
Proof.
  unfold disable_lbr, put_cpu, get_cpu.
  destruct (flush_lbr_spec false
              (wrmsrl MSR_LBR_SELECT 0 (with_preempt (preempt_count m + 1) m)))
    as (Hz & Hd & _ & (E1 & E2 & E3 & E4 & E5)).
  split_and!; [|exact Hd|exact Hz].
  unfold msr_only. cbn [heap released lbr_state_list lbr_capacity preempt_count with_preempt].
  rewrite E1, E2, E3, E4, E5. simpl. split_and!; try done. lia.
Qed.

(** X24. A failed [libiht_lkm_init] returns -1 and leaves nothing
    behind: the proc files are the ones before (a file that was
    created is removed again when the kprobe cannot be registered),
    no kprobe and no notifier is registered, and store and registers
    are untouched. *)
Theorem init_failure_leaves_nothing maps eax proc_create_ret register_kprobe_ret k :
  proc_create_ret ∉ proc_files k →
  (libiht_lkm_init maps eax proc_create_ret register_kprobe_ret k).1 ≠ 0 →
  (libiht_lkm_init maps eax proc_create_ret register_kprobe_ret k).1 = -1 ∧
  proc_files (libiht_lkm_init maps eax proc_create_ret register_kprobe_ret k).2
    = proc_files k ∧
  kprobe_registered (libiht_lkm_init maps eax proc_create_ret register_kprobe_ret k).2
    = kprobe_registered k ∧
  notifier_registered (libiht_lkm_init maps eax proc_create_ret register_kprobe_ret k).2
    = notifier_registered k ∧
  notifier_users (libiht_lkm_init maps eax proc_create_ret register_kprobe_ret k).2
    = notifier_users k ∧
  heap (mach (libiht_lkm_init maps eax proc_create_ret register_kprobe_ret k).2)
    = heap (mach k) ∧
  msr (mach (libiht_lkm_init maps eax proc_create_ret register_kprobe_ret k).2)
    = msr (mach k) ∧
  lbr_state_list (mach (libiht_lkm_init maps eax proc_create_ret register_kprobe_ret k).2)
    = lbr_state_list (mach k).
Proof.
  intros Hfresh. unfold libiht_lkm_init.
  destruct (identify_cpu_keeps maps eax (mach k)) as (H1 & H2 & H3 & H4 & H5 & H6).
  destruct (identify_cpu maps eax (mach k)) as [r m1]. simpl in *.
  destruct (decide (r < 0)); [intros _; by split_and!|].
  destruct (decide (proc_create_ret = NULL)); [intros _; by split_and!|].
  destruct (decide (register_kprobe_ret < 0)); [|by intros ?].
  intros _. simpl. split_and!; try done.
  apply set_eq. intros q. set_unfold. split; [tauto|].
  intros Hq. split; [by right|]. intros ->. done.
Qed.

(** X25. [libiht_lkm_init] returns 0 exactly when the processor is
    identified, the proc file is created and the kprobe is
    registered.  Then the proc file exists, kprobe and notifier are
    registered, tracing is switched on with the trace registers
    cleared, and the store is empty. *)
Theorem init_success_loads maps eax proc_create_ret register_kprobe_ret k :
  ((libiht_lkm_init maps eax proc_create_ret register_kprobe_ret k).1 = 0 ↔
   (identify_cpu maps eax (mach k)).1 = 0 ∧ proc_create_ret ≠ NULL ∧
   0 ≤ register_kprobe_ret) ∧
  ((libiht_lkm_init maps eax proc_create_ret register_kprobe_ret k).1 = 0 →
   ∃ k', (libiht_lkm_init maps eax proc_create_ret register_kprobe_ret k).2 = k' ∧
     proc_entry k' = proc_create_ret ∧ proc_create_ret ∈ proc_files k' ∧
     kprobe_registered k' = true ∧ notifier_registered k' = true ∧
     notifier_users k' = notifier_users k + 1 ∧
     store_ok (mach k') [] ∧
     lbr_capacity (mach k') = lbr_capacity (identify_cpu maps eax (mach k)).2 ∧
     rdmsrl MSR_IA32_DEBUGCTLMSR (mach k') = DEBUGCTLMSR_LBR ∧
     (∀ r, lbr_msr (lbr_capacity (mach k')) r → rdmsrl r (mach k') = 0) ∧
     heap (mach k') = heap (mach k) ∧ preempt_count (mach k') = preempt_count (mach k)).
Proof.
  unfold libiht_lkm_init.
  destruct (identify_cpu_keeps maps eax (mach k)) as (H1 & H2 & H3 & H4 & H5 & H6).
  destruct (identify_cpu maps eax (mach k)) as [r m1]. cbn [fst snd] in *.
  destruct (enable_lbr_spec m1) as ((E1 & E2 & E3 & E4 & E5) & Hd & Hz).
  set (m2 := enable_lbr m1) in *. clearbody m2.
  split.
  - destruct (decide (r < 0)); [simpl; split; [lia|intros (? & ? & ?); lia]|].
    destruct (decide (proc_create_ret = NULL)); [simpl; split; [lia|intros (? & ? & ?); done]|].
    destruct (decide (register_kprobe_ret < 0)); simpl; split; try lia; try done.
  - destruct (decide (r < 0)); [simpl; intros ?; lia|].
    destruct (decide (proc_create_ret = NULL)); [simpl; intros ?; lia|].
    destruct (decide (register_kprobe_ret < 0)); [simpl; intros ?; lia|].
    intros _. eexists. split; [reflexivity|].
    cbn [fst snd mach proc_entry proc_files kprobe_registered notifier_registered
         notifier_users].
    assert (Hrd : ∀ q, rdmsrl q (with_list NULL m2) = rdmsrl q m2) by done.
    split_and!; try done.
    + set_unfold. by left.
    + unfold store_ok, ring, cseg, snapshots_sized. simpl. split_and!; try done.
      * constructor.
      * intros Hin. by apply elem_of_nil in Hin.
      * intros q Hin. by apply elem_of_nil in Hin.
      * intros q st Hin. by apply elem_of_nil in Hin.
      * intros q Hin. by apply elem_of_nil in Hin.
    + intros q Hq. rewrite Hrd. apply Hz. simpl in Hq. by rewrite E4 in Hq.
    + simpl. by rewrite E1.
    + simpl. by rewrite E5.
Qed.

(** X26. Loading and then unloading the module with no entry in
    between: [libiht_lkm_exit] returns; the proc files are the ones
    before loading, kprobe and notifier are unregistered, tracing is
    switched off with the trace registers cleared, and memory is
    untouched.  The count raised by [preempt_notifier_inc] stays
    raised: nothing in [libiht_lkm_exit] lowers it. *)
Theorem load_unload_round_trip mode fuel maps eax proc_create_ret register_kprobe_ret k :
  proc_create_ret ∉ proc_files k →
  (libiht_lkm_init maps eax proc_create_ret register_kprobe_ret k).1 = 0 →
  ∃ k2,
    libiht_lkm_exit_module mode fuel
      (libiht_lkm_init maps eax proc_create_ret register_kprobe_ret k).2 = Ok k2 ∧
    proc_files k2 = proc_files k ∧
    kprobe_registered k2 = false ∧ notifier_registered k2 = false ∧
    notifier_users k2 = notifier_users k + 1 ∧
    rdmsrl MSR_IA32_DEBUGCTLMSR (mach k2) = 0 ∧
    (∀ r, lbr_msr (lbr_capacity (mach k2)) r → rdmsrl r (mach k2) = 0) ∧
    heap (mach k2) = heap (mach k) ∧ released (mach k2) = released (mach k) ∧
    preempt_count (mach k2) = preempt_count (mach k).
Proof.
  intros Hfresh. unfold libiht_lkm_init.
  destruct (identify_cpu_keeps maps eax (mach k)) as (H1 & H2 & H3 & H4 & H5 & H6).
  destruct (identify_cpu maps eax (mach k)) as [r m1]. cbn [fst snd] in *.
  destruct (enable_lbr_spec m1) as ((E1 & E2 & E3 & E4 & E5) & _).
  destruct (disable_lbr_spec (with_list NULL (enable_lbr m1)))
    as ((D1 & D2 & D3 & D4 & D5) & Hd & Hz).
  destruct (decide (r < 0)); [simpl; intros ?; lia|].
  destruct (decide (proc_create_ret = NULL)); [simpl; intros ?; lia|].
  destruct (decide (register_kprobe_ret < 0)); [simpl; intros ?; lia|].
  intros _.
  unfold libiht_lkm_exit_module, libiht_lkm_exit.
  cbn [fst snd mach lbr_state_list with_list]. rewrite decide_True by done. cbn [bind].
  eexists. split; [reflexivity|].
  cbn [fst snd mach proc_entry proc_files kprobe_registered notifier_registered
       notifier_users proc_remove].
  set (m2 := with_list NULL (enable_lbr m1)) in *.
  set (m3 := disable_lbr m2) in *. clearbody m3.
  split_and!; try done.
  - apply set_eq. intros q. set_unfold. split; [tauto|].
    intros Hq. split; [by right|]. intros ->. done.
  - intros q Hq. rewrite D4 in Hq. by apply Hz.
  - rewrite D1. subst m2. cbn [heap with_list]. by rewrite E1.
  - rewrite D2. subst m2. cbn [released with_list]. by rewrite E2.
  - rewrite D5. subst m2. cbn [preempt_count with_list]. by rewrite E5.
Qed.

(** ** Removal with children and teardown, on any store *)

(** X27. [remove_lbr_state] of a member that another member names as
    its parent never completes when a read of a released block is an
    error: the loop releases the child through the recursive call and
    then reads the child's [prev] field.  No amount of fuel makes the
    call return. *)
Theorem cascade_never_completes m l1 e l2 c fuel :
  ring m (l1 ++ e :: l2) → c ∈ l1 ++ l2 → par m c = Some e →
  returns (remove_lbr_state Trap fuel e m) = false.
Proof.
  intros Hring Hc Hpar.
  pose proof (cascade_traps m l1 e l2 fuel Hring (ex_intro _ c (conj Hc Hpar))) as H.
  destruct (remove_lbr_state Trap fuel e m) as [m'| |]; [|done|done].
  by destruct (H m').
Qed.

(** X28. [libiht_lkm_exit] on a non-empty store releases the anchor
    and then reads its [prev] field.  When that read is an error the
    teardown stops there, at the first entry; when released blocks are
    still readable the loop releases every member once and no other
    block, and tracing is switched off. *)
Theorem teardown_of_any_store m h t fuel :
  ring m (h :: t) → (length (h :: t) ≤ fuel)%nat →
  libiht_lkm_exit Trap fuel m = Fault (UseAfterFree h) ∧
  libiht_lkm_exit Stale fuel m =
    Ok (disable_lbr (with_released (list_to_set (h :: t) ∪ released m) m)).
Proof.
  intros Hring Hfuel. split.
  - destruct fuel as [|fuel]; [simpl in Hfuel; lia|]. by apply (exit_traps m h t).
  - by apply exit_stale.
Qed.

(** *** The further properties on concrete machines *)

Lemma find_returns_carrier_or_null_witness :
  ring traced_pair [10; 20] ∧
  ∃ s, find_lbr_state Trap 2 200 traced_pair = Ok s ∧
    (s = NULL ∧ (∀ q, q ∈ [10; 20] → pid_of traced_pair q ≠ Some 200) ∨
     s ≠ NULL ∧ s ∈ [10; 20] ∧ pid_of traced_pair s = Some 200).
Proof.
  assert (Hring : ring traced_pair [10; 20]) by (apply ringb_sound; vm_compute; reflexivity).
  split; [exact Hring|].
  apply (find_returns_carrier_or_null Trap traced_pair [10; 20] 200 2 Hring). simpl. lia.
Defined.

Lemma find_prefers_anchor_then_latest_witness :
  ring traced_triple [10; 20; 30] ∧
  pid_of traced_triple 20 = Some 200 ∧ pid_of traced_triple 30 = Some 200 ∧
  find_lbr_state Trap 3 200 traced_triple = Ok 30 ∧
  find_lbr_state Trap 3 100 traced_triple = Ok 10.
Proof.
  assert (Hring : ring traced_triple [10; 20; 30])
    by (apply ringb_sound; vm_compute; reflexivity).
  split; [exact Hring|]. split; [vm_compute; reflexivity|]. split; [vm_compute; reflexivity|].
  split.
  - destruct (find_prefers_anchor_then_latest Trap traced_triple 10 [20; 30] 200 3 Hring)
      as [_ H]; [simpl; lia|].
    apply (H [20] 30 []).
    + reflexivity.
    + by_compute.
    + vm_compute; reflexivity.
    + intros q Hq. by apply elem_of_nil in Hq.
  - destruct (find_prefers_anchor_then_latest Trap traced_triple 10 [20; 30] 100 3 Hring)
      as [H _]; [simpl; lia|].
    apply H. vm_compute; reflexivity.
Defined.

Lemma insert_into_empty_store_witness :
  lbr_state_list fresh_5 = NULL ∧ pid_of fresh_5 10 = Some 5 ∧
  ∃ m', insert_lbr_state Trap 10 fresh_5 = Ok m' ∧
    lbr_state_list m' = 10 ∧ nxt m' 10 = Some 10 ∧ prv m' 10 = Some 10 ∧ ring m' [10].
Proof.
  split; [vm_compute; reflexivity|]. split; [vm_compute; reflexivity|].
  destruct (insert_into_empty_store Trap fresh_5 10 (with_pid 5 (zero_state 4)))
    as (m' & H1 & H2 & H3 & H4 & H5 & _).
  - vm_compute; reflexivity.
  - by_compute.
  - vm_compute; reflexivity.
  - by_compute.
  - exists m'. split_and!; assumption.
Defined.

Lemma remove_childless_member_witness :
  ring traced_pair [10; 20] ∧
  ∃ m', remove_lbr_state Trap 2 10 traced_pair = Ok m' ∧
    ring m' [20] ∧ lbr_state_list m' = 20 ∧
    released m' = {[10]} ∪ released traced_pair.
Proof.
  assert (Hring : ring traced_pair ([] ++ 10 :: [20]))
    by (apply ringb_sound; vm_compute; reflexivity).
  split; [exact Hring|].
  destruct (remove_childless_member Trap traced_pair [] 10 [20] 2 Hring)
    as (m' & H1 & H2 & H3 & H4 & _).
  - intros q Hq. apply list_elem_of_singleton in Hq. rewrite Hq. by_compute.
  - simpl. lia.
  - exists m'. split_and!; assumption.
Defined.

Lemma remove_sole_entry_twice_witness :
  ring traced_100 [10] ∧
  ∃ m', remove_lbr_state Trap 1 10 traced_100 = Ok m' ∧
    lbr_state_list m' = NULL ∧ 10 ∈ released m' ∧
    remove_lbr_state Trap 1 10 m' = Ok m'.
Proof.
  assert (Hring : ring traced_100 [10]) by (apply ringb_sound; vm_compute; reflexivity).
  split; [exact Hring|].
  apply (remove_sole_entry_twice Trap traced_100 10 1 Hring). lia.
Defined.

Lemma insert_remove_round_trip_witness :
  ring anchor_5_new_6 [10] ∧
  ∃ m1 m2, insert_lbr_state Trap 20 anchor_5_new_6 = Ok m1 ∧
    remove_lbr_state Trap 2 20 m1 = Ok m2 ∧
    ring m2 [10] ∧ lbr_state_list m2 = lbr_state_list anchor_5_new_6 ∧
    (∀ q, q ∈ [10] → heap m2 !! q = heap anchor_5_new_6 !! q) ∧
    released m2 = {[20]} ∪ released anchor_5_new_6 ∧ msr m2 = msr anchor_5_new_6.
Proof.
  assert (Hring : ring anchor_5_new_6 [10]) by (apply ringb_sound; vm_compute; reflexivity).
  split; [exact Hring|].
  apply (insert_remove_round_trip Trap anchor_5_new_6 [10] 20 (with_pid 6 (zero_state 4)) 2
           Hring).
  - by_compute.
  - by_compute.
  - vm_compute; reflexivity.
  - by_compute.
  - intros q Hq. apply list_elem_of_singleton in Hq. rewrite Hq. by_compute.
  - simpl. lia.
Defined.

Lemma sched_out_snapshots_witness :
  ring traced_busy [10] ∧ pid_of traced_busy 10 = Some 100 ∧
  ∃ m' st', sched_out Trap 1 100 traced_busy = Ok m' ∧
    heap m' !! 10 = Some st' ∧ snapshot_of traced_busy st' ∧
    length (entries st') = 4%nat ∧ msr m' = msr traced_busy.
Proof.
  assert (Hring : ring traced_busy [10]) by (apply ringb_sound; vm_compute; reflexivity).
  assert (Hsz : snapshots_sized traced_busy [10])
    by (apply sizedb_sound; vm_compute; reflexivity).
  assert (Hp : pid_of traced_busy 10 = Some 100) by (vm_compute; reflexivity).
  split; [exact Hring|]. split; [exact Hp|].
  destruct (sched_out_snapshots Trap traced_busy [10] 100 1 10 Hring Hsz)
    as (m' & t & st & st' & H1 & H2 & H3 & H4 & H5 & H6 & H7 & _ & _ & _ & _ & H8 & _).
  - simpl. lia.
  - by_compute.
  - exact Hp.
  - apply list_elem_of_singleton in H3. rewrite H3 in H5.
    exists m', st'. split; [exact H1|]. split.
    + rewrite H5. apply lookup_insert_eq.
    + split; [exact H6|]. split; [exact H7|exact H8].
Defined.

Lemma hooks_skip_untraced_witness :
  ring traced_busy [10] ∧
  sched_out Trap 1 7 traced_busy = Ok traced_busy ∧
  sched_in Trap 1 7 traced_busy = Ok traced_busy.
Proof.
  assert (Hring : ring traced_busy [10]) by (apply ringb_sound; vm_compute; reflexivity).
  split; [exact Hring|].
  apply (hooks_skip_untraced Trap traced_busy [10] 7 1 Hring).
  - simpl. lia.
  - intros q Hq. apply list_elem_of_singleton in Hq. rewrite Hq. by_compute.
Defined.

Lemma sched_in_loads_entry_witness :
  ring traced_pair [10; 20] ∧ pid_of traced_pair 20 = Some 200 ∧
  ∃ m' st, sched_in Trap 2 200 traced_pair = Ok m' ∧
    heap traced_pair !! 20 = Some st ∧
    rdmsrl MSR_LBR_SELECT m' = lbr_select st ∧ rdmsrl MSR_LBR_TOS m' = lbr_tos st ∧
    heap m' = heap traced_pair.
Proof.
  assert (Hring : ring traced_pair [10; 20]) by (apply ringb_sound; vm_compute; reflexivity).
  assert (Hsz : snapshots_sized traced_pair [10; 20])
    by (apply sizedb_sound; vm_compute; reflexivity).
  assert (Hp : pid_of traced_pair 20 = Some 200) by (vm_compute; reflexivity).
  split; [exact Hring|]. split; [exact Hp|].
  destruct (sched_in_loads_entry Trap traced_pair [10; 20] 200 2 20 Hring Hsz)
    as (m' & t & st & H1 & H2 & H3 & H4 & H5 & _ & _ & H6 & _).
  - simpl. lia.
  - by_compute.
  - exact Hp.
  - vm_compute. discriminate.
  - assert (Ht : find_lbr_state Trap 2 200 traced_pair = Ok 20) by (vm_compute; reflexivity).
    rewrite Ht in H2. injection H2 as H2. rewrite <- H2 in H3.
    exists m', st. split_and!; assumption.
Defined.



Lemma lookup_requests_reject_untraced_witness :
  ring traced_100 [10] ∧
  sample_ioctl Trap 1 DISABLE_TRACE 0x7ffe1000 0 request_200 1 NULL traced_100
  = Ok (- EINVAL, traced_100) ∧
  sample_ioctl Trap 1 SELECT_LBR 0x7ffe1000 0 request_200 1 NULL traced_100
  = Ok (- EINVAL, traced_100).
Proof.
  assert (Hring : ring traced_100 [10]) by (apply ringb_sound; vm_compute; reflexivity).
  split; [exact Hring|].
  apply (lookup_requests_reject_untraced Trap ENABLE_TRACE DISABLE_TRACE DUMP_LBR SELECT_LBR
           DEFAULT_SELECT 1 0x7ffe1000 request_200 1 NULL traced_100 [10]).
  - by_compute.
  - by_compute.
  - by_compute.
  - by_compute.
  - exact Hring.
  - simpl. lia.
  - intros q Hq. apply list_elem_of_singleton in Hq. rewrite Hq. by_compute.
Defined.

Lemma disable_releases_entry_witness :
  store_ok traced_pair [10; 20] ∧
  ∃ m', sample_ioctl Trap 2 DISABLE_TRACE 0x7ffe1000 0 request_200 1 NULL traced_pair
        = Ok (0, m') ∧
    store_ok m' [10] ∧ released m' = {[20]} ∪ released traced_pair ∧
    msr m' = msr traced_pair.
Proof.
  assert (Hok : store_ok traced_pair [10; 20])
    by (apply store_okb_sound; vm_compute; reflexivity).
  split; [exact Hok|].
  destruct (disable_releases_entry Trap ENABLE_TRACE DISABLE_TRACE DUMP_LBR SELECT_LBR
              DEFAULT_SELECT 2 0x7ffe1000 request_200 1 NULL traced_pair [10; 20] 20)
    as (m' & l1 & e & l2 & H1 & H2 & H3 & H4 & H5 & _ & H6 & _).
  - by_compute.
  - exact Hok.
  - simpl. lia.
  - by_compute.
  - vm_compute; reflexivity.
  - assert (He : find_lbr_state Trap 2 (req_pid request_200) traced_pair = Ok 20)
      by (vm_compute; reflexivity).
    rewrite He in H2. injection H2 as H2. rewrite <- H2 in H1, H5.
    assert (Hl : l1 ++ l2 = [10]).
    { destruct l1 as [|x [|y l1]]; simplify_eq/=; [done|].
      match goal with H : [] = _ ++ _ |- _ => by destruct l1 end. }
    rewrite Hl in H4. exists m'. split_and!; assumption.
Defined.

Lemma select_stores_ioctl_param_witness :
  ring traced_busy [10] ∧ lbr_capacity traced_busy ≤ 64 ∧
  rdmsrl MSR_LBR_NHM_FROM traced_busy = 0x401f10 ∧
  ∃ m' st, sample_ioctl Trap 1 SELECT_LBR 0x7ffe1000 0 request_100 1 NULL traced_busy
           = Ok (0, m') ∧
    heap traced_busy !! 10 = Some st ∧
    lbr_select <$> (heap m' !! 10) = Some 0x7ffe1000 ∧
    rdmsrl MSR_LBR_SELECT m' = 0x7ffe1000 ∧
    (∀ i e', entries st !! i = Some e' →
       rdmsrl (MSR_LBR_NHM_FROM + Z.of_nat i) m' = from e' ∧
       rdmsrl (MSR_LBR_NHM_TO + Z.of_nat i) m' = to e') ∧
    rdmsrl MSR_LBR_NHM_FROM m' = 0 ∧
    preempt_count m' = preempt_count traced_busy.
Proof.
  assert (Hring : ring traced_busy [10]) by (apply ringb_sound; vm_compute; reflexivity).
  assert (Hsz : snapshots_sized traced_busy [10])
    by (apply sizedb_sound; vm_compute; reflexivity).
  assert (Hcap : lbr_capacity traced_busy ≤ 64) by (vm_compute; discriminate).
  split; [exact Hring|]. split; [exact Hcap|]. split; [vm_compute; reflexivity|].
  destruct (select_stores_ioctl_param Trap ENABLE_TRACE DISABLE_TRACE DUMP_LBR SELECT_LBR
              DEFAULT_SELECT 1 0x7ffe1000 request_100 1 NULL traced_busy [10] 10)
    as (m' & e & st & H1 & H2 & H3 & H4 & H5 & _ & H6 & _ & H7 & _).
  - by_compute.
  - by_compute.
  - by_compute.
  - exact Hring.
  - exact Hsz.
  - simpl. lia.
  - by_compute.
  - vm_compute; reflexivity.
  - assert (He : find_lbr_state Trap 1 (req_pid request_100) traced_busy = Ok 10)
      by (vm_compute; reflexivity).
    rewrite He in H1. injection H1 as H1. rewrite <- H1 in H2, H4.
    exists m', st. split; [exact H3|]. split; [exact H2|]. split.
    { rewrite H4. rewrite lookup_insert_eq. reflexivity. }
    split; [exact H5|]. split; [exact (H6 Hcap)|]. split; [|exact H7].
    assert (Hent : entries <$> (heap traced_busy !! 10)
                   = Some (replicate 4 {| from := 0; to := 0 |}))
      by (vm_compute; reflexivity).
    rewrite H2 in Hent. injection Hent as Hent.
    destruct (H6 Hcap 0%nat {| from := 0; to := 0 |}) as [Hf _].
    + rewrite Hent. reflexivity.
    + rewrite Z.add_0_r in Hf. exact Hf.
Defined.

Lemma enable_makes_traced_witness :
  ring traced_100 [10] ∧
  ∃ m' s, sample_ioctl Trap 2 ENABLE_TRACE 0x7ffe1000 0 request_200 1 20 traced_100
          = Ok (0, m') ∧
    find_lbr_state Trap 2 200 m' = Ok s ∧ s ≠ NULL ∧ pid_of m' s = Some 200 ∧
    ring m' [10; 20].
Proof.
  assert (Hring : ring traced_100 [10]) by (apply ringb_sound; vm_compute; reflexivity).
  assert (Hsz : snapshots_sized traced_100 [10])
    by (apply sizedb_sound; vm_compute; reflexivity).
  split; [exact Hring|].
  destruct (enable_makes_traced Trap ENABLE_TRACE DISABLE_TRACE DUMP_LBR SELECT_LBR
              DEFAULT_SELECT 2 0x7ffe1000 request_200 1 20 traced_100 [10] Hring Hsz)
    as (m' & s & H1 & H2 & H3 & _ & H4 & _ & H5 & _).
  - by_compute.
  - by_compute.
  - simpl. lia.
  - exists m', s. split_and!; assumption.
Defined.


Lemma fork_hooks_change_nothing_witness :
  ring traced_100 [10] ∧ pid_of traced_100 10 = Some 100 ∧
  (pre_fork_handler traced_100).1 = 0 ∧
  post_fork_handler Trap 1 100 (pre_fork_handler traced_100).2 = Ok traced_100.
Proof.
  assert (Hring : ring traced_100 [10]) by (apply ringb_sound; vm_compute; reflexivity).
  split; [exact Hring|]. split; [vm_compute; reflexivity|].
  apply (fork_hooks_change_nothing Trap traced_100 [10] 100 1 Hring). simpl. lia.
Defined.

Lemma events_keep_store_witness :
  ∃ m' l',
    run_events Trap ENABLE_TRACE DISABLE_TRACE DUMP_LBR SELECT_LBR DEFAULT_SELECT
      32 sample_events (booted 4) = Ok m' ∧
    store_ok m' l' ∧ (length l' ≤ 17)%nat.
Proof.
  apply (events_keep_store Trap ENABLE_TRACE DISABLE_TRACE DUMP_LBR SELECT_LBR DEFAULT_SELECT
           sample_events 32 (booted 4) []).
  - apply store_okb_sound. vm_compute. reflexivity.
  - vm_compute.
    repeat split; first [ left; reflexivity | right; left; reflexivity | right; right; reflexivity ].
  - simpl. lia.
Defined.

Lemma cpuid_fields_decode_witness :
  cpu_family skylake_eax = 6 ∧ cpu_model skylake_eax = 0x5e ∧ 0 ≤ 0x5e < 256.
Proof.
  apply (cpuid_fields_decode 3 14 6 0 5 0); lia.
Defined.

Lemma identify_cpu_supported_witness :
  identify_cpu sample_lbr_maps skylake_eax (mach unloaded)
  = (0, with_capacity 32 (mach unloaded)).
Proof.
  apply (identify_cpu_supported [(0x5c, 32)] 32 [(0x3c, 16); (0x1c, 8)] skylake_eax
           (mach unloaded)).
  - vm_compute; reflexivity.
  - by_compute.
  - lia.
Defined.

Lemma identify_cpu_unsupported_witness :
  (identify_cpu sample_lbr_maps netburst_eax (mach unloaded)).1 = -1 ∧
  (identify_cpu sample_lbr_maps netburst_eax (mach unloaded)).2 = mach unloaded.
Proof.
  destruct (identify_cpu_unsupported sample_lbr_maps netburst_eax (mach unloaded))
    as (H1 & H2 & _).
  - left. by_compute.
  - split; [exact H1|]. apply H2. by_compute.
Defined.

Lemma init_failure_leaves_nothing_witness :
  (libiht_lkm_init sample_lbr_maps skylake_eax 0x7000 (-16) unloaded).1 = -1 ∧
  proc_files (libiht_lkm_init sample_lbr_maps skylake_eax 0x7000 (-16) unloaded).2 = ∅ ∧
  kprobe_registered (libiht_lkm_init sample_lbr_maps skylake_eax 0x7000 (-16) unloaded).2
  = false.
Proof.
  destruct (init_failure_leaves_nothing sample_lbr_maps skylake_eax 0x7000 (-16) unloaded)
    as (H1 & H2 & H3 & _).
  - by_compute.
  - by_compute.
  - split_and!; assumption.
Defined.

Lemma load_unload_round_trip_witness :
  (libiht_lkm_init sample_lbr_maps skylake_eax 0x7000 0 unloaded).1 = 0 ∧
  ∃ k2,
    libiht_lkm_exit_module Trap 0
      (libiht_lkm_init sample_lbr_maps skylake_eax 0x7000 0 unloaded).2 = Ok k2 ∧
    proc_files k2 = proc_files unloaded ∧
    kprobe_registered k2 = false ∧ notifier_registered k2 = false ∧
    notifier_users k2 = notifier_users unloaded + 1 ∧
    rdmsrl MSR_IA32_DEBUGCTLMSR (mach k2) = 0.
Proof.
  split; [vm_compute; reflexivity|].
  destruct (load_unload_round_trip Trap 0 sample_lbr_maps skylake_eax 0x7000 0 unloaded)
    as (k2 & H1 & H2 & H3 & H4 & H5 & H6 & _).
  - by_compute.
  - vm_compute; reflexivity.
  - exists k2. split_and!; assumption.
Defined.

Lemma cascade_never_completes_witness :
  ring family [10; 20] ∧ par family 20 = Some 10 ∧
  returns (remove_lbr_state Trap 9 10 family) = false.
Proof.
  assert (Hring : ring family ([] ++ 10 :: [20]))
    by (apply ringb_sound; vm_compute; reflexivity).
  assert (Hpar : par family 20 = Some 10) by (vm_compute; reflexivity).
  split; [exact Hring|]. split; [exact Hpar|].
  apply (cascade_never_completes family [] 10 [20] 20 9 Hring); [by_compute|exact Hpar].
Defined.

Lemma teardown_of_any_store_witness :
  ring traced_pair [10; 20] ∧
  libiht_lkm_exit Trap 2 traced_pair = Fault (UseAfterFree 10) ∧
  libiht_lkm_exit Stale 2 traced_pair =
    Ok (disable_lbr (with_released (list_to_set [10; 20] ∪ released traced_pair) traced_pair)).
Proof.
  assert (Hring : ring traced_pair [10; 20]) by (apply ringb_sound; vm_compute; reflexivity).
  split; [exact Hring|].
  apply (teardown_of_any_store traced_pair 10 [20] 2 Hring). simpl. lia.
Defined.
